(** * Decawave TDOA estimator and MPC controller: a shallow embedding

    The position estimator (class [TDOA], an extended Kalman filter fed with
    range differences) and the model-predictive controller (classes [FG_eval]
    and [MPC]) are embedded as functions over real numbers.

    Conventions of the embedding.
    - C++ [float] and [double] values are idealised as real numbers ([R]):
      a statement about [TDOA], [MPC] or [Waypoint] is a statement of exact
      arithmetic.  A quotient whose denominator is zero has no real value;
      the code running into one is recorded as the fault [DivisionByZero].
    - The estimator is embedded a second time in the arithmetic of the
      program, IEEE 754 binary32 (module [Binary32]), where its roundings
      can be computed.  A property that holds in exact arithmetic only
      says so.
    - [Eigen::VectorXf] and [Eigen::RowVectorXf] are lists of coefficients,
      [Eigen::MatrixXf] is the list of its rows.
    - A C array is the list of its cells; a store or a load outside the
      array is undefined behaviour in C++ and is recorded as the fault
      [OutOfBounds], the load of a cell that was never written as the fault
      [Uninitialised].
    - A member function that assigns to members of [*this] takes the object
      and returns the new object. *)

From Stdlib Require Import Reals Lra Lia List ZArith Bool Psatz.
From Stdlib Require String Ascii.
From Stdlib Require Floats.SpecFloat.
Import ListNotations.
Open Scope R_scope.

(** ** Faults and the error monad *)

Inductive fault : Set :=
| DivisionByZero
| OutOfBounds
| Uninitialised.

Inductive result (T : Type) : Type :=
| Ok (v : T)
| Fault (f : fault).

Arguments Ok {T} v.
Arguments Fault {T} f.

Definition bind {T U : Type} (m : result T) (k : T -> result U) : result U :=
  match m with
  | Ok v => k v
  | Fault f => Fault f
  end.

Notation "x <- m ;; k" := (bind m (fun x => k))
  (at level 61, m at next level, right associativity).

(** [a / b] on floating-point operands, idealised: a real quotient when the
    denominator is not zero. *)
Definition fdiv (a b : R) : result R :=
  if Req_dec_T b 0 then Fault DivisionByZero else Ok (a / b).

(** [powf(a, n)] and [sqrtf(a)], idealised. *)
Definition powf (a : R) (n : nat) : R := a ^ n.
Definition sqrtf (a : R) : R := sqrt a.

(** ** Arrays *)

Fixpoint store {T : Type} (l : list T) (i : nat) (v : T) : list T :=
  match l, i with
  | [], _ => []
  | _ :: l', O => v :: l'
  | w :: l', S i' => w :: store l' i' v
  end.

(** ** The part of Eigen the program uses *)

Module Eigen.

Definition VectorXf := list R.
Definition RowVectorXf := list R.
Definition MatrixXf := list (list R).

Definition rows (M : MatrixXf) : nat := length M.
Definition cols (M : MatrixXf) : nat := length (hd [] M).

(** [v(i)] and [M(i, j)], read. *)
Definition coeff (v : list R) (i : nat) : R := nth i v 0.
Definition coeffM (M : MatrixXf) (i j : nat) : R := nth j (nth i M []) 0.

(** [v(i) = a] and [M(i, j) = a]. *)
Definition set_coeff (v : list R) (i : nat) (a : R) : list R := store v i a.
Definition set_coeffM (M : MatrixXf) (i j : nat) (a : R) : MatrixXf :=
  store M i (store (nth i M []) j a).

(** [VectorXf::Constant(n, a)], [v.setZero(n)], [M.setZero(r, c)] and
    [MatrixXf::Identity(n, n)]. *)
Definition Constant (n : nat) (a : R) : list R := repeat a n.
Definition setZero (n : nat) : list R := repeat 0 n.
Definition setZeroM (r c : nat) : MatrixXf := repeat (repeat 0 c) r.
Definition Identity (n : nat) : MatrixXf :=
  map (fun i => map (fun j => if Nat.eqb i j then 1 else 0) (seq 0 n)) (seq 0 n).

(** Inner product of a row vector and a column vector. *)
Fixpoint dot (u v : list R) : R :=
  match u, v with
  | a :: u', b :: v' => a * b + dot u' v'
  | _, _ => 0
  end.

Definition col (M : MatrixXf) (j : nat) : list R := map (fun r => nth j r 0) M.

(** [M.transpose()] *)
Definition transpose (M : MatrixXf) : MatrixXf :=
  map (col M) (seq 0 (cols M)).

(** [M * v], a matrix times a column vector. *)
Definition mat_vec (M : MatrixXf) (v : VectorXf) : VectorXf :=
  map (fun r => dot r v) M.

(** [h * M], a row vector times a matrix. *)
Definition vec_mat (h : RowVectorXf) (M : MatrixXf) : RowVectorXf :=
  map (fun c => dot h c) (transpose M).

(** [M1 * M2] *)
Definition mat_mul (M1 M2 : MatrixXf) : MatrixXf :=
  map (fun r => vec_mat r M2) M1.

(** [k * h], a column vector times a row vector. *)
Definition outer (k : VectorXf) (h : RowVectorXf) : MatrixXf :=
  map (fun a => map (fun b => a * b) h) k.

Fixpoint zip_with (f : R -> R -> R) (u v : list R) : list R :=
  match u, v with
  | a :: u', b :: v' => f a b :: zip_with f u' v'
  | _, _ => []
  end.

(** [u + v], [v * a], [M1 - M2] *)
Definition vec_add (u v : list R) : list R := zip_with Rplus u v.
Definition vec_scale (v : list R) (a : R) : list R := map (fun b => b * a) v.
Fixpoint mat_sub (M1 M2 : MatrixXf) : MatrixXf :=
  match M1, M2 with
  | r1 :: M1', r2 :: M2' => zip_with Rminus r1 r2 :: mat_sub M1' M2'
  | _, _ => []
  end.

(** [v / a], every coefficient divided by the scalar. *)
Definition vec_div (v : list R) (a : R) : result (list R) :=
  if Req_dec_T a 0 then Fault DivisionByZero else Ok (map (fun b => b / a) v).

(** Shapes.  Eigen asserts that the operands of a product, a sum or a
    difference have matching sizes; the operations above are only
    meaningful on operands of these shapes. *)
Definition is_vector (n : nat) (v : list R) : Prop := length v = n.
Definition is_matrix (r c : nat) (M : MatrixXf) : Prop :=
  length M = r /\ Forall (fun row => length row = c) M.

End Eigen.

(** ** tdoa.h: constants and types *)

(** Modelled from the spec: the header tdoa.h is not among the sources.  The
    state vector is [x, y, z, vx, vy, vz], of dimension 6, so the index
    macros [STATE_X] ... [STATE_VZ] number its components in this order and
    [STATE_DIM] is 6. *)
Definition STATE_X : nat := 0.
Definition STATE_Y : nat := 1.
Definition STATE_Z : nat := 2.
Definition STATE_VX : nat := 3.
Definition STATE_VY : nat := 4.
Definition STATE_VZ : nat := 5.
Definition STATE_DIM : nat := 6.

(** Modelled from the spec: struct [vec3d_t] of tdoa.h, a 3D position with
    the members [x], [y], [z] the sources read and write. *)
Module vec3d_t.
Record t : Type := mk { x : R; y : R; z : R }.
End vec3d_t.

(** ** class TDOA *)

Module TDOA.

(** Modelled from the spec: the class declaration is in tdoa.h, which is
    not among the sources.  The estimator holds the state [S], the covariance
    [P], the transition matrix [A], the anchor registry and the measurement
    noise standard deviation; these are the data members the member functions
    read and write, with the two counters the constructor sets.
    [anchorPosition] is an array; a cell the program has not written yet
    holds no defined value ([None]). *)
Record t : Type := mk {
  tdoaCount : Z;
  nr_states : Z;
  S : Eigen.VectorXf;
  P : Eigen.MatrixXf;
  A : Eigen.MatrixXf;
  anchorPosition : list (option vec3d_t.t);
  stdDev : R
}.

Definition with_S (this : t) (S' : Eigen.VectorXf) : t :=
  mk (tdoaCount this) (nr_states this) S' (P this) (A this)
     (anchorPosition this) (stdDev this).
Definition with_P (this : t) (P' : Eigen.MatrixXf) : t :=
  mk (tdoaCount this) (nr_states this) (S this) P' (A this)
     (anchorPosition this) (stdDev this).
Definition with_A (this : t) (A' : Eigen.MatrixXf) : t :=
  mk (tdoaCount this) (nr_states this) (S this) (P this) A'
     (anchorPosition this) (stdDev this).
Definition with_anchorPosition (this : t) (a : list (option vec3d_t.t)) : t :=
  mk (tdoaCount this) (nr_states this) (S this) (P this) (A this)
     a (stdDev this).

(** void TDOA::setTransitionMat(Eigen::MatrixXf transition_mat) *)
Definition setTransitionMat (transition_mat : Eigen.MatrixXf) (this : t) : t :=
  if (negb (Z.of_nat (Eigen.rows transition_mat) =? nr_states this)%Z
      || negb (Z.of_nat (Eigen.cols transition_mat) =? nr_states this)%Z)%bool
  then
    (* If provided transition_mat is of wrong size, ignore input *)
    this
  else with_A this transition_mat.

(** void TDOA::setPredictionMat(Eigen::MatrixXf prediction_mat) *)
Definition setPredictionMat (prediction_mat : Eigen.MatrixXf) (this : t) : t :=
  if (negb (Z.of_nat (Eigen.rows prediction_mat) =? nr_states this)%Z
      || negb (Z.of_nat (Eigen.cols prediction_mat) =? nr_states this)%Z)%bool
  then
    (* If provided transition_mat is of wrong size, ignore input *)
    this
  else with_P this prediction_mat.

(** [anchorPosition[i] = pos]: a store into the array. *)
Definition anchor_store (arr : list (option vec3d_t.t)) (i : Z) (pos : vec3d_t.t)
  : result (list (option vec3d_t.t)) :=
  if ((0 <=? i)%Z && (i <? Z.of_nat (length arr))%Z)%bool
  then Ok (store arr (Z.to_nat i) (Some pos))
  else Fault OutOfBounds.

(** [anchorPosition[i]], read: the cell must lie in the array and must
    have been written. *)
Definition anchor_load (arr : list (option vec3d_t.t)) (i : Z) : result vec3d_t.t :=
  if (0 <=? i)%Z then
    match nth_error arr (Z.to_nat i) with
    | Some (Some pos) => Ok pos
    | Some None => Fault Uninitialised
    | None => Fault OutOfBounds
    end
  else Fault OutOfBounds.

Section Anchors.

(** The macro [MAX_NR_ANCHORS] of tdoa.h, whose value the sources do
    not show. *)
Variable MAX_NR_ANCHORS : Z.

(** void TDOA::setAncPosition(int anc_num, vec3d_t anc_pos) *)
Definition setAncPosition (anc_num : Z) (anc_pos : vec3d_t.t) (this : t) : result t :=
  if ((anc_num <? 0)%Z || (anc_num >? MAX_NR_ANCHORS)%Z)%bool
  then
    (* invalid anchor number *)
    Ok this
  else
    arr <- anchor_store (anchorPosition this) anc_num anc_pos ;;
    Ok (with_anchorPosition this arr).

(** void TDOA::setAncPosition(int anc_num, float x, float y, float z) *)
Definition setAncPosition_xyz (anc_num : Z) (x y z : R) (this : t) : result t :=
  let temp := vec3d_t.mk x y z in
  setAncPosition anc_num temp this.

(** void TDOA::initAnchorPos(void).  It assigns to cells of
    [anchorPosition] and to nothing else, so it is a function of the
    array. *)
Definition initAnchorPos (anchorPosition : list (option vec3d_t.t))
  : result (list (option vec3d_t.t)) :=
  a <- anchor_store anchorPosition 0 (vec3d_t.mk 4.628 0.600 1.312) ;;
  a <- anchor_store a 1 (vec3d_t.mk 4.628 3.810 1.297) ;;
  a <- anchor_store a 2 (vec3d_t.mk 0.043 4.210 1.302) ;;
  anchor_store a 3 (vec3d_t.mk 0.123 1.673 1.903).

(** Modelled from the spec: the declaration of the member
    [anchorPosition] is in tdoa.h; anchor indices lie in
    [0, MAX_NR_ANCHORS), so the array has [MAX_NR_ANCHORS] cells.  None
    of them is written before [initAnchorPos]. *)
Definition anchorPosition_decl : list (option vec3d_t.t) :=
  repeat None (Z.to_nat MAX_NR_ANCHORS).

(** TDOA::TDOA(void) *)
Definition TDOA : result t :=
  let tdoaCount := 0%Z in
  let nr_states := Z.of_nat STATE_DIM in
  let S := Eigen.setZero STATE_DIM in
  let S := Eigen.set_coeff S STATE_X 2 in
  let S := Eigen.set_coeff S STATE_Y 2.6 in
  let P := Eigen.setZeroM STATE_DIM STATE_DIM in
  let P := Eigen.set_coeffM P STATE_X STATE_X (powf 100 2) in
  let P := Eigen.set_coeffM P STATE_Y STATE_Y (powf 100 2) in
  let P := Eigen.set_coeffM P STATE_Z STATE_Z (powf 1 2) in
  let P := Eigen.set_coeffM P STATE_VX STATE_VX (powf 0.01 2) in
  let P := Eigen.set_coeffM P STATE_VY STATE_VY (powf 0.01 2) in
  let P := Eigen.set_coeffM P STATE_VZ STATE_VZ (powf 0.01 2) in
  let A := Eigen.Identity STATE_DIM in
  let A := Eigen.set_coeffM A STATE_X STATE_VX 0.016 in
  let A := Eigen.set_coeffM A STATE_Y STATE_VY 0.016 in
  let A := Eigen.set_coeffM A STATE_Z STATE_VZ 0.016 in
  anchorPosition <- initAnchorPos anchorPosition_decl ;;
  let stdDev := 0.15 in
  Ok (mk tdoaCount nr_states S P A anchorPosition stdDev).

End Anchors.

(** vec3d_t TDOA::getAncPosition(int anc_num) *)
Definition getAncPosition (anc_num : Z) (this : t) : result vec3d_t.t :=
  anchor_load (anchorPosition this) anc_num.

(** void TDOA::stateEstimatorScalarUpdate(RowVectorXf H, float error,
    float stdMeasNoise).  The function-local static buffers [K] and [PHTm]
    are assigned before they are read and [I] is never assigned, so they
    are local values here. *)
Definition stateEstimatorScalarUpdate
    (H : Eigen.RowVectorXf) (error stdMeasNoise : R) (this : t) : result t :=
  let I := Eigen.Identity STATE_DIM in
  (* ====== INNOVATION COVARIANCE ====== *)
  let PHTm := Eigen.mat_vec (P this) H in
  let R := stdMeasNoise * stdMeasNoise in
  let HPHR := Eigen.dot H PHTm + R in
  (* ====== MEASUREMENT UPDATE ====== *)
  K <- Eigen.vec_div PHTm HPHR ;;
  let this := with_S this (Eigen.vec_add (S this) (Eigen.vec_scale K error)) in
  (* ====== COVARIANCE UPDATE ====== *)
  let this := with_P this (Eigen.mat_mul (Eigen.mat_sub I (Eigen.outer K H)) (P this)) in
  Ok this.

(** void TDOA::scalarTDOADistUpdate(uint8_t Ar, uint8_t An, float distanceDiff).
    The anchor indices are only used to index [anchorPosition]. *)
Definition scalarTDOADistUpdate (Ar An : Z) (distanceDiff : R) (this : t) : result t :=
  let measurement := distanceDiff in
  (* predict based on current state *)
  let x := Eigen.coeff (S this) STATE_X in
  let y := Eigen.coeff (S this) STATE_Y in
  let z := Eigen.coeff (S this) STATE_Z in
  p1 <- anchor_load (anchorPosition this) An ;;
  let x1 := vec3d_t.x p1 in let y1 := vec3d_t.y p1 in let z1 := vec3d_t.z p1 in
  p0 <- anchor_load (anchorPosition this) Ar ;;
  let x0 := vec3d_t.x p0 in let y0 := vec3d_t.y p0 in let z0 := vec3d_t.z p0 in
  let d1 := sqrtf (powf (x - x1) 2 + powf (y - y1) 2 + powf (z - z1) 2) in
  let d0 := sqrtf (powf (x - x0) 2 + powf (y - y0) 2 + powf (z - z0) 2) in
  let predicted := d1 - d0 in
  let error := measurement - predicted in
  let h := Eigen.Constant STATE_DIM 0 in
  qx1 <- fdiv (x - x1) d1 ;; qx0 <- fdiv (x - x0) d0 ;;
  let h := Eigen.set_coeff h STATE_X (qx1 - qx0) in
  qy1 <- fdiv (y - y1) d1 ;; qy0 <- fdiv (y - y0) d0 ;;
  let h := Eigen.set_coeff h STATE_Y (qy1 - qy0) in
  qz1 <- fdiv (z - z1) d1 ;; qz0 <- fdiv (z - z0) d0 ;;
  let h := Eigen.set_coeff h STATE_Z (qz1 - qz0) in
  stateEstimatorScalarUpdate h error (stdDev this) this.

(** void TDOA::stateEstimatorPredict() *)
Definition stateEstimatorPredict (this : t) : t :=
  (* Covariance update *)
  with_P this (Eigen.mat_mul (Eigen.mat_mul (A this) (P this)) (Eigen.transpose (A this))).

(** vec3d_t TDOA::getLocation(void); the debugging output to [std::cout]
    is left out. *)
Definition getLocation (this : t) : vec3d_t.t :=
  vec3d_t.mk (Eigen.coeff (S this) STATE_X)
             (Eigen.coeff (S this) STATE_Y)
             (Eigen.coeff (S this) STATE_Z).

End TDOA.

(** ** class TDOA in binary32 arithmetic *)

(** The estimator once more, with [float] as the IEEE 754 binary32 format
    (24 bits of precision, round to nearest, ties to even) in place of the
    real numbers, so that the roundings of the program can be computed.
    The operations are those of the Standard Library's [SpecFloat]: each
    arithmetic operation of the source is one correctly rounded operation,
    and a division by zero is no fault but gives an infinity or a NaN.
    - A product is rounded before it is added (no fused multiply-add).
    - The terms of an inner product or of an entry of a matrix product are
      added from the first to the last.
    - [powf(a, 2)] is the correctly rounded square of [a].
    The module holds the member functions the properties below run:
    the constructor, [setPredictionMat], [setAncPosition],
    [getAncPosition], the two updates and [getLocation]. *)
Module Binary32.

Definition float : Set := SpecFloat.spec_float.

Definition prec : Z := 24.
Definition emax : Z := 128.

Definition add : float -> float -> float := SpecFloat.SFadd prec emax.
Definition sub : float -> float -> float := SpecFloat.SFsub prec emax.
Definition mul : float -> float -> float := SpecFloat.SFmul prec emax.
Definition div : float -> float -> float := SpecFloat.SFdiv prec emax.
Definition sqrtf : float -> float := SpecFloat.SFsqrt prec emax.

(** The number [m * 2^e] as a [float] (rounded, if it is not one). *)
Definition dyadic (m e : Z) : float := SpecFloat.binary_normalize prec emax m e false.

(** An integer constant converted to [float]. *)
Definition of_int (n : Z) : float := dyadic n 0.

(** The decimal literal [n / 10^k] with the suffix [f], as [0.15f]: the
    nearest [float].  [n] and [10^k] are below 2^24 in every use, hence
    [float]s themselves, and their quotient is rounded once. *)
Definition literal_f (n : Z) (k : nat) : float := div (of_int n) (of_int (10 ^ Z.of_nat k)).

(** The decimal literal [n / 10^k] without a suffix, as [2.6], is the
    nearest [double] (binary64); assigned to a [float] or passed to [powf]
    it is rounded a second time, to binary32. *)
Definition literal (n : Z) (k : nat) : float :=
  match SpecFloat.SFdiv 53 1024 (SpecFloat.binary_normalize 53 1024 n 0 false)
          (SpecFloat.binary_normalize 53 1024 (10 ^ Z.of_nat k) 0 false) with
  | SpecFloat.S754_finite s m e =>
      SpecFloat.binary_normalize prec emax (if s then Z.neg m else Z.pos m) e s
  | d => d
  end.

Definition zero : float := SpecFloat.S754_zero false.
Definition one : float := of_int 1.

(** [powf(a, 2)] *)
Definition powf2 (a : float) : float := mul a a.

(** The real number that a finite [float] is. *)
Definition to_R (a : float) : R :=
  match a with
  | SpecFloat.S754_finite s m e =>
      (if s then - IZR (Z.pos m) else IZR (Z.pos m)) * powerRZ 2 e
  | _ => 0
  end.

Module Eigen.

Definition VectorXf := list float.
Definition RowVectorXf := list float.
Definition MatrixXf := list (list float).

Definition coeff (v : list float) (i : nat) : float := nth i v zero.
Definition coeffM (M : MatrixXf) (i j : nat) : float := nth j (nth i M []) zero.
Definition set_coeff (v : list float) (i : nat) (a : float) : list float := store v i a.
Definition set_coeffM (M : MatrixXf) (i j : nat) (a : float) : MatrixXf :=
  store M i (store (nth i M []) j a).

Definition Constant (n : nat) (a : float) : list float := repeat a n.
Definition setZero (n : nat) : list float := repeat zero n.
Definition setZeroM (r c : nat) : MatrixXf := repeat (repeat zero c) r.
Definition Identity (n : nat) : MatrixXf :=
  map (fun i => map (fun j => if Nat.eqb i j then one else zero) (seq 0 n)) (seq 0 n).

(** Inner product of a row vector and a column vector: the first product,
    then the others added one after the other. *)
Fixpoint dot_from (acc : float) (u v : list float) : float :=
  match u, v with
  | a :: u', b :: v' => dot_from (add acc (mul a b)) u' v'
  | _, _ => acc
  end.
Definition dot (u v : list float) : float :=
  match u, v with
  | a :: u', b :: v' => dot_from (mul a b) u' v'
  | _, _ => zero
  end.

Definition rows (M : MatrixXf) : nat := length M.
Definition cols (M : MatrixXf) : nat := length (hd [] M).
Definition col (M : MatrixXf) (j : nat) : list float := map (fun r => nth j r zero) M.
Definition transpose (M : MatrixXf) : MatrixXf := map (col M) (seq 0 (cols M)).

(** [M * v], [h * M], [M1 * M2], [k * h] *)
Definition mat_vec (M : MatrixXf) (v : VectorXf) : VectorXf := map (fun r => dot r v) M.
Definition vec_mat (h : RowVectorXf) (M : MatrixXf) : RowVectorXf :=
  map (fun c => dot h c) (transpose M).
Definition mat_mul (M1 M2 : MatrixXf) : MatrixXf := map (fun r => vec_mat r M2) M1.
Definition outer (k : VectorXf) (h : RowVectorXf) : MatrixXf :=
  map (fun a => map (fun b => mul a b) h) k.

Fixpoint zip_with (f : float -> float -> float) (u v : list float) : list float :=
  match u, v with
  | a :: u', b :: v' => f a b :: zip_with f u' v'
  | _, _ => []
  end.

(** [u + v], [v * a], [M1 - M2], [v / a] *)
Definition vec_add (u v : list float) : list float := zip_with add u v.
Definition vec_scale (v : list float) (a : float) : list float := map (fun b => mul b a) v.
Fixpoint mat_sub (M1 M2 : MatrixXf) : MatrixXf :=
  match M1, M2 with
  | r1 :: M1', r2 :: M2' => zip_with sub r1 r2 :: mat_sub M1' M2'
  | _, _ => []
  end.
Definition vec_div (v : list float) (a : float) : list float := map (fun b => div b a) v.

End Eigen.

(** Modelled from the spec: struct [vec3d_t] of tdoa.h, as above, with
    [float] members. *)
Module vec3d_t.
Record t : Type := mk { x : float; y : float; z : float }.
End vec3d_t.

Module TDOA.

(** Modelled from the spec: the data members of the class, as above. *)
Record t : Type := mk {
  tdoaCount : Z;
  nr_states : Z;
  S : Eigen.VectorXf;
  P : Eigen.MatrixXf;
  A : Eigen.MatrixXf;
  anchorPosition : list (option vec3d_t.t);
  stdDev : float
}.

Definition with_S (this : t) (S' : Eigen.VectorXf) : t :=
  mk (tdoaCount this) (nr_states this) S' (P this) (A this)
     (anchorPosition this) (stdDev this).
Definition with_P (this : t) (P' : Eigen.MatrixXf) : t :=
  mk (tdoaCount this) (nr_states this) (S this) P' (A this)
     (anchorPosition this) (stdDev this).
Definition with_anchorPosition (this : t) (a : list (option vec3d_t.t)) : t :=
  mk (tdoaCount this) (nr_states this) (S this) (P this) (A this)
     a (stdDev this).

(** void TDOA::setPredictionMat(Eigen::MatrixXf prediction_mat) *)
Definition setPredictionMat (prediction_mat : Eigen.MatrixXf) (this : t) : t :=
  if (negb (Z.of_nat (Eigen.rows prediction_mat) =? nr_states this)%Z
      || negb (Z.of_nat (Eigen.cols prediction_mat) =? nr_states this)%Z)%bool
  then
    (* If provided transition_mat is of wrong size, ignore input *)
    this
  else with_P this prediction_mat.

(** [anchorPosition[i] = pos] and [anchorPosition[i]], read. *)
Definition anchor_store (arr : list (option vec3d_t.t)) (i : Z) (pos : vec3d_t.t)
  : result (list (option vec3d_t.t)) :=
  if ((0 <=? i)%Z && (i <? Z.of_nat (length arr))%Z)%bool
  then Ok (store arr (Z.to_nat i) (Some pos))
  else Fault OutOfBounds.
Definition anchor_load (arr : list (option vec3d_t.t)) (i : Z) : result vec3d_t.t :=
  if (0 <=? i)%Z then
    match nth_error arr (Z.to_nat i) with
    | Some (Some pos) => Ok pos
    | Some None => Fault Uninitialised
    | None => Fault OutOfBounds
    end
  else Fault OutOfBounds.

Section Anchors.

(** The macro [MAX_NR_ANCHORS] of tdoa.h. *)
Variable MAX_NR_ANCHORS : Z.

(** void TDOA::setAncPosition(int anc_num, vec3d_t anc_pos) *)
Definition setAncPosition (anc_num : Z) (anc_pos : vec3d_t.t) (this : t) : result t :=
  if ((anc_num <? 0)%Z || (anc_num >? MAX_NR_ANCHORS)%Z)%bool
  then
    (* invalid anchor number *)
    Ok this
  else
    arr <- anchor_store (anchorPosition this) anc_num anc_pos ;;
    Ok (with_anchorPosition this arr).

(** void TDOA::setAncPosition(int anc_num, float x, float y, float z) *)
Definition setAncPosition_xyz (anc_num : Z) (x y z : float) (this : t) : result t :=
  let temp := vec3d_t.mk x y z in
  setAncPosition anc_num temp this.

(** void TDOA::initAnchorPos(void) *)
Definition initAnchorPos (anchorPosition : list (option vec3d_t.t))
  : result (list (option vec3d_t.t)) :=
  a <- anchor_store anchorPosition 0
         (vec3d_t.mk (literal 4628 3) (literal 600 3) (literal 1312 3)) ;;
  a <- anchor_store a 1
         (vec3d_t.mk (literal 4628 3) (literal 3810 3) (literal 1297 3)) ;;
  a <- anchor_store a 2
         (vec3d_t.mk (literal 43 3) (literal 4210 3) (literal 1302 3)) ;;
  anchor_store a 3
         (vec3d_t.mk (literal 123 3) (literal 1673 3) (literal 1903 3)).

(** Modelled from the spec: the member [anchorPosition] of tdoa.h, an
    array of [MAX_NR_ANCHORS] cells, as above. *)
Definition anchorPosition_decl : list (option vec3d_t.t) :=
  repeat None (Z.to_nat MAX_NR_ANCHORS).

(** TDOA::TDOA(void) *)
Definition TDOA : result t :=
  let tdoaCount := 0%Z in
  let nr_states := Z.of_nat STATE_DIM in
  let S := Eigen.setZero STATE_DIM in
  let S := Eigen.set_coeff S STATE_X (of_int 2) in
  let S := Eigen.set_coeff S STATE_Y (literal 26 1) in
  let P := Eigen.setZeroM STATE_DIM STATE_DIM in
  let P := Eigen.set_coeffM P STATE_X STATE_X (powf2 (of_int 100)) in
  let P := Eigen.set_coeffM P STATE_Y STATE_Y (powf2 (of_int 100)) in
  let P := Eigen.set_coeffM P STATE_Z STATE_Z (powf2 (of_int 1)) in
  let P := Eigen.set_coeffM P STATE_VX STATE_VX (powf2 (literal 1 2)) in
  let P := Eigen.set_coeffM P STATE_VY STATE_VY (powf2 (literal 1 2)) in
  let P := Eigen.set_coeffM P STATE_VZ STATE_VZ (powf2 (literal 1 2)) in
  let A := Eigen.Identity STATE_DIM in
  let A := Eigen.set_coeffM A STATE_X STATE_VX (literal 16 3) in
  let A := Eigen.set_coeffM A STATE_Y STATE_VY (literal 16 3) in
  let A := Eigen.set_coeffM A STATE_Z STATE_VZ (literal 16 3) in
  anchorPosition <- initAnchorPos anchorPosition_decl ;;
  let stdDev := literal_f 15 2 in
  Ok (mk tdoaCount nr_states S P A anchorPosition stdDev).

End Anchors.

(** vec3d_t TDOA::getAncPosition(int anc_num) *)
Definition getAncPosition (anc_num : Z) (this : t) : result vec3d_t.t :=
  anchor_load (anchorPosition this) anc_num.

(** void TDOA::stateEstimatorScalarUpdate(RowVectorXf H, float error,
    float stdMeasNoise) *)
Definition stateEstimatorScalarUpdate
    (H : Eigen.RowVectorXf) (error stdMeasNoise : float) (this : t) : t :=
  let I := Eigen.Identity STATE_DIM in
  (* ====== INNOVATION COVARIANCE ====== *)
  let PHTm := Eigen.mat_vec (P this) H in
  let R := mul stdMeasNoise stdMeasNoise in
  let HPHR := add (Eigen.dot H PHTm) R in
  (* ====== MEASUREMENT UPDATE ====== *)
  let K := Eigen.vec_div PHTm HPHR in
  let this := with_S this (Eigen.vec_add (S this) (Eigen.vec_scale K error)) in
  (* ====== COVARIANCE UPDATE ====== *)
  let this := with_P this (Eigen.mat_mul (Eigen.mat_sub I (Eigen.outer K H)) (P this)) in
  this.

(** void TDOA::scalarTDOADistUpdate(uint8_t Ar, uint8_t An, float distanceDiff) *)
Definition scalarTDOADistUpdate (Ar An : Z) (distanceDiff : float) (this : t) : result t :=
  let measurement := distanceDiff in
  (* predict based on current state *)
  let x := Eigen.coeff (S this) STATE_X in
  let y := Eigen.coeff (S this) STATE_Y in
  let z := Eigen.coeff (S this) STATE_Z in
  p1 <- anchor_load (anchorPosition this) An ;;
  let x1 := vec3d_t.x p1 in let y1 := vec3d_t.y p1 in let z1 := vec3d_t.z p1 in
  p0 <- anchor_load (anchorPosition this) Ar ;;
  let x0 := vec3d_t.x p0 in let y0 := vec3d_t.y p0 in let z0 := vec3d_t.z p0 in
  let d1 := sqrtf (add (add (powf2 (sub x x1)) (powf2 (sub y y1))) (powf2 (sub z z1))) in
  let d0 := sqrtf (add (add (powf2 (sub x x0)) (powf2 (sub y y0))) (powf2 (sub z z0))) in
  let predicted := sub d1 d0 in
  let error := sub measurement predicted in
  let h := Eigen.Constant STATE_DIM zero in
  let h := Eigen.set_coeff h STATE_X (sub (div (sub x x1) d1) (div (sub x x0) d0)) in
  let h := Eigen.set_coeff h STATE_Y (sub (div (sub y y1) d1) (div (sub y y0) d0)) in
  let h := Eigen.set_coeff h STATE_Z (sub (div (sub z z1) d1) (div (sub z z0) d0)) in
  Ok (stateEstimatorScalarUpdate h error (stdDev this) this).

(** vec3d_t TDOA::getLocation(void) *)
Definition getLocation (this : t) : vec3d_t.t :=
  vec3d_t.mk (Eigen.coeff (S this) STATE_X)
             (Eigen.coeff (S this) STATE_Y)
             (Eigen.coeff (S this) STATE_Z).

End TDOA.

End Binary32.

(** ** MPC.cpp *)

Module MPC.

(** Set the timestep length and duration *)
Definition N : nat := 10.
Definition dt : R := 0.1.

(** Geometric parameters of car *)
Definition lr : R := 0.3.

(** State and input hard constraints *)
Definition x_bound : R := 3.0.
Definition y_bound : R := 3.0.
Definition dir_bound : R := 0.35.
Definition vel_bound : R := 3.0.

(** Offsets of the fields in the flat vector of variables *)
Definition x_start : nat := 0.
Definition y_start : nat := x_start + N.
Definition psi_start : nat := y_start + N.
Definition cte_start : nat := psi_start + N.
Definition epsi_start : nat := cte_start + N.
Definition v_start : nat := epsi_start + N.
Definition delta_start : nat := v_start + N - 1.

(** [v[i]], read, and [v[i] = a], [v[i] += a] on a vector of the solver
    interface. *)
Definition get (v : list R) (i : nat) : R := nth i v 0.
Definition set (v : list R) (i : nat) (a : R) : list R := store v i a.
Definition add_to (v : list R) (i : nat) (a : R) : list R := store v i (get v i + a).

(** The lines of solver options [Solve] appends to [options]. *)
Module Options.
Import Stdlib.Strings.String.
Definition newline : string := String (Ascii.ascii_of_nat 10) EmptyString.
Definition print_level : string := ("Integer print_level  0" ++ newline)%string.
Definition sparse : string := ("Sparse  true        forward" ++ newline)%string.
Definition max_cpu_time : string :=
  ("Numeric max_cpu_time          0.099" ++ newline)%string.
End Options.

(** [for (unsigned int t = lo; t < hi; ++t) body], on a state [s]. *)
Definition for_loop {T : Type} (lo hi : nat) (body : nat -> T -> T) (s : T) : T :=
  fold_left (fun s t => body t s) (seq lo (hi - lo)) s.

(** class FG_eval: the member [coeffs] and [operator()], which fills [fg]
    with the cost ([fg[0]]) and the constraint functions ([fg[1 + i]])
    evaluated at [vars]. *)
Definition FG_eval (coeffs : list R) (fg vars : list R) : list R :=
  (* Initialize cost at 0 *)
  let fg := set fg 0 0 in
  (* State cost weights *)
  let cte_weight := 1 in
  let epsi_weight := 1 in
  (* Input and input derivative cost weights *)
  let delta_weight := 200 in
  let delta_rate_weight := 250 in
  let v_weight := 50 in
  let v_rate_weight := 200 in
  (* Set up the cost function *)
  let fg := for_loop 0 N (fun t fg =>
    let fg := add_to fg 0 (cte_weight * (get vars (cte_start + t)) ^ 2) in
    add_to fg 0 (epsi_weight * (get vars (epsi_start + t)) ^ 2)) fg in
  (* Minimize inputs *)
  let fg := for_loop 0 (N - 1) (fun t fg =>
    let fg := add_to fg 0 (delta_weight * (get vars (delta_start + t)) ^ 2) in
    add_to fg 0 (v_weight * (get vars (v_start + t)) ^ 2)) fg in
  (* Minimize input derivatives *)
  let fg := for_loop 0 (N - 2) (fun t fg =>
    let fg := add_to fg 0 (delta_rate_weight *
                (get vars (delta_start + t + 1) - get vars (delta_start + t)) ^ 2) in
    add_to fg 0 (v_rate_weight *
                (get vars (v_start + t + 1) - get vars (v_start + t)) ^ 2)) fg in
  (* Set the constraints at time t=0 *)
  let fg := set fg (1 + x_start) (get vars x_start) in
  let fg := set fg (1 + y_start) (get vars y_start) in
  let fg := set fg (1 + psi_start) (get vars psi_start) in
  let fg := set fg (1 + cte_start) (get vars cte_start) in
  let fg := set fg (1 + epsi_start) (get vars epsi_start) in
  for_loop 1 N (fun t fg =>
    (* State at time t+1 *)
    let x1 := get vars (x_start + t) in
    let y1 := get vars (y_start + t) in
    let psi1 := get vars (psi_start + t) in
    let cte1 := get vars (cte_start + t) in
    let epsi1 := get vars (epsi_start + t) in
    (* State at time t *)
    let x0 := get vars (x_start + t - 1) in
    let y0 := get vars (y_start + t - 1) in
    let psi0 := get vars (psi_start + t - 1) in
    let cte0 := get vars (cte_start + t - 1) in
    let epsi0 := get vars (epsi_start + t - 1) in
    let x0_2 := x0 * x0 in
    let x0_3 := x0_2 * x0 in
    (* Actuations at time, t *)
    let delta0 := get vars (delta_start + t - 1) in
    let v0 := get vars (v_start + t - 1) in
    (* Errors at time t *)
    let f0 := get coeffs 0 + get coeffs 1 * x0 + get coeffs 2 * x0_2
              + get coeffs 3 * x0_3 in
    let psides0 := atan (get coeffs 1 + 2 * get coeffs 2 * x0
                         + 3 * get coeffs 3 * x0_2) in
    (* Set up the SS model constraints for time steps [1,N] *)
    let fg := set fg (1 + x_start + t) (x1 - (x0 + v0 * cos psi0 * dt)) in
    let fg := set fg (1 + y_start + t) (y1 - (y0 + v0 * sin psi0 * dt)) in
    let fg := set fg (1 + psi_start + t) (psi1 - (psi0 + v0 * tan delta0 * dt / lr)) in
    let fg := set fg (1 + cte_start + t) (cte1 - ((f0 - y0) + (v0 * sin epsi0 * dt))) in
    set fg (1 + epsi_start + t) (epsi1 - ((psi0 - psides0) + v0 * delta0 / lr * dt))) fg.

(** [CppAD::ipopt::solve_result<Dvector>]: the members [Solve] reads.
    The enumeration [status_type] is the one of CppAD. *)
Inductive status_type : Set :=
| not_defined
| success
| maxiter_exceeded
| stop_at_tiny_step
| stop_at_acceptable_point
| local_infeasibility
| user_requested_stop
| feasible_point_found
| diverging_iterates
| restoration_failure
| error_in_step_computation
| invalid_number_detected
| too_few_degrees_of_freedom
| internal_error
| unknown.

Definition status_eqb (a b : status_type) : bool :=
  match a, b with
  | not_defined, not_defined | success, success
  | maxiter_exceeded, maxiter_exceeded | stop_at_tiny_step, stop_at_tiny_step
  | stop_at_acceptable_point, stop_at_acceptable_point
  | local_infeasibility, local_infeasibility
  | user_requested_stop, user_requested_stop
  | feasible_point_found, feasible_point_found
  | diverging_iterates, diverging_iterates
  | restoration_failure, restoration_failure
  | error_in_step_computation, error_in_step_computation
  | invalid_number_detected, invalid_number_detected
  | too_few_degrees_of_freedom, too_few_degrees_of_freedom
  | internal_error, internal_error | unknown, unknown => true
  | _, _ => false
  end.

Record solve_result : Type := mk_solve_result {
  status : status_type;
  x : list R
}.

(** The nonlinear program handed to the solver: the arguments of
    [CppAD::ipopt::solve], the [solution] out-parameter apart. *)
Record problem : Type := mk_problem {
  options : String.string;
  xi : list R;
  xl : list R;
  xu : list R;
  gl : list R;
  gu : list R;
  fg_eval : list R -> list R -> list R
}.

(** class MPC: the predicted trajectory kept between calls. *)
Record t : Type := mk { x_vals : list R; y_vals : list R }.

(** vector<double> MPC::Solve(Eigen::VectorXd state, Eigen::VectorXd coeffs),
    first part: the statements before the call of the solver, which
    assemble its arguments. *)
Definition Solve_problem (state coeffs : list R) : problem :=
  let x := get state 0 in
  let y := get state 1 in
  let psi := get state 2 in
  let cte := get state 3 in
  let epsi := get state 4 in
  (* Set number of model variables *)
  let n_vars := (N * 5 + (N - 1) * 2)%nat in
  (* Set the number of constraints *)
  let n_constraints := (N * 5)%nat in
  (* Initialize model variables to zero *)
  let vars := for_loop 0 n_vars (fun i vars => set vars i 0) (repeat 0 n_vars) in
  (* Set the initial state *)
  let vars := set vars x_start x in
  let vars := set vars y_start y in
  let vars := set vars psi_start psi in
  let vars := set vars cte_start cte in
  let vars := set vars epsi_start epsi in
  let vars_lowerbound := repeat 0 n_vars in
  let vars_upperbound := repeat 0 n_vars in
  (* Define positive and negative infinities *)
  let '(vars_lowerbound, vars_upperbound) :=
    for_loop 0 delta_start (fun i '(lo, up) =>
      (set lo i (- 1.0e19), set up i 1.0e19)) (vars_lowerbound, vars_upperbound) in
  (* Steering angle upper and lower limits [rad] *)
  let '(vars_lowerbound, vars_upperbound) :=
    for_loop delta_start n_vars (fun i '(lo, up) =>
      (set lo i (- dir_bound), set up i dir_bound)) (vars_lowerbound, vars_upperbound) in
  (* Velocity upper and lower limits [m/s] *)
  let '(vars_lowerbound, vars_upperbound) :=
    for_loop v_start delta_start (fun i '(lo, up) =>
      (set lo i (- vel_bound), set up i vel_bound)) (vars_lowerbound, vars_upperbound) in
  (* Lower and upper bounds for hard constraints (0 except for initial states) *)
  let constraints_lowerbound := repeat 0 n_constraints in
  let constraints_upperbound := repeat 0 n_constraints in
  let '(constraints_lowerbound, constraints_upperbound) :=
    for_loop 0 n_constraints (fun i '(lo, up) =>
      (set lo i 0.0, set up i 0.0)) (constraints_lowerbound, constraints_upperbound) in
  (* Initial states constrained to last measured value *)
  let constraints_lowerbound := set constraints_lowerbound x_start x in
  let constraints_lowerbound := set constraints_lowerbound y_start y in
  let constraints_lowerbound := set constraints_lowerbound psi_start psi in
  let constraints_lowerbound := set constraints_lowerbound cte_start cte in
  let constraints_lowerbound := set constraints_lowerbound epsi_start epsi in
  let constraints_upperbound := set constraints_upperbound x_start x in
  let constraints_upperbound := set constraints_upperbound y_start y in
  let constraints_upperbound := set constraints_upperbound psi_start psi in
  let constraints_upperbound := set constraints_upperbound cte_start cte in
  let constraints_upperbound := set constraints_upperbound epsi_start epsi in
  (* Object that computes objective and constraints *)
  let fg_eval := FG_eval coeffs in
  (* options for IPOPT solver *)
  let options := String.EmptyString in
  let options := String.append options Options.print_level in
  let options := String.append options Options.sparse in
  let options := String.append options Options.max_cpu_time in
  mk_problem options vars vars_lowerbound vars_upperbound
             constraints_lowerbound constraints_upperbound fg_eval.

Section Solver.

(** The external solver [CppAD::ipopt::solve], an opaque capability:
    from the assembled problem to the [solution] it fills in. *)
Variable ipopt_solve : problem -> solve_result.

(** MPC::Solve, whole: the call of the solver and the statements after
    it. *)
Definition Solve (state coeffs : list R) (this : t) : list R * t :=
  let ok := true in
  (* solve the problem *)
  let solution := ipopt_solve (Solve_problem state coeffs) in
  (* Check some of the solution values *)
  let ok := ok && status_eqb (status solution) success in
  let result := [] in
  let result := result ++ [get (MPC.x solution) delta_start] in
  let result := result ++ [get (MPC.x solution) v_start] in
  (* Clear the MPC x & y value vectors *)
  let this := mk [] [] in
  (* push back the predicted x,y values into the attributes *)
  let this := for_loop 1 N (fun i this =>
    mk (x_vals this ++ [get (MPC.x solution) (x_start + i)])
       (y_vals this ++ [get (MPC.x solution) (y_start + i)])) this in
  (result, this).

End Solver.

End MPC.

(** ** waypoint.cpp *)

Module Waypoint.

Definition DELTA_DIRECTION : R := 0.01.
Definition DELTA_SPEED : R := 0.25.
Definition EPSILON_RADIUS : R := 0.25.
Definition EPSILON_ANGLE : R := 0.1.

(** [M_PI] of <cmath>, idealised. *)
Definition M_PI : R := PI.

(** [geometry_msgs::Point] *)
Module Point.
Record t : Type := mk { x : R; y : R; z : R }.
End Point.

(** What the node publishes: a [std_msgs::String] on /Reached, the speed
    and the steering angle of an [AckermannDriveStamped] on /ackermann_cmd. *)
Inductive message : Type :=
| Reached (data : String.string)
| ackermann_cmd (speed steering_angle : R).

Module Text.
Import Stdlib.Strings.String.
Definition TRUE : string := "TRUE"%string.
End Text.

(** The global variables the callbacks and [drive] read and write. *)
Record globals : Type := mk {
  starl_flag : bool;
  isDriving : bool;
  gotWP : bool;
  speed : R;
  direction : R;
  prev_loc : Point.t;
  curr_loc : Point.t;
  deca_position : Point.t;
  vicon_position : Point.t;
  current_waypoint : Point.t
}.

(** The variables as [main] leaves them before it starts the thread of
    [drive]: the initialisers of the globals and the assignments of [main]. *)
Definition initial : globals :=
  mk false false false 0 0 (Point.mk 0 0 0) (Point.mk 0 0 0)
     (Point.mk 0 0 0) (Point.mk 0 0 0) (Point.mk 0 0 0).

(** void getDecaPosition(const geometry_msgs::Point& point) *)
Definition getDecaPosition (point : Point.t) (g : globals) : globals :=
  mk (starl_flag g) (isDriving g) (gotWP g) (speed g) (direction g) (prev_loc g)
     (curr_loc g) point (vicon_position g) (current_waypoint g).

(** void getViconPosition(const geometry_msgs::PoseStamped& pose), on
    [pose.pose.position] *)
Definition getViconPosition (position : Point.t) (g : globals) : globals :=
  mk (starl_flag g) (isDriving g) (gotWP g) (speed g) (direction g) (prev_loc g)
     (curr_loc g) (deca_position g) position (current_waypoint g).

(** void getWP(const geometry_msgs::PointStamped& stamped_point), on
    [stamped_point.point] *)
Definition getWP (point : Point.t) (g : globals) : globals :=
  let current_waypoint := Point.mk (Point.x point) (Point.y point) (Point.z point) in
  let gotWP := true in
  let starl_flag := true in
  let isDriving := if negb (isDriving g) then true else isDriving g in
  mk starl_flag isDriving gotWP (speed g) (direction g) (prev_loc g)
     (curr_loc g) (deca_position g) (vicon_position g) current_waypoint.

(** [atan2(y, x)] of <cmath>, idealised: the angle of the point (x, y),
    in (-pi, pi], and 0 at the origin. *)
Definition atan2 (y x : R) : R :=
  if Rlt_dec 0 x then atan (y / x)
  else if Rlt_dec x 0 then
    if Rle_dec 0 y then atan (y / x) + PI else atan (y / x) - PI
  else if Rlt_dec 0 y then PI / 2
  else if Rlt_dec y 0 then - (PI / 2)
  else 0.

(** double get_angle_between_3_pts(Point center, Point waypoint, Point next_pos) *)
Definition get_angle_between_3_pts (center waypoint next_pos : Point.t) : R :=
  let n_waypoint_0 := Point.x waypoint - Point.x center in
  let n_waypoint_1 := Point.y waypoint - Point.y center in
  let n_next_pos_0 := Point.x next_pos - Point.x center in
  let n_next_pos_1 := Point.y next_pos - Point.y center in
  atan2 n_waypoint_1 n_waypoint_0 - atan2 n_next_pos_1 n_next_pos_0.

(** [fmin] and [fmax] of <cmath>, idealised. *)
Definition fmin (a b : R) : R := Rmin a b.
Definition fmax (a b : R) : R := Rmax a b.

(** The angle error of a pass of [drive] with a waypoint: the angle between
    the three points, brought back by one turn when it is beyond pi. *)
Definition angle_error (g : globals) : R :=
  let a_error := get_angle_between_3_pts (prev_loc g) (current_waypoint g) (curr_loc g) in
  let a_error := if Rlt_dec M_PI a_error then a_error - 2 * M_PI else a_error in
  let a_error := if Rlt_dec a_error (- M_PI) then a_error + 2 * M_PI else a_error in
  a_error.

(** void drive(), one pass of the body of [while(ros::ok())]: the new
    values of the globals and the messages published, in order.  The pass
    is taken as one step on the values the variables hold; the log line and
    the sleep are left out. *)
Definition drive_pass (g : globals) : globals * list message :=
  let prev_loc := curr_loc g in
  let curr_loc := vicon_position g in
  (* Acknowledge that we reached the desired waypoint *)
  let '(starl_flag, gotWP, speed, direction, published) :=
    if starl_flag g then
      if Rlt_dec (sqrt ((Point.x curr_loc - Point.x (current_waypoint g)) ^ 2
                        + (Point.y curr_loc - Point.y (current_waypoint g)) ^ 2)) 0.3
      then
        (* tell STARL if waypoint is reached *)
        (false, false, 0, 0, [Reached Text.TRUE])
      else (starl_flag g, gotWP g, speed g, direction g, [])
    else (starl_flag g, gotWP g, speed g, direction g, []) in
  let g := mk starl_flag (isDriving g) gotWP speed direction prev_loc curr_loc
              (deca_position g) (vicon_position g) (current_waypoint g) in
  let '(speed, direction) :=
    if Waypoint.gotWP g then
      let a_error := angle_error g in
      let speed := Waypoint.speed g + DELTA_SPEED in
      let direction :=
        if Rlt_dec a_error EPSILON_ANGLE then Waypoint.direction g - DELTA_DIRECTION
        else if Rlt_dec EPSILON_ANGLE a_error then Waypoint.direction g + DELTA_DIRECTION
        else Waypoint.direction g in
      let speed := fmax (fmin speed 2) (- 2) in
      let direction := fmax (fmin direction 0.35) (- 0.35) in
      (speed, direction)
    else (Waypoint.speed g, Waypoint.direction g) in
  let g := mk (Waypoint.starl_flag g) (Waypoint.isDriving g) (Waypoint.gotWP g)
              speed direction (Waypoint.prev_loc g) (Waypoint.curr_loc g)
              (Waypoint.deca_position g) (Waypoint.vicon_position g)
              (Waypoint.current_waypoint g) in
  (g, published ++ [ackermann_cmd speed direction]).

(** What happens in the node: a callback runs or [drive] makes a pass. *)
Inductive event : Type :=
| on_decaPos (point : Point.t)
| on_pose (position : Point.t)
| on_Waypoint (point : Point.t)
| pass.

Definition step (e : event) (g : globals) : globals * list message :=
  match e with
  | on_decaPos point => (getDecaPosition point g, [])
  | on_pose position => (getViconPosition position g, [])
  | on_Waypoint point => (getWP point g, [])
  | pass => drive_pass g
  end.

(** The globals after the events, and everything published meanwhile. *)
Fixpoint run (es : list event) (g : globals) : globals * list message :=
  match es with
  | [] => (g, [])
  | e :: es' =>
      let '(g1, out1) := step e g in
      let '(g2, out2) := run es' g1 in
      (g2, out1 ++ out2)
  end.

End Waypoint.

(** * Vocabulary of the specification *)

(** ** Covariance matrices *)

Definition is_symmetric (M : Eigen.MatrixXf) : Prop :=
  forall i j : nat, Eigen.coeffM M i j = Eigen.coeffM M j i.

(** Positive semidefinite: [x^T * M * x >= 0] for every vector [x]. *)
Definition is_psd (M : Eigen.MatrixXf) : Prop :=
  forall x : list R, Eigen.is_vector STATE_DIM x -> 0 <= Eigen.dot x (Eigen.mat_vec M x).

Definition diag_nonneg (M : Eigen.MatrixXf) : Prop :=
  forall i : nat, 0 <= Eigen.coeffM M i i.

(** A covariance matrix of the estimator: 6x6, symmetric, positive
    semidefinite. *)
Definition is_covariance (M : Eigen.MatrixXf) : Prop :=
  Eigen.is_matrix STATE_DIM STATE_DIM M /\ is_symmetric M /\ is_psd M.

(** The unit vector of direction [i]. *)
Definition unit_vector (i : nat) : list R :=
  map (fun j => if Nat.eqb i j then 1 else 0) (seq 0 STATE_DIM).

(** ** The Kalman update *)

(** Innovation variance [H P H^T + sigma^2]. *)
Definition innovation_variance (H : list R) (P : Eigen.MatrixXf) (sigma : R) : R :=
  Eigen.dot (Eigen.vec_mat H P) H + sigma ^ 2.

(** Kalman gain [K = P H^T / (H P H^T + sigma^2)]. *)
Definition kalman_gain (H : list R) (P : Eigen.MatrixXf) (sigma : R) : list R :=
  map (fun p => p / innovation_variance H P sigma) (Eigen.mat_vec P H).

(** The covariance after the update, [(I - K H) P]. *)
Definition updated_covariance (H : list R) (P : Eigen.MatrixXf) (sigma : R) : Eigen.MatrixXf :=
  Eigen.mat_mul
    (Eigen.mat_sub (Eigen.Identity STATE_DIM) (Eigen.outer (kalman_gain H P sigma) H)) P.

(** The covariance after the prediction, [A P A^T]. *)
Definition predicted_covariance (A P : Eigen.MatrixXf) : Eigen.MatrixXf :=
  Eigen.mat_mul (Eigen.mat_mul A P) (Eigen.transpose A).

(** The estimator's data model: [S] has six components, [P] and [A] are
    6x6. *)
Definition well_formed (t : TDOA.t) : Prop :=
  Eigen.is_vector STATE_DIM (TDOA.S t) /\
  Eigen.is_matrix STATE_DIM STATE_DIM (TDOA.P t) /\
  Eigen.is_matrix STATE_DIM STATE_DIM (TDOA.A t).

(** ** Sequences of estimator operations *)

(** The operations of an estimation cycle that assign the covariance. *)
Inductive operation : Type :=
| Predict
| ScalarUpdate (H : list R) (residual sigma : R).

Definition admissible (op : operation) : Prop :=
  match op with
  | Predict => True
  | ScalarUpdate H _ sigma => Eigen.is_vector STATE_DIM H /\ 0 < sigma
  end.

Definition apply_operation (op : operation) (t : TDOA.t) : result TDOA.t :=
  match op with
  | Predict => Ok (TDOA.stateEstimatorPredict t)
  | ScalarUpdate H residual sigma => TDOA.stateEstimatorScalarUpdate H residual sigma t
  end.

Fixpoint run (ops : list operation) (t : TDOA.t) : result TDOA.t :=
  match ops with
  | [] => Ok t
  | op :: ops' => t' <- apply_operation op t ;; run ops' t'
  end.

(** ** The estimator once constructed *)

Definition anchors_after_init (MAX_NR_ANCHORS : Z) : list (option vec3d_t.t) :=
  Some (vec3d_t.mk 4.628 0.600 1.312) :: Some (vec3d_t.mk 4.628 3.810 1.297)
  :: Some (vec3d_t.mk 0.043 4.210 1.302) :: Some (vec3d_t.mk 0.123 1.673 1.903)
  :: repeat None (Z.to_nat MAX_NR_ANCHORS - 4).

(** The object the constructor builds. *)
Definition constructed (MAX_NR_ANCHORS : Z) : TDOA.t :=
  TDOA.mk 0 6
    [2; 2.6; 0; 0; 0; 0]
    [[100 ^ 2; 0; 0; 0; 0; 0];
     [0; 100 ^ 2; 0; 0; 0; 0];
     [0; 0; 1 ^ 2; 0; 0; 0];
     [0; 0; 0; 0.01 ^ 2; 0; 0];
     [0; 0; 0; 0; 0.01 ^ 2; 0];
     [0; 0; 0; 0; 0; 0.01 ^ 2]]
    [[1; 0; 0; 0.016; 0; 0];
     [0; 1; 0; 0; 0.016; 0];
     [0; 0; 1; 0; 0; 0.016];
     [0; 0; 0; 1; 0; 0];
     [0; 0; 0; 0; 1; 0];
     [0; 0; 0; 0; 0; 1]]
    (anchors_after_init MAX_NR_ANCHORS)
    0.15.

(** ** The range-difference measurement *)

(** Euclidean distance between the position [p] and the anchor at [a]. *)
Definition distance (p a : vec3d_t.t) : R :=
  sqrt ((vec3d_t.x p - vec3d_t.x a) ^ 2 + (vec3d_t.y p - vec3d_t.y a) ^ 2
        + (vec3d_t.z p - vec3d_t.z a) ^ 2).

(** Gradient of [distance p other - distance p ref] with respect to the
    position, in the position columns of a 1x6 row. *)
Definition range_difference_jacobian (p other ref : vec3d_t.t) : list R :=
  [ (vec3d_t.x p - vec3d_t.x other) / distance p other
    - (vec3d_t.x p - vec3d_t.x ref) / distance p ref;
    (vec3d_t.y p - vec3d_t.y other) / distance p other
    - (vec3d_t.y p - vec3d_t.y ref) / distance p ref;
    (vec3d_t.z p - vec3d_t.z other) / distance p other
    - (vec3d_t.z p - vec3d_t.z ref) / distance p ref;
    0; 0; 0 ].

(** ** The controller's horizon and constraints *)

(** The fields of the horizon at step [t] in the flat vector [vars]. *)
Definition x_at (vars : list R) (t : nat) : R := MPC.get vars (MPC.x_start + t).

Definition y_at (vars : list R) (t : nat) : R := MPC.get vars (MPC.y_start + t).

Definition heading_at (vars : list R) (t : nat) : R := MPC.get vars (MPC.psi_start + t).

Definition cte_at (vars : list R) (t : nat) : R := MPC.get vars (MPC.cte_start + t).

Definition heading_error_at (vars : list R) (t : nat) : R :=
  MPC.get vars (MPC.epsi_start + t).

Definition v_at (vars : list R) (t : nat) : R := MPC.get vars (MPC.v_start + t).

Definition steering_at (vars : list R) (t : nat) : R := MPC.get vars (MPC.delta_start + t).

(** The degree-3 reference polynomial and its slope. *)
Definition poly (coeffs : list R) (x : R) : R :=
  MPC.get coeffs 0 + MPC.get coeffs 1 * x + MPC.get coeffs 2 * x ^ 2
  + MPC.get coeffs 3 * x ^ 3.

Definition poly_slope (coeffs : list R) (x : R) : R :=
  MPC.get coeffs 1 + 2 * MPC.get coeffs 2 * x + 3 * MPC.get coeffs 3 * x ^ 2.

(** Sizes of the vectors of the solver interface. *)
Definition n_vars : nat := MPC.N * 5 + (MPC.N - 1) * 2.

Definition n_constraints : nat := MPC.N * 5.

(** The solver keeps the constraint function [g_i = fg[1 + i]] within
    [gl[i], gu[i]]. *)
Definition constraint_holds (p : MPC.problem) (fg vars : list R) (i : nat) : Prop :=
  MPC.get (MPC.gl p) i <= MPC.get (MPC.fg_eval p fg vars) (1 + i) <= MPC.get (MPC.gu p) i.

(** A solver that gives up: it reports that the iteration limit was
    exceeded and leaves 42 in every entry of its solution vector. *)
Definition failed_solver (p : MPC.problem) : MPC.solve_result :=
  MPC.mk_solve_result MPC.maxiter_exceeded (repeat 42 n_vars).

(** ** The transition matrix of the constructor *)

(** Identity with the three position-to-velocity entries equal to 0.016. *)
Definition default_transition : Eigen.MatrixXf :=
  [[1; 0; 0; 0.016; 0; 0];
   [0; 1; 0; 0; 0.016; 0];
   [0; 0; 1; 0; 0; 0.016];
   [0; 0; 0; 1; 0; 0];
   [0; 0; 0; 0; 1; 0];
   [0; 0; 0; 0; 0; 1]].

(** [H M H^T], the variance of the observed quantity under the covariance
    [M]. *)
Definition observed_variance (H : list R) (M : Eigen.MatrixXf) : R :=
  Eigen.dot H (Eigen.mat_vec M H).

(** ** Calls of the estimator's member functions *)

Inductive call : Type :=
| Call_setTransitionMat (transition_mat : Eigen.MatrixXf)
| Call_setPredictionMat (prediction_mat : Eigen.MatrixXf)
| Call_setAncPosition (anc_num : Z) (anc_pos : vec3d_t.t)
| Call_scalarTDOADistUpdate (Ar An : Z) (distanceDiff : R)
| Call_stateEstimatorScalarUpdate (H : list R) (error stdMeasNoise : R)
| Call_stateEstimatorPredict.

Definition do_call (MAX_NR_ANCHORS : Z) (c : call) (t : TDOA.t) : result TDOA.t :=
  match c with
  | Call_setTransitionMat M => Ok (TDOA.setTransitionMat M t)
  | Call_setPredictionMat M => Ok (TDOA.setPredictionMat M t)
  | Call_setAncPosition anc_num anc_pos => TDOA.setAncPosition MAX_NR_ANCHORS anc_num anc_pos t
  | Call_scalarTDOADistUpdate Ar An d => TDOA.scalarTDOADistUpdate Ar An d t
  | Call_stateEstimatorScalarUpdate H e s => TDOA.stateEstimatorScalarUpdate H e s t
  | Call_stateEstimatorPredict => Ok (TDOA.stateEstimatorPredict t)
  end.

Fixpoint do_calls (MAX_NR_ANCHORS : Z) (cs : list call) (t : TDOA.t) : result TDOA.t :=
  match cs with
  | [] => Ok t
  | c :: cs' => t' <- do_call MAX_NR_ANCHORS c t ;; do_calls MAX_NR_ANCHORS cs' t'
  end.

(** A matrix with rows of one length. *)
Definition is_rectangular (M : Eigen.MatrixXf) : Prop :=
  exists r c : nat, Eigen.is_matrix r c M.

(** Arguments a caller may pass: matrices are rectangular, a covariance that
    is passed is symmetric positive semidefinite, an observation row has six
    entries and its noise standard deviation is not zero. *)
Definition sensible (c : call) : Prop :=
  match c with
  | Call_setTransitionMat M => is_rectangular M
  | Call_setPredictionMat M =>
      is_rectangular M /\ (Eigen.is_matrix STATE_DIM STATE_DIM M -> is_covariance M)
  | Call_stateEstimatorScalarUpdate H _ s => Eigen.is_vector STATE_DIM H /\ s <> 0
  | _ => True
  end.

(** The estimator's data model holds: sizes, a symmetric positive
    semidefinite covariance, a noise standard deviation that is not zero. *)
Definition estimator_ok (t : TDOA.t) : Prop :=
  well_formed t /\ TDOA.nr_states t = 6%Z /\ is_covariance (TDOA.P t) /\ TDOA.stdDev t <> 0.

(** ** The controller's cost *)

(** The sum of [f t] for [lo <= t < hi]. *)
Definition sum_over (lo hi : nat) (f : nat -> R) : R :=
  fold_right (fun t acc => f t + acc) 0 (seq lo (hi - lo)).

(** Tracking errors at every step, control effort at every actuation step,
    changes of the controls between consecutive actuation steps. *)
Definition tracking_cost (vars : list R) : R :=
  sum_over 0 MPC.N (fun t => cte_at vars t ^ 2 + heading_error_at vars t ^ 2).
Definition effort_cost (vars : list R) : R :=
  sum_over 0 (MPC.N - 1) (fun t => 200 * steering_at vars t ^ 2 + 50 * v_at vars t ^ 2).
Definition smoothness_cost (vars : list R) : R :=
  sum_over 0 (MPC.N - 2) (fun t =>
    250 * (steering_at vars (t + 1) - steering_at vars t) ^ 2
    + 200 * (v_at vars (t + 1) - v_at vars t) ^ 2).
Definition cost (vars : list R) : R :=
  tracking_cost vars + effort_cost vars + smoothness_cost vars.


(** A vector of variables within the bounds of the problem. *)
Definition within_bounds (p : MPC.problem) (vars : list R) : Prop :=
  forall i : nat, (i < n_vars)%nat ->
    MPC.get (MPC.xl p) i <= MPC.get vars i <= MPC.get (MPC.xu p) i.


(** ** The waypoint follower *)

(** The number of acknowledgements on /Reached among the messages and of
    waypoints among the events. *)
Definition count_Reached (out : list Waypoint.message) : nat :=
  length (filter (fun m => match m with Waypoint.Reached _ => true | _ => false end) out).
Definition count_Waypoint (es : list Waypoint.event) : nat :=
  length (filter (fun e => match e with Waypoint.on_Waypoint _ => true | _ => false end) es).

(** The commands the vehicle accepts: a speed in [0, 2], a steering angle in
    [-0.35, 0.35]. *)
Definition command_within_limits (speed steering_angle : R) : Prop :=
  0 <= speed <= 2 /\ - 0.35 <= steering_angle <= 0.35.

(** ** The estimator in binary32 arithmetic *)

(** A matrix and a vector of [float]s, read as reals. *)
Definition real_vector (v : list Binary32.float) : list R := map Binary32.to_R v.
Definition real_matrix (M : Binary32.Eigen.MatrixXf) : Eigen.MatrixXf :=
  map (map Binary32.to_R) M.

(** The innovation variance as [stateEstimatorScalarUpdate] computes it,
    [H * PHTm + R]. *)
Definition computed_innovation_variance
    (H : list Binary32.float) (P : Binary32.Eigen.MatrixXf) (sigma : Binary32.float)
  : Binary32.float :=
  Binary32.add (Binary32.Eigen.dot H (Binary32.Eigen.mat_vec P H)) (Binary32.mul sigma sigma).

(** The distance to an anchor as [scalarTDOADistUpdate] computes it. *)
Definition computed_distance (p a : Binary32.vec3d_t.t) : Binary32.float :=
  Binary32.sqrtf
    (Binary32.add
       (Binary32.add
          (Binary32.powf2 (Binary32.sub (Binary32.vec3d_t.x p) (Binary32.vec3d_t.x a)))
          (Binary32.powf2 (Binary32.sub (Binary32.vec3d_t.y p) (Binary32.vec3d_t.y a))))
       (Binary32.powf2 (Binary32.sub (Binary32.vec3d_t.z p) (Binary32.vec3d_t.z a)))).

(** The row [h] as [scalarTDOADistUpdate] computes it. *)
Definition computed_jacobian (p other ref : Binary32.vec3d_t.t) : list Binary32.float :=
  let d1 := computed_distance p other in
  let d0 := computed_distance p ref in
  [ Binary32.sub (Binary32.div (Binary32.sub (Binary32.vec3d_t.x p) (Binary32.vec3d_t.x other)) d1)
                 (Binary32.div (Binary32.sub (Binary32.vec3d_t.x p) (Binary32.vec3d_t.x ref)) d0);
    Binary32.sub (Binary32.div (Binary32.sub (Binary32.vec3d_t.y p) (Binary32.vec3d_t.y other)) d1)
                 (Binary32.div (Binary32.sub (Binary32.vec3d_t.y p) (Binary32.vec3d_t.y ref)) d0);
    Binary32.sub (Binary32.div (Binary32.sub (Binary32.vec3d_t.z p) (Binary32.vec3d_t.z other)) d1)
                 (Binary32.div (Binary32.sub (Binary32.vec3d_t.z p) (Binary32.vec3d_t.z ref)) d0);
    Binary32.zero; Binary32.zero; Binary32.zero ].

(** A covariance with correlated x and y positions,
    [[316.125, -21.9375], [-21.9375, 299.453125]] in the x-y block and 0
    elsewhere; all its entries are [float]s. *)
Definition correlated_P : Binary32.Eigen.MatrixXf :=
  let z := Binary32.zero in
  [[Binary32.dyadic 2529 (-3); Binary32.dyadic (-351) (-4); z; z; z; z];
   [Binary32.dyadic (-351) (-4); Binary32.dyadic 19165 (-6); z; z; z; z];
   [z; z; z; z; z; z];
   [z; z; z; z; z; z];
   [z; z; z; z; z; z];
   [z; z; z; z; z; z]].

(** The observation row [(-0.1075f, -1.5501f, 0, 0, 0, 0)]. *)
Definition correlated_H : list Binary32.float :=
  [Binary32.literal_f (-1075) 4; Binary32.literal_f (-15501) 4;
   Binary32.zero; Binary32.zero; Binary32.zero; Binary32.zero].

(** The estimator after construction (with room for 8 anchors) and
    [setPredictionMat(correlated_P)]. *)
Definition correlated_estimator : result Binary32.TDOA.t :=
  t <- Binary32.TDOA.TDOA 8 ;;
  Ok (Binary32.TDOA.setPredictionMat correlated_P t).

(** [1e-30f]: the [float] 10633824 * 2^-123, the nearest to 10^-30. *)
Definition float_1e_30 : Binary32.float := SpecFloat.S754_finite false 10633824 (-123).

(** The estimator after construction (with room for 8 anchors) and
    [setAncPosition(1, 2, 2.6f, 1e-30f)]: anchor 1 is placed 10^-30 above
    the initial position estimate. *)
Definition estimator_near_anchor : result Binary32.TDOA.t :=
  t <- Binary32.TDOA.TDOA 8 ;;
  Binary32.TDOA.setAncPosition_xyz 8 1
    (Binary32.of_int 2) (Binary32.literal_f 26 1) float_1e_30 t.

(** * Properties *)

(** ** Vectors and matrices of the state dimension *)

Lemma vector6_inv (v : list R) :
  Eigen.is_vector STATE_DIM v ->
  exists a0 a1 a2 a3 a4 a5, v = [a0; a1; a2; a3; a4; a5].
Proof.
  unfold Eigen.is_vector, STATE_DIM; intros Hlen.
  do 6 (destruct v as [|? v]; [discriminate Hlen|]).
  destruct v; [|discriminate Hlen].
  do 6 eexists; reflexivity.
Qed.

Lemma matrix6_inv (M : Eigen.MatrixXf) :
  Eigen.is_matrix STATE_DIM STATE_DIM M ->
  exists r0 r1 r2 r3 r4 r5,
    M = [r0; r1; r2; r3; r4; r5] /\
    Eigen.is_vector STATE_DIM r0 /\ Eigen.is_vector STATE_DIM r1 /\
    Eigen.is_vector STATE_DIM r2 /\ Eigen.is_vector STATE_DIM r3 /\
    Eigen.is_vector STATE_DIM r4 /\ Eigen.is_vector STATE_DIM r5.
Proof.
  unfold Eigen.is_matrix, STATE_DIM; intros [Hlen Hrows].
  do 6 (destruct M as [|? M]; [discriminate Hlen|]).
  destruct M; [|discriminate Hlen].
  repeat match goal with
         | H : Forall _ (_ :: _) |- _ => inversion H; subst; clear H
         end.
  do 6 eexists; repeat split; eassumption.
Qed.

(** [explode_vector H] replaces a vector of the state dimension by its six
    coefficients, [explode_matrix H] a square matrix by its 36. *)
Ltac explode_vector H :=
  let a0 := fresh "a" in let a1 := fresh "a" in let a2 := fresh "a" in
  let a3 := fresh "a" in let a4 := fresh "a" in let a5 := fresh "a" in
  let E := fresh "E" in
  destruct (vector6_inv _ H) as (a0 & a1 & a2 & a3 & a4 & a5 & E);
  subst; clear H.

Ltac explode_matrix H :=
  let r0 := fresh "r" in let r1 := fresh "r" in let r2 := fresh "r" in
  let r3 := fresh "r" in let r4 := fresh "r" in let r5 := fresh "r" in
  let E := fresh "E" in
  let H0 := fresh "Hr" in let H1 := fresh "Hr" in let H2 := fresh "Hr" in
  let H3 := fresh "Hr" in let H4 := fresh "Hr" in let H5 := fresh "Hr" in
  destruct (matrix6_inv _ H) as (r0 & r1 & r2 & r3 & r4 & r5 & E & H0 & H1 & H2 & H3 & H4 & H5);
  subst; clear H;
  explode_vector H0; explode_vector H1; explode_vector H2;
  explode_vector H3; explode_vector H4; explode_vector H5.

Ltac list_eq := repeat (f_equal; try ring).

Section LinearAlgebra.

Variables (M M' : Eigen.MatrixXf) (u v : list R).
Hypothesis HM : Eigen.is_matrix STATE_DIM STATE_DIM M.
Hypothesis HM' : Eigen.is_matrix STATE_DIM STATE_DIM M'.
Hypothesis Hu : Eigen.is_vector STATE_DIM u.
Hypothesis Hv : Eigen.is_vector STATE_DIM v.

(** [u * (M * v) = (u * M) * v] *)
Lemma dot_mat_vec_assoc :
  Eigen.dot u (Eigen.mat_vec M v) = Eigen.dot (Eigen.vec_mat u M) v.
Proof.
  explode_matrix HM. explode_vector Hu. explode_vector Hv.
  cbn. ring.
Qed.

(** [(M * M') * v = M * (M' * v)] *)
Lemma mat_mul_vec :
  Eigen.mat_vec (Eigen.mat_mul M M') v = Eigen.mat_vec M (Eigen.mat_vec M' v).
Proof.
  explode_matrix HM. explode_matrix HM'. explode_vector Hv.
  cbn. list_eq.
Qed.

End LinearAlgebra.

Section Shapes.

Variables (M M' : Eigen.MatrixXf) (u v : list R).
Hypothesis HM : Eigen.is_matrix STATE_DIM STATE_DIM M.
Hypothesis HM' : Eigen.is_matrix STATE_DIM STATE_DIM M'.
Hypothesis Hu : Eigen.is_vector STATE_DIM u.
Hypothesis Hv : Eigen.is_vector STATE_DIM v.

Lemma is_matrix_rows (r0 r1 r2 r3 r4 r5 : list R) :
  Eigen.is_vector STATE_DIM r0 -> Eigen.is_vector STATE_DIM r1 ->
  Eigen.is_vector STATE_DIM r2 -> Eigen.is_vector STATE_DIM r3 ->
  Eigen.is_vector STATE_DIM r4 -> Eigen.is_vector STATE_DIM r5 ->
  Eigen.is_matrix STATE_DIM STATE_DIM [r0; r1; r2; r3; r4; r5].
Proof. split; [reflexivity | repeat constructor; assumption]. Qed.

Lemma mat_vec_shape : Eigen.is_vector STATE_DIM (Eigen.mat_vec M v).
Proof.
  unfold Eigen.is_vector, Eigen.mat_vec. rewrite length_map. apply HM.
Qed.

Lemma transpose_shape : Eigen.is_matrix STATE_DIM STATE_DIM (Eigen.transpose M).
Proof. explode_matrix HM. apply is_matrix_rows; reflexivity. Qed.

Lemma mat_mul_shape : Eigen.is_matrix STATE_DIM STATE_DIM (Eigen.mat_mul M M').
Proof.
  explode_matrix HM. explode_matrix HM'. apply is_matrix_rows; reflexivity.
Qed.

Lemma mat_sub_shape : Eigen.is_matrix STATE_DIM STATE_DIM (Eigen.mat_sub M M').
Proof.
  explode_matrix HM. explode_matrix HM'. apply is_matrix_rows; reflexivity.
Qed.

Lemma outer_shape : Eigen.is_matrix STATE_DIM STATE_DIM (Eigen.outer u v).
Proof.
  explode_vector Hu. explode_vector Hv. apply is_matrix_rows; reflexivity.
Qed.

Lemma vec_mat_shape : Eigen.is_vector STATE_DIM (Eigen.vec_mat u M).
Proof. explode_matrix HM. reflexivity. Qed.

Lemma Identity_shape : Eigen.is_matrix STATE_DIM STATE_DIM (Eigen.Identity STATE_DIM).
Proof. apply is_matrix_rows; reflexivity. Qed.

(** [u * M = (M^T * u)^T] *)
Lemma vec_mat_transpose : Eigen.vec_mat u M = Eigen.mat_vec (Eigen.transpose M) u.
Proof. explode_matrix HM. explode_vector Hu. cbn. list_eq. Qed.

(** [(I - u * v) * M = M - u * (v * M)] *)
Lemma rank_one_update :
  Eigen.mat_mul (Eigen.mat_sub (Eigen.Identity STATE_DIM) (Eigen.outer u v)) M
  = Eigen.mat_sub M (Eigen.outer u (Eigen.vec_mat v M)).
Proof.
  explode_matrix HM. explode_vector Hu. explode_vector Hv. cbn. list_eq.
Qed.

(** [u + v * 0 = u] *)
Lemma vec_add_scale_0 : Eigen.vec_add u (Eigen.vec_scale v 0) = u.
Proof. explode_vector Hu. explode_vector Hv. cbn. list_eq. Qed.

End Shapes.

(** ** Covariance matrices *)






(** [use_symmetry Hs] rewrites the lower triangle of an exploded symmetric
    matrix into its upper triangle. *)
Ltac sym_at Hs i j :=
  let E := fresh "E" in
  pose proof (Hs i j) as E; cbn in E; subst.
Ltac use_symmetry Hs :=
  sym_at Hs 0%nat 1%nat; sym_at Hs 0%nat 2%nat; sym_at Hs 0%nat 3%nat;
  sym_at Hs 0%nat 4%nat; sym_at Hs 0%nat 5%nat; sym_at Hs 1%nat 2%nat;
  sym_at Hs 1%nat 3%nat; sym_at Hs 1%nat 4%nat; sym_at Hs 1%nat 5%nat;
  sym_at Hs 2%nat 3%nat; sym_at Hs 2%nat 4%nat; sym_at Hs 2%nat 5%nat;
  sym_at Hs 3%nat 4%nat; sym_at Hs 3%nat 5%nat; sym_at Hs 4%nat 5%nat.

Lemma transpose_fixed_symmetric (M : Eigen.MatrixXf) :
  Eigen.is_matrix STATE_DIM STATE_DIM M -> Eigen.transpose M = M -> is_symmetric M.
Proof.
  intros HM Ht. explode_matrix HM. cbn in Ht.
  injection Ht as; subst.
  intros i j. unfold Eigen.coeffM.
  destruct i as [|[|[|[|[|[|[|i]]]]]]]; destruct j as [|[|[|[|[|[|[|j]]]]]]];
    reflexivity.
Qed.

Lemma symmetric_transpose (M : Eigen.MatrixXf) :
  Eigen.is_matrix STATE_DIM STATE_DIM M -> is_symmetric M -> Eigen.transpose M = M.
Proof.
  intros HM Hs. explode_matrix HM. use_symmetry Hs. reflexivity.
Qed.

Section Symmetric.

Variables (M : Eigen.MatrixXf) (u v : list R).
Hypothesis HM : Eigen.is_matrix STATE_DIM STATE_DIM M.
Hypothesis Hs : is_symmetric M.
Hypothesis Hu : Eigen.is_vector STATE_DIM u.
Hypothesis Hv : Eigen.is_vector STATE_DIM v.

(** [u * M = (M * u)^T] when [M] is symmetric. *)
Lemma vec_mat_symmetric : Eigen.vec_mat u M = Eigen.mat_vec M u.
Proof.
  explode_matrix HM. explode_vector Hu. use_symmetry Hs. cbn. list_eq.
Qed.

(** [M - (u * a) * u^T] is symmetric. *)
Lemma rank_one_symmetric (a : R) :
  is_symmetric (Eigen.mat_sub M (Eigen.outer (Eigen.vec_scale u a) u)).
Proof.
  apply transpose_fixed_symmetric.
  - apply mat_sub_shape; [assumption|].
    apply outer_shape; [|assumption].
    unfold Eigen.is_vector, Eigen.vec_scale. rewrite length_map. exact Hu.
  - explode_matrix HM. explode_vector Hu. use_symmetry Hs. cbn. list_eq.
Qed.

(** The quadratic form along a line: [(u + t v)^T M (u + t v)]. *)
Lemma quadratic_form_line (t : R) :
  Eigen.dot (Eigen.vec_add u (Eigen.vec_scale v t))
            (Eigen.mat_vec M (Eigen.vec_add u (Eigen.vec_scale v t)))
  = Eigen.dot u (Eigen.mat_vec M u)
    + 2 * Eigen.dot u (Eigen.mat_vec M v) * t
    + Eigen.dot v (Eigen.mat_vec M v) * t ^ 2.
Proof.
  explode_matrix HM. explode_vector Hu. explode_vector Hv. use_symmetry Hs.
  cbn. ring.
Qed.

End Symmetric.

(** A quadratic polynomial that is nowhere negative has a non-positive
    discriminant. *)
Lemma quadratic_nonneg_discriminant (a b c : R) :
  (forall t : R, 0 <= a + 2 * b * t + c * t ^ 2) -> 0 <= c -> b ^ 2 <= a * c.
Proof.
  intros Hq Hc. destruct (Req_dec c 0) as [Hc0 | Hc0].
  - subst c. destruct (Req_dec b 0) as [Hb0 | Hb0].
    + subst b. lra.
    + exfalso. specialize (Hq (- (a + 1) / (2 * b))).
      replace (a + 2 * b * (- (a + 1) / (2 * b)) + 0 * (- (a + 1) / (2 * b)) ^ 2)
        with (- 1) in Hq by (field; assumption).
      lra.
  - assert (Hpos : 0 < c) by lra.
    specialize (Hq (- b / c)).
    replace (a + 2 * b * (- b / c) + c * (- b / c) ^ 2)
      with ((a * c - b ^ 2) / c) in Hq by (field; assumption).
    assert (Hnum : 0 <= (a * c - b ^ 2) / c * c) by (apply Rmult_le_pos; lra).
    replace ((a * c - b ^ 2) / c * c) with (a * c - b ^ 2) in Hnum by (field; assumption).
    lra.
Qed.

Lemma vec_div_nonzero (v : list R) (a : R) :
  a <> 0 -> Eigen.vec_div v a = Ok (Eigen.vec_scale v (/ a)).
Proof.
  intros Ha. unfold Eigen.vec_div. destruct (Req_dec_T a 0) as [E | _]; [contradiction|].
  reflexivity.
Qed.

Lemma vec_div_zero (v : list R) : Eigen.vec_div v 0 = Fault DivisionByZero.
Proof.
  unfold Eigen.vec_div. destruct (Req_dec_T 0 0) as [_ | N]; [reflexivity | contradiction].
Qed.

Lemma vec_scale_shape (v : list R) (a : R) :
  Eigen.is_vector STATE_DIM v -> Eigen.is_vector STATE_DIM (Eigen.vec_scale v a).
Proof. unfold Eigen.is_vector, Eigen.vec_scale. rewrite length_map. trivial. Qed.

Lemma vec_add_shape (u v : list R) :
  Eigen.is_vector STATE_DIM u -> Eigen.is_vector STATE_DIM v ->
  Eigen.is_vector STATE_DIM (Eigen.vec_add u v).
Proof. intros Hu Hv. explode_vector Hu. explode_vector Hv. reflexivity. Qed.

Lemma unit_vector_shape (i : nat) : Eigen.is_vector STATE_DIM (unit_vector i).
Proof. unfold Eigen.is_vector, unit_vector. rewrite length_map, length_seq. reflexivity. Qed.

Section PositiveSemidefinite.

Variables (M : Eigen.MatrixXf).
Hypothesis HM : is_covariance M.

Lemma psd_cauchy_schwarz (u v : list R) :
  Eigen.is_vector STATE_DIM u -> Eigen.is_vector STATE_DIM v ->
  Eigen.dot u (Eigen.mat_vec M v) ^ 2
  <= Eigen.dot u (Eigen.mat_vec M u) * Eigen.dot v (Eigen.mat_vec M v).
Proof.
  intros Hu Hv. destruct HM as (Hshape & Hsym & Hpsd).
  apply quadratic_nonneg_discriminant.
  - intros t. rewrite <- (quadratic_form_line M u v Hshape Hsym Hu Hv t).
    apply Hpsd. apply vec_add_shape; [assumption|]. apply vec_scale_shape, Hv.
  - apply Hpsd, Hv.
Qed.

(** The diagonal entry [M(i, i)] is the quadratic form at the unit
    vector of direction [i]. *)
Lemma diag_quadratic_form (i : nat) :
  Eigen.coeffM M i i = Eigen.dot (unit_vector i) (Eigen.mat_vec M (unit_vector i)).
Proof.
  destruct HM as (Hshape & _ & _). explode_matrix Hshape.
  destruct i as [|[|[|[|[|[|i]]]]]]; cbn; ring_simplify; try reflexivity.
  destruct i; reflexivity.
Qed.

Lemma psd_diag_nonneg : diag_nonneg M.
Proof.
  intros i. rewrite diag_quadratic_form. apply HM, unit_vector_shape.
Qed.

End PositiveSemidefinite.

Section QuadraticForms.

Variables (M : Eigen.MatrixXf) (k g x : list R).
Hypothesis HM : Eigen.is_matrix STATE_DIM STATE_DIM M.
Hypothesis Hk : Eigen.is_vector STATE_DIM k.
Hypothesis Hg : Eigen.is_vector STATE_DIM g.
Hypothesis Hx : Eigen.is_vector STATE_DIM x.

Lemma dot_comm : Eigen.dot k g = Eigen.dot g k.
Proof. explode_vector Hk. explode_vector Hg. cbn. ring. Qed.

Lemma dot_vec_scale (a : R) : Eigen.dot x (Eigen.vec_scale k a) = Eigen.dot x k * a.
Proof. explode_vector Hk. explode_vector Hx. cbn. ring. Qed.

(** [x^T (M - k g) x = x^T M x - (x^T k) (g x)] *)
Lemma quadratic_form_rank_one :
  Eigen.dot x (Eigen.mat_vec (Eigen.mat_sub M (Eigen.outer k g)) x)
  = Eigen.dot x (Eigen.mat_vec M x) - Eigen.dot x k * Eigen.dot g x.
Proof.
  explode_matrix HM. explode_vector Hk. explode_vector Hg. explode_vector Hx.
  cbn. ring.
Qed.

(** [x^T M y = (M^T x)^T y] *)
Lemma dot_mat_vec_transpose :
  Eigen.dot x (Eigen.mat_vec M k) = Eigen.dot (Eigen.mat_vec (Eigen.transpose M) x) k.
Proof.
  explode_matrix HM. explode_vector Hk. explode_vector Hx. cbn. ring.
Qed.

End QuadraticForms.

(** ** The Kalman update *)




Lemma innovation_variance_code (H : list R) (P : Eigen.MatrixXf) (sigma : R) :
  Eigen.is_vector STATE_DIM H -> Eigen.is_matrix STATE_DIM STATE_DIM P ->
  Eigen.dot H (Eigen.mat_vec P H) + sigma * sigma = innovation_variance H P sigma.
Proof.
  intros HH HP. unfold innovation_variance.
  rewrite (dot_mat_vec_assoc P H H HP HH HH). ring.
Qed.

Lemma innovation_variance_pos (H : list R) (P : Eigen.MatrixXf) (sigma : R) :
  Eigen.is_vector STATE_DIM H -> Eigen.is_matrix STATE_DIM STATE_DIM P ->
  is_psd P -> sigma <> 0 -> 0 < innovation_variance H P sigma.
Proof.
  intros HH HP Hpsd Hsigma. rewrite <- innovation_variance_code by assumption.
  specialize (Hpsd H HH). nra.
Qed.

(** The update returns exactly when the innovation variance is not zero, and
    then assigns [S] and [P] as the specification says. *)
Lemma stateEstimatorScalarUpdate_nonzero (H : list R) (r sigma : R) (t : TDOA.t) :
  Eigen.is_vector STATE_DIM H -> Eigen.is_matrix STATE_DIM STATE_DIM (TDOA.P t) ->
  innovation_variance H (TDOA.P t) sigma <> 0 ->
  TDOA.stateEstimatorScalarUpdate H r sigma t =
  Ok (TDOA.mk (TDOA.tdoaCount t) (TDOA.nr_states t)
        (Eigen.vec_add (TDOA.S t) (Eigen.vec_scale (kalman_gain H (TDOA.P t) sigma) r))
        (updated_covariance H (TDOA.P t) sigma)
        (TDOA.A t) (TDOA.anchorPosition t) (TDOA.stdDev t)).
Proof.
  intros HH HP Hs. unfold TDOA.stateEstimatorScalarUpdate, kalman_gain.
  rewrite innovation_variance_code by assumption.
  unfold Eigen.vec_div. destruct (Req_dec_T _ 0) as [E | _]; [contradiction|].
  reflexivity.
Qed.

Lemma stateEstimatorScalarUpdate_zero (H : list R) (r sigma : R) (t : TDOA.t) :
  Eigen.is_vector STATE_DIM H -> Eigen.is_matrix STATE_DIM STATE_DIM (TDOA.P t) ->
  innovation_variance H (TDOA.P t) sigma = 0 ->
  TDOA.stateEstimatorScalarUpdate H r sigma t = Fault DivisionByZero.
Proof.
  intros HH HP Hs. unfold TDOA.stateEstimatorScalarUpdate.
  rewrite innovation_variance_code, Hs by assumption.
  rewrite vec_div_zero. reflexivity.
Qed.

Lemma kalman_gain_shape (H : list R) (P : Eigen.MatrixXf) (sigma : R) :
  Eigen.is_matrix STATE_DIM STATE_DIM P ->
  Eigen.is_vector STATE_DIM (kalman_gain H P sigma).
Proof.
  intros HP. unfold kalman_gain, Eigen.is_vector. rewrite length_map.
  apply mat_vec_shape, HP.
Qed.

(** On a symmetric covariance the updated covariance is
    [P - (P H^T) (P H^T)^T / s]. *)
Lemma covariance_update_symmetric_form (H : list R) (P : Eigen.MatrixXf) (sigma : R) :
  Eigen.is_vector STATE_DIM H -> Eigen.is_matrix STATE_DIM STATE_DIM P ->
  is_symmetric P ->
  updated_covariance H P sigma
  = Eigen.mat_sub P
      (Eigen.outer (Eigen.vec_scale (Eigen.mat_vec P H) (/ innovation_variance H P sigma))
                   (Eigen.mat_vec P H)).
Proof.
  intros HH HP Hsym. unfold updated_covariance.
  rewrite rank_one_update by (try assumption; apply kalman_gain_shape, HP).
  rewrite vec_mat_symmetric by assumption.
  reflexivity.
Qed.

Lemma rank_one_diag (M : Eigen.MatrixXf) (u : list R) (a : R) (i : nat) :
  Eigen.is_matrix STATE_DIM STATE_DIM M -> Eigen.is_vector STATE_DIM u ->
  Eigen.coeffM (Eigen.mat_sub M (Eigen.outer (Eigen.vec_scale u a) u)) i i
  = Eigen.coeffM M i i - a * Eigen.coeff u i ^ 2.
Proof.
  intros HM Hu. explode_matrix HM. explode_vector Hu.
  destruct i as [|[|[|[|[|[|[|i]]]]]]]; cbn; ring.
Qed.

Section CovarianceUpdate.

Variables (H : list R) (P : Eigen.MatrixXf) (sigma : R).
Hypothesis HH : Eigen.is_vector STATE_DIM H.
Hypothesis HP : is_covariance P.
Hypothesis Hpos : 0 < innovation_variance H P sigma.

Lemma covariance_update_shape :
  Eigen.is_matrix STATE_DIM STATE_DIM (updated_covariance H P sigma).
Proof.
  destruct HP as (Hshape & _ & _). apply mat_mul_shape; [|assumption].
  apply mat_sub_shape; [apply Identity_shape|].
  apply outer_shape; [apply kalman_gain_shape|]; assumption.
Qed.

Lemma covariance_update_symmetric : is_symmetric (updated_covariance H P sigma).
Proof.
  destruct HP as (Hshape & Hsym & _).
  rewrite covariance_update_symmetric_form by assumption.
  apply rank_one_symmetric; [assumption .. | apply mat_vec_shape; assumption].
Qed.

Lemma covariance_update_diag (i : nat) :
  Eigen.coeffM (updated_covariance H P sigma) i i
  = Eigen.coeffM P i i
    - Eigen.coeff (Eigen.mat_vec P H) i ^ 2 / innovation_variance H P sigma.
Proof.
  destruct HP as (Hshape & Hsym & _).
  rewrite covariance_update_symmetric_form by assumption.
  rewrite rank_one_diag by (try assumption; apply mat_vec_shape; assumption).
  unfold Rdiv. ring.
Qed.

Lemma covariance_update_psd : is_psd (updated_covariance H P sigma).
Proof.
  pose proof HP as (Hshape & Hsym & Hpsd). intros x Hx.
  rewrite covariance_update_symmetric_form by assumption.
  assert (HPH : Eigen.is_vector STATE_DIM (Eigen.mat_vec P H))
    by (apply mat_vec_shape; assumption).
  rewrite quadratic_form_rank_one
    by (try assumption; apply vec_scale_shape; assumption).
  rewrite dot_vec_scale by assumption.
  rewrite (dot_comm (Eigen.mat_vec P H) x) by assumption.
  pose proof (psd_cauchy_schwarz P HP x H Hx HH) as Hcs.
  pose proof (Hpsd x Hx) as Hqx. pose proof (Hpsd H HH) as HqH.
  set (b := Eigen.dot x (Eigen.mat_vec P H)) in *.
  set (q := Eigen.dot x (Eigen.mat_vec P x)) in *.
  set (s := innovation_variance H P sigma) in *.
  assert (Hs : Eigen.dot H (Eigen.mat_vec P H) <= s).
  { unfold s. rewrite <- innovation_variance_code by assumption. nra. }
  assert (Hb : b ^ 2 <= q * s) by nra.
  replace (q - b * / s * b) with ((q * s - b ^ 2) / s) by (field; lra).
  apply Rmult_le_pos; [lra|]. left. apply Rinv_0_lt_compat. exact Hpos.
Qed.

Lemma covariance_update_covariance : is_covariance (updated_covariance H P sigma).
Proof.
  split; [apply covariance_update_shape|].
  split; [apply covariance_update_symmetric | apply covariance_update_psd].
Qed.

End CovarianceUpdate.

Section CovariancePredict.

Variables (A P : Eigen.MatrixXf).
Hypothesis HA : Eigen.is_matrix STATE_DIM STATE_DIM A.
Hypothesis HP : is_covariance P.

Lemma covariance_predict_shape :
  Eigen.is_matrix STATE_DIM STATE_DIM (predicted_covariance A P).
Proof.
  destruct HP as (Hshape & _ & _).
  apply mat_mul_shape; [apply mat_mul_shape; assumption | apply transpose_shape, HA].
Qed.

Lemma covariance_predict_symmetric : is_symmetric (predicted_covariance A P).
Proof.
  apply transpose_fixed_symmetric; [apply covariance_predict_shape|].
  destruct HP as (Hshape & Hsym & _). unfold predicted_covariance.
  explode_matrix HA. explode_matrix Hshape. use_symmetry Hsym.
  cbn. list_eq.
Qed.

Lemma covariance_predict_psd : is_psd (predicted_covariance A P).
Proof.
  destruct HP as (Hshape & Hsym & Hpsd). intros x Hx. unfold predicted_covariance.
  assert (HAt : Eigen.is_matrix STATE_DIM STATE_DIM (Eigen.transpose A))
    by (apply transpose_shape, HA).
  assert (Hy : Eigen.is_vector STATE_DIM (Eigen.mat_vec (Eigen.transpose A) x))
    by (apply mat_vec_shape; assumption).
  rewrite mat_mul_vec by (try assumption; apply mat_mul_shape; assumption).
  rewrite mat_mul_vec by assumption.
  rewrite dot_mat_vec_transpose
    by (try assumption; apply mat_vec_shape; assumption).
  apply Hpsd, Hy.
Qed.

Lemma covariance_predict_covariance : is_covariance (predicted_covariance A P).
Proof.
  split; [apply covariance_predict_shape|].
  split; [apply covariance_predict_symmetric | apply covariance_predict_psd].
Qed.

End CovariancePredict.

(** ** Arrays and the anchor table *)

Lemma length_store {T : Type} (l : list T) (i : nat) (v : T) :
  length (store l i v) = length l.
Proof.
  revert i; induction l as [|w l IH]; intros [|i]; cbn; try reflexivity.
  f_equal. apply IH.
Qed.

Lemma nth_store_eq {T : Type} (l : list T) (i : nat) (v d : T) :
  (i < length l)%nat -> nth i (store l i v) d = v.
Proof.
  revert i; induction l as [|w l IH]; intros [|i] Hi; cbn in *; try lia.
  - reflexivity.
  - apply IH. lia.
Qed.

Lemma nth_store_neq {T : Type} (l : list T) (i j : nat) (v d : T) :
  i <> j -> nth i (store l j v) d = nth i l d.
Proof.
  revert i j; induction l as [|w l IH]; intros [|i] [|j] Hij; cbn; try reflexivity.
  - contradiction.
  - apply IH. congruence.
Qed.

Lemma nth_error_store_eq {T : Type} (l : list T) (i : nat) (v : T) :
  (i < length l)%nat -> nth_error (store l i v) i = Some v.
Proof.
  revert i; induction l as [|w l IH]; intros [|i] Hi; cbn in *; try lia.
  - reflexivity.
  - apply IH. lia.
Qed.

Lemma nth_error_store_neq {T : Type} (l : list T) (i j : nat) (v : T) :
  i <> j -> nth_error (store l j v) i = nth_error l i.
Proof.
  revert i j; induction l as [|w l IH]; intros [|i] [|j] Hij; cbn; try reflexivity.
  - contradiction.
  - apply IH. congruence.
Qed.

Lemma anchor_store_inside (arr : list (option vec3d_t.t)) (i : Z) (pos : vec3d_t.t) :
  (0 <= i < Z.of_nat (length arr))%Z ->
  TDOA.anchor_store arr i pos = Ok (store arr (Z.to_nat i) (Some pos)).
Proof.
  intros Hi. unfold TDOA.anchor_store.
  replace (0 <=? i)%Z with true by (symmetry; apply Z.leb_le; lia).
  replace (i <? Z.of_nat (length arr))%Z with true by (symmetry; apply Z.ltb_lt; lia).
  reflexivity.
Qed.

Lemma anchor_store_outside (arr : list (option vec3d_t.t)) (i : Z) (pos : vec3d_t.t) :
  (i < 0 \/ Z.of_nat (length arr) <= i)%Z ->
  TDOA.anchor_store arr i pos = Fault OutOfBounds.
Proof.
  intros Hi. unfold TDOA.anchor_store.
  destruct (0 <=? i)%Z eqn:E0; [|reflexivity].
  replace (i <? Z.of_nat (length arr))%Z with false; [reflexivity|].
  symmetry. apply Z.ltb_ge. apply Z.leb_le in E0. lia.
Qed.

(** ** The estimator once constructed *)


Lemma initAnchorPos_decl (MAX_NR_ANCHORS : Z) :
  (4 <= MAX_NR_ANCHORS)%Z ->
  TDOA.initAnchorPos (TDOA.anchorPosition_decl MAX_NR_ANCHORS)
  = Ok (anchors_after_init MAX_NR_ANCHORS).
Proof.
  intros Hmax. unfold TDOA.initAnchorPos, TDOA.anchorPosition_decl.
  rewrite anchor_store_inside by (rewrite repeat_length; lia). cbn [bind].
  rewrite anchor_store_inside by (rewrite length_store, repeat_length; lia). cbn [bind].
  rewrite anchor_store_inside by (rewrite !length_store, repeat_length; lia). cbn [bind].
  rewrite anchor_store_inside by (rewrite !length_store, repeat_length; lia).
  unfold anchors_after_init.
  destruct (Z.to_nat MAX_NR_ANCHORS) as [|[|[|[|n]]]] eqn:E; try lia.
  replace (S (S (S (S n))) - 4)%nat with n by lia.
  reflexivity.
Qed.


Lemma TDOA_constructed (MAX_NR_ANCHORS : Z) :
  (4 <= MAX_NR_ANCHORS)%Z ->
  TDOA.TDOA MAX_NR_ANCHORS = Ok (constructed MAX_NR_ANCHORS).
Proof.
  intros Hmax. unfold TDOA.TDOA. rewrite initAnchorPos_decl by assumption.
  reflexivity.
Qed.

Lemma constructed_well_formed (MAX_NR_ANCHORS : Z) : well_formed (constructed MAX_NR_ANCHORS).
Proof.
  split; [reflexivity|]. split; apply is_matrix_rows; reflexivity.
Qed.

Lemma diagonal_covariance (d0 d1 d2 d3 d4 d5 : R) :
  0 <= d0 -> 0 <= d1 -> 0 <= d2 -> 0 <= d3 -> 0 <= d4 -> 0 <= d5 ->
  is_covariance [[d0; 0; 0; 0; 0; 0]; [0; d1; 0; 0; 0; 0]; [0; 0; d2; 0; 0; 0];
                 [0; 0; 0; d3; 0; 0]; [0; 0; 0; 0; d4; 0]; [0; 0; 0; 0; 0; d5]].
Proof.
  intros H0 H1 H2 H3 H4 H5. split; [apply is_matrix_rows; reflexivity|]. split.
  - apply transpose_fixed_symmetric; [apply is_matrix_rows; reflexivity | reflexivity].
  - intros x Hx. explode_vector Hx. cbn. nra.
Qed.

Lemma constructed_covariance (MAX_NR_ANCHORS : Z) :
  is_covariance (TDOA.P (constructed MAX_NR_ANCHORS)).
Proof. apply diagonal_covariance; lra. Qed.

(** ** The range-difference measurement *)



Lemma fdiv_nonzero (a b : R) : b <> 0 -> fdiv a b = Ok (a / b).
Proof.
  intros Hb. unfold fdiv. destruct (Req_dec_T b 0); [contradiction | reflexivity].
Qed.

Lemma fdiv_zero (a : R) : fdiv a 0 = Fault DivisionByZero.
Proof.
  unfold fdiv. destruct (Req_dec_T 0 0) as [_ | N]; [reflexivity | contradiction].
Qed.

Lemma distance_self (p : vec3d_t.t) : distance p p = 0.
Proof.
  unfold distance.
  replace ((vec3d_t.x p - vec3d_t.x p) ^ 2 + (vec3d_t.y p - vec3d_t.y p) ^ 2
           + (vec3d_t.z p - vec3d_t.z p) ^ 2) with 0 by ring.
  apply sqrt_0.
Qed.

Lemma sum_squares_zero (a b c : R) : a ^ 2 + b ^ 2 + c ^ 2 = 0 -> a = 0 /\ b = 0 /\ c = 0.
Proof.
  intros Hs.
  pose proof (pow2_ge_0 a). pose proof (pow2_ge_0 b). pose proof (pow2_ge_0 c).
  assert (Ha : a ^ 2 = 0) by lra. assert (Hb : b ^ 2 = 0) by lra.
  assert (Hc : c ^ 2 = 0) by lra.
  repeat split; [destruct (Req_dec a 0) | destruct (Req_dec b 0) | destruct (Req_dec c 0)];
    try assumption; exfalso; eapply pow_nonzero; eassumption.
Qed.

Lemma distance_zero_iff (p a : vec3d_t.t) : distance p a = 0 <-> p = a.
Proof.
  split.
  - intros Hd. unfold distance in Hd.
    destruct p as [px py pz], a as [ax ay az]; cbn [vec3d_t.x vec3d_t.y vec3d_t.z] in Hd.
    apply sqrt_eq_0 in Hd.
    + apply sum_squares_zero in Hd. destruct Hd as (Hx & Hy & Hz).
      f_equal; lra.
    + pose proof (pow2_ge_0 (px - ax)). pose proof (pow2_ge_0 (py - ay)).
      pose proof (pow2_ge_0 (pz - az)). lra.
  - intros ->. apply distance_self.
Qed.

Lemma range_difference_jacobian_shape (p other ref : vec3d_t.t) :
  Eigen.is_vector STATE_DIM (range_difference_jacobian p other ref).
Proof. reflexivity. Qed.

(** The measurement update once both anchors are loaded. *)
Lemma scalarTDOADistUpdate_loaded (Ar An : Z) (m : R) (t : TDOA.t) (ref other : vec3d_t.t) :
  TDOA.anchor_load (TDOA.anchorPosition t) Ar = Ok ref ->
  TDOA.anchor_load (TDOA.anchorPosition t) An = Ok other ->
  TDOA.scalarTDOADistUpdate Ar An m t =
  let p := TDOA.getLocation t in
  qx1 <- fdiv (vec3d_t.x p - vec3d_t.x other) (distance p other) ;;
  qx0 <- fdiv (vec3d_t.x p - vec3d_t.x ref) (distance p ref) ;;
  qy1 <- fdiv (vec3d_t.y p - vec3d_t.y other) (distance p other) ;;
  qy0 <- fdiv (vec3d_t.y p - vec3d_t.y ref) (distance p ref) ;;
  qz1 <- fdiv (vec3d_t.z p - vec3d_t.z other) (distance p other) ;;
  qz0 <- fdiv (vec3d_t.z p - vec3d_t.z ref) (distance p ref) ;;
  TDOA.stateEstimatorScalarUpdate
    [qx1 - qx0; qy1 - qy0; qz1 - qz0; 0; 0; 0]
    (m - (distance p other - distance p ref)) (TDOA.stdDev t) t.
Proof.
  intros Hr Ho. unfold TDOA.scalarTDOADistUpdate. rewrite Ho, Hr. reflexivity.
Qed.

(** With both anchors stored, the measurement update runs into a zero
    denominator when the position lies on an anchor, and is otherwise one
    call of the generic scalar update. *)
Lemma scalarTDOADistUpdate_on_other (Ar An : Z) (m : R) (t : TDOA.t) (ref other : vec3d_t.t) :
  TDOA.anchor_load (TDOA.anchorPosition t) Ar = Ok ref ->
  TDOA.anchor_load (TDOA.anchorPosition t) An = Ok other ->
  TDOA.getLocation t = other ->
  TDOA.scalarTDOADistUpdate Ar An m t = Fault DivisionByZero.
Proof.
  intros Hr Ho Hp. rewrite (scalarTDOADistUpdate_loaded Ar An m t ref other Hr Ho).
  cbv zeta. rewrite Hp, distance_self, fdiv_zero. reflexivity.
Qed.

Lemma scalarTDOADistUpdate_on_ref (Ar An : Z) (m : R) (t : TDOA.t) (ref other : vec3d_t.t) :
  TDOA.anchor_load (TDOA.anchorPosition t) Ar = Ok ref ->
  TDOA.anchor_load (TDOA.anchorPosition t) An = Ok other ->
  TDOA.getLocation t <> other ->
  TDOA.getLocation t = ref ->
  TDOA.scalarTDOADistUpdate Ar An m t = Fault DivisionByZero.
Proof.
  intros Hr Ho Hpo Hp. rewrite (scalarTDOADistUpdate_loaded Ar An m t ref other Hr Ho).
  cbv zeta.
  rewrite fdiv_nonzero by (rewrite distance_zero_iff; exact Hpo). cbn [bind].
  rewrite Hp, (distance_self ref), fdiv_zero. reflexivity.
Qed.

Lemma scalarTDOADistUpdate_off_anchors
    (Ar An : Z) (m : R) (t : TDOA.t) (ref other : vec3d_t.t) :
  TDOA.anchor_load (TDOA.anchorPosition t) Ar = Ok ref ->
  TDOA.anchor_load (TDOA.anchorPosition t) An = Ok other ->
  TDOA.getLocation t <> other ->
  TDOA.getLocation t <> ref ->
  TDOA.scalarTDOADistUpdate Ar An m t =
  TDOA.stateEstimatorScalarUpdate
    (range_difference_jacobian (TDOA.getLocation t) other ref)
    (m - (distance (TDOA.getLocation t) other - distance (TDOA.getLocation t) ref))
    (TDOA.stdDev t) t.
Proof.
  intros Hr Ho Hpo Hpr. rewrite (scalarTDOADistUpdate_loaded Ar An m t ref other Hr Ho).
  cbv zeta.
  assert (Hdo : distance (TDOA.getLocation t) other <> 0)
    by (rewrite distance_zero_iff; exact Hpo).
  assert (Hdr : distance (TDOA.getLocation t) ref <> 0)
    by (rewrite distance_zero_iff; exact Hpr).
  rewrite !fdiv_nonzero by assumption. cbn [bind].
  reflexivity.
Qed.

(** ** The controller's dynamics constraints *)





Ltac explode_list l :=
  repeat match goal with
         | H : length l = S _ |- _ =>
             let a := fresh "a" in destruct l as [|a l]; [discriminate H|];
             cbn [length] in H; apply Nat.succ_inj in H
         | H : length l = O |- _ => destruct l; [clear H | discriminate H]
         end.

Lemma FG_eval_constraints (coeffs fg vars : list R) (t : nat) :
  length fg = (1 + n_constraints)%nat -> (1 <= t < MPC.N)%nat ->
  let g := MPC.FG_eval coeffs fg vars in
  MPC.get g (1 + MPC.x_start + t)
  = x_at vars t - (x_at vars (t - 1)
                   + v_at vars (t - 1) * cos (heading_at vars (t - 1)) * MPC.dt) /\
  MPC.get g (1 + MPC.y_start + t)
  = y_at vars t - (y_at vars (t - 1)
                   + v_at vars (t - 1) * sin (heading_at vars (t - 1)) * MPC.dt) /\
  MPC.get g (1 + MPC.psi_start + t)
  = heading_at vars t
    - (heading_at vars (t - 1)
       + v_at vars (t - 1) * tan (steering_at vars (t - 1)) * MPC.dt / MPC.lr) /\
  MPC.get g (1 + MPC.cte_start + t)
  = cte_at vars t
    - ((MPC.get coeffs 0 + MPC.get coeffs 1 * x_at vars (t - 1)
        + MPC.get coeffs 2 * (x_at vars (t - 1) * x_at vars (t - 1))
        + MPC.get coeffs 3 * (x_at vars (t - 1) * x_at vars (t - 1) * x_at vars (t - 1))
        - y_at vars (t - 1))
       + v_at vars (t - 1) * sin (heading_error_at vars (t - 1)) * MPC.dt) /\
  MPC.get g (1 + MPC.epsi_start + t)
  = heading_error_at vars t
    - ((heading_at vars (t - 1)
        - atan (MPC.get coeffs 1 + 2 * MPC.get coeffs 2 * x_at vars (t - 1)
                + 3 * MPC.get coeffs 3 * (x_at vars (t - 1) * x_at vars (t - 1))))
       + v_at vars (t - 1) * steering_at vars (t - 1) / MPC.lr * MPC.dt).
Proof.
  intros Hfg Ht. unfold n_constraints, MPC.N in *. cbn [Nat.mul Nat.add] in Hfg.
  explode_list fg.
  unfold x_at, y_at, heading_at, cte_at, heading_error_at, v_at, steering_at.
  destruct t as [|[|[|[|[|[|[|[|[|[|t]]]]]]]]]]; try lia;
    cbv [MPC.FG_eval MPC.for_loop MPC.set MPC.add_to MPC.get store fold_left seq nth
         MPC.N MPC.x_start MPC.y_start MPC.psi_start MPC.cte_start MPC.epsi_start
         MPC.v_start MPC.delta_start Nat.add Nat.sub];
    repeat split; reflexivity.
Qed.

Lemma Solve_problem_bounds (state coeffs : list R) (t : nat) :
  (1 <= t < MPC.N)%nat ->
  let p := MPC.Solve_problem state coeffs in
  (MPC.get (MPC.gl p) (MPC.x_start + t) = 0 /\ MPC.get (MPC.gu p) (MPC.x_start + t) = 0) /\
  (MPC.get (MPC.gl p) (MPC.y_start + t) = 0 /\ MPC.get (MPC.gu p) (MPC.y_start + t) = 0) /\
  (MPC.get (MPC.gl p) (MPC.psi_start + t) = 0 /\ MPC.get (MPC.gu p) (MPC.psi_start + t) = 0) /\
  (MPC.get (MPC.gl p) (MPC.cte_start + t) = 0 /\ MPC.get (MPC.gu p) (MPC.cte_start + t) = 0) /\
  (MPC.get (MPC.gl p) (MPC.epsi_start + t) = 0 /\ MPC.get (MPC.gu p) (MPC.epsi_start + t) = 0).
Proof.
  intros Ht. unfold MPC.N in Ht.
  destruct t as [|[|[|[|[|[|[|[|[|[|t]]]]]]]]]]; try lia;
    cbv [MPC.Solve_problem MPC.gl MPC.gu MPC.for_loop MPC.set MPC.get store fold_left seq
         nth repeat MPC.N MPC.x_start MPC.y_start MPC.psi_start MPC.cte_start
         MPC.epsi_start MPC.v_start MPC.delta_start Nat.add Nat.sub Nat.mul];
    repeat split; lra.
Qed.

Lemma Solve_problem_fg_eval (state coeffs : list R) :
  MPC.fg_eval (MPC.Solve_problem state coeffs) = MPC.FG_eval coeffs.
Proof. reflexivity. Qed.

(** Whatever the solver reports, [Solve] returns the two entries of its
    solution vector. *)
Lemma Solve_result (ipopt_solve : MPC.problem -> MPC.solve_result)
    (state coeffs : list R) (this : MPC.t) :
  fst (MPC.Solve ipopt_solve state coeffs this)
  = [MPC.get (MPC.x (ipopt_solve (MPC.Solve_problem state coeffs))) MPC.delta_start;
     MPC.get (MPC.x (ipopt_solve (MPC.Solve_problem state coeffs))) MPC.v_start].
Proof. reflexivity. Qed.

(** ** The anchor table: setAncPosition *)

Section SetAncPosition.

Variable MAX_NR_ANCHORS : Z.
Variables (pos : vec3d_t.t) (t : TDOA.t).

(** An index below 0 or above [MAX_NR_ANCHORS] is rejected. *)
Lemma setAncPosition_rejected (anc_num : Z) :
(anc_num < 0 \/ MAX_NR_ANCHORS < anc_num)%Z ->
TDOA.setAncPosition MAX_NR_ANCHORS anc_num pos t = Ok t.
Proof.
intros Hout. unfold TDOA.setAncPosition.
destruct (anc_num <? 0)%Z eqn:E0; [reflexivity|].
destruct (anc_num >? MAX_NR_ANCHORS)%Z eqn:E1; [reflexivity|].
apply Z.ltb_ge in E0. rewrite Z.gtb_ltb in E1. apply Z.ltb_ge in E1. lia.
Qed.

(** An index of [0, MAX_NR_ANCHORS] passes the guard and is stored to. *)
Lemma setAncPosition_accepted (anc_num : Z) :
(0 <= anc_num <= MAX_NR_ANCHORS)%Z ->
TDOA.setAncPosition MAX_NR_ANCHORS anc_num pos t =
arr <- TDOA.anchor_store (TDOA.anchorPosition t) anc_num pos ;;
Ok (TDOA.with_anchorPosition t arr).
Proof.
intros Hin. unfold TDOA.setAncPosition.
replace (anc_num <? 0)%Z with false by (symmetry; apply Z.ltb_ge; lia).
replace (anc_num >? MAX_NR_ANCHORS)%Z with false
  by (symmetry; rewrite Z.gtb_ltb; apply Z.ltb_ge; lia).
reflexivity.
Qed.

(** An index of [0, MAX_NR_ANCHORS) is stored to, and only this cell
  changes. *)
Lemma setAncPosition_inside (anc_num : Z) :
length (TDOA.anchorPosition t) = Z.to_nat MAX_NR_ANCHORS ->
(0 <= anc_num < MAX_NR_ANCHORS)%Z ->
exists t', TDOA.setAncPosition MAX_NR_ANCHORS anc_num pos t = Ok t' /\
  TDOA.getAncPosition anc_num t' = Ok pos /\
  (forall i : Z, i <> anc_num -> TDOA.getAncPosition i t' = TDOA.getAncPosition i t) /\
  TDOA.S t' = TDOA.S t /\ TDOA.P t' = TDOA.P t /\ TDOA.A t' = TDOA.A t /\
  TDOA.stdDev t' = TDOA.stdDev t.
Proof.
intros Hlen Hin. rewrite setAncPosition_accepted by lia.
rewrite anchor_store_inside by lia. cbn [bind].
eexists; split; [reflexivity|]. repeat split.
- unfold TDOA.getAncPosition, TDOA.anchor_load; cbn [TDOA.anchorPosition TDOA.with_anchorPosition].
  replace (0 <=? anc_num)%Z with true by (symmetry; apply Z.leb_le; lia).
  rewrite nth_error_store_eq by lia. reflexivity.
- intros i Hi. unfold TDOA.getAncPosition, TDOA.anchor_load;
    cbn [TDOA.anchorPosition TDOA.with_anchorPosition].
  destruct (0 <=? i)%Z eqn:E; [|reflexivity]. apply Z.leb_le in E.
  rewrite nth_error_store_neq by lia. reflexivity.
Qed.

(** The index [MAX_NR_ANCHORS] passes the guard: the store is past the end
  of an array of [MAX_NR_ANCHORS] cells. *)
Lemma setAncPosition_at_MAX_NR_ANCHORS :
(0 <= MAX_NR_ANCHORS)%Z ->
length (TDOA.anchorPosition t) = Z.to_nat MAX_NR_ANCHORS ->
TDOA.setAncPosition MAX_NR_ANCHORS MAX_NR_ANCHORS pos t = Fault OutOfBounds.
Proof.
intros Hmax Hlen. rewrite setAncPosition_accepted by lia.
rewrite anchor_store_outside by lia. reflexivity.
Qed.

(** Whatever the number of cells of the array, the request at index
  [MAX_NR_ANCHORS] is not ignored: it is a store past the end, or it
  writes the cell. *)
Lemma setAncPosition_at_MAX_NR_ANCHORS_not_ignored :
(0 <= MAX_NR_ANCHORS)%Z ->
TDOA.setAncPosition MAX_NR_ANCHORS MAX_NR_ANCHORS pos t = Fault OutOfBounds \/
exists t', TDOA.setAncPosition MAX_NR_ANCHORS MAX_NR_ANCHORS pos t = Ok t' /\
           TDOA.getAncPosition MAX_NR_ANCHORS t' = Ok pos.
Proof.
intros Hmax. rewrite setAncPosition_accepted by lia.
destruct (Z_lt_le_dec MAX_NR_ANCHORS (Z.of_nat (length (TDOA.anchorPosition t))))
  as [Hin | Hout].
- right. rewrite anchor_store_inside by lia. cbn [bind].
  eexists; split; [reflexivity|].
  unfold TDOA.getAncPosition, TDOA.anchor_load;
    cbn [TDOA.anchorPosition TDOA.with_anchorPosition].
  replace (0 <=? MAX_NR_ANCHORS)%Z with true by (symmetry; apply Z.leb_le; lia).
  rewrite nth_error_store_eq by lia. reflexivity.
- left. rewrite anchor_store_outside by lia. reflexivity.
Qed.

End SetAncPosition.

(** ** Sequences of estimator operations *)

(** Along every sequence of predictions and scalar updates with positive
    noise standard deviation, the covariance stays a covariance matrix, so
    it stays symmetric with a non-negative diagonal. *)
Lemma run_covariance (ops : list operation) (t : TDOA.t) :
  Forall admissible ops ->
  Eigen.is_matrix STATE_DIM STATE_DIM (TDOA.A t) ->
  is_covariance (TDOA.P t) ->
  exists t', run ops t = Ok t' /\
    is_covariance (TDOA.P t') /\ diag_nonneg (TDOA.P t') /\ TDOA.A t' = TDOA.A t.
Proof.
  intros Hops. revert t. induction Hops as [|op ops Hop _ IH]; intros t HA HP.
  - exists t. split; [reflexivity|]. split; [exact HP|].
    split; [apply psd_diag_nonneg, HP | reflexivity].
  - destruct op as [|H r sigma]; cbn [run apply_operation bind].
    + destruct (IH (TDOA.stateEstimatorPredict t)) as (t' & Hrun & Hc & Hd & HA').
      * exact HA.
      * apply covariance_predict_covariance; assumption.
      * exists t'. split; [exact Hrun|]. split; [exact Hc|]. split; [exact Hd | exact HA'].
    + destruct Hop as [HH Hsigma]. pose proof HP as (Hshape & Hsym & Hpsd).
      assert (Hpos : 0 < innovation_variance H (TDOA.P t) sigma)
        by (apply innovation_variance_pos; try assumption; lra).
      rewrite stateEstimatorScalarUpdate_nonzero by (try assumption; lra).
      cbn [bind].
      match goal with
      | |- exists t', run ops ?u = _ /\ _ => destruct (IH u) as (t' & Hrun & Hc & Hd & HA')
      end.
      * exact HA.
      * apply covariance_update_covariance; assumption.
      * exists t'. split; [exact Hrun|]. split; [exact Hc|]. split; [exact Hd | exact HA'].
Qed.

(** ** The reference polynomial *)

(** [poly_slope] is the derivative of [poly]. *)
Lemma poly_slope_derivative (coeffs : list R) (x : R) :
  derivable_pt_lim (poly coeffs) x (poly_slope coeffs x).
Proof.
  unfold poly, poly_slope.
  set (c0 := MPC.get coeffs 0). set (c1 := MPC.get coeffs 1).
  set (c2 := MPC.get coeffs 2). set (c3 := MPC.get coeffs 3).
  replace (c1 + 2 * c2 * x + 3 * c3 * x ^ 2)
    with (0 + (0 * x + c1 * 1) + (0 * x ^ 2 + c2 * (INR 2 * x ^ pred 2))
          + (0 * x ^ 3 + c3 * (INR 3 * x ^ pred 3)))
    by (simpl; ring).
  repeat (apply (derivable_pt_lim_plus _ _ x)).
  - apply derivable_pt_lim_const.
  - apply (derivable_pt_lim_mult (fun _ => c1) (fun y => y) x);
      [apply derivable_pt_lim_const | apply derivable_pt_lim_id].
  - apply (derivable_pt_lim_mult (fun _ => c2) (fun y => y ^ 2) x);
      [apply derivable_pt_lim_const | apply derivable_pt_lim_pow].
  - apply (derivable_pt_lim_mult (fun _ => c3) (fun y => y ^ 3) x);
      [apply derivable_pt_lim_const | apply derivable_pt_lim_pow].
Qed.

(** ** The estimator in binary32 arithmetic *)

Lemma to_R_positive (m : positive) (e : Z) :
  0 < Binary32.to_R (SpecFloat.S754_finite false m e).
Proof.
  cbn [Binary32.to_R]. apply Rmult_lt_0_compat.
  - apply IZR_lt. reflexivity.
  - apply powerRZ_lt. lra.
Qed.

Lemma powerRZ_2_m15 : powerRZ 2 (-15) = / 32768.
Proof. change (powerRZ 2 (-15)) with (/ 2 ^ 15). f_equal. lra. Qed.

Lemma powerRZ_2_m19 : powerRZ 2 (-19) = / 524288.
Proof. change (powerRZ 2 (-19)) with (/ 2 ^ 19). f_equal. lra. Qed.

(** [float_1e_30] is within half a unit in the last place of 10^-30. *)
Lemma float_1e_30_nearest :
  Rabs (Binary32.to_R float_1e_30 - / 10 ^ 30) <= / 2 ^ 124.
Proof.
  unfold float_1e_30. cbn [Binary32.to_R].
  change (powerRZ 2 (-123)) with (/ 2 ^ 123).
  apply Rabs_le. split; lra.
Qed.

(** The entries of [correlated_P] are the decimals of its description. *)
Lemma real_correlated_P :
  real_matrix correlated_P =
  [[316.125; -21.9375; 0; 0; 0; 0];
   [-21.9375; 299.453125; 0; 0; 0; 0];
   [0; 0; 0; 0; 0; 0];
   [0; 0; 0; 0; 0; 0];
   [0; 0; 0; 0; 0; 0];
   [0; 0; 0; 0; 0; 0]].
Proof.
  replace correlated_P with
    (let z := Binary32.zero in
     [[SpecFloat.S754_finite false 10358784 (-15); SpecFloat.S754_finite true 11501568 (-19);
       z; z; z; z];
      [SpecFloat.S754_finite true 11501568 (-19); SpecFloat.S754_finite false 9812480 (-15);
       z; z; z; z];
      [z; z; z; z; z; z]; [z; z; z; z; z; z]; [z; z; z; z; z; z]; [z; z; z; z; z; z]])
    by (vm_compute; reflexivity).
  cbv [real_matrix map Binary32.to_R Binary32.zero].
  rewrite powerRZ_2_m15, powerRZ_2_m19.
  repeat (f_equal; try lra).
Qed.

Lemma correlated_P_covariance : is_covariance (real_matrix correlated_P).
Proof.
  rewrite real_correlated_P. split; [apply is_matrix_rows; reflexivity|]. split.
  - apply transpose_fixed_symmetric; [apply is_matrix_rows; reflexivity | reflexivity].
  - intros x Hx. explode_vector Hx. cbn.
    match goal with
    | |- 0 <= ?a * _ + (?b * _ + _) =>
        pose proof (pow2_ge_0 a); pose proof (pow2_ge_0 b); pose proof (pow2_ge_0 (a - b))
    end.
    nra.
Qed.

(** The binary32 update divides by [computed_innovation_variance]. *)
Lemma binary32_stateEstimatorScalarUpdate
    (H : list Binary32.float) (r sigma : Binary32.float) (t : Binary32.TDOA.t) :
  let K := Binary32.Eigen.vec_div (Binary32.Eigen.mat_vec (Binary32.TDOA.P t) H)
             (computed_innovation_variance H (Binary32.TDOA.P t) sigma) in
  Binary32.TDOA.stateEstimatorScalarUpdate H r sigma t =
  Binary32.TDOA.with_P
    (Binary32.TDOA.with_S t
       (Binary32.Eigen.vec_add (Binary32.TDOA.S t) (Binary32.Eigen.vec_scale K r)))
    (Binary32.Eigen.mat_mul
       (Binary32.Eigen.mat_sub (Binary32.Eigen.Identity STATE_DIM) (Binary32.Eigen.outer K H))
       (Binary32.TDOA.P t)).
Proof. reflexivity. Qed.

(** With both anchors stored, the binary32 measurement update divides by
    the two values of [computed_distance] and is one generic scalar update
    with the row [computed_jacobian]. *)
Lemma binary32_scalarTDOADistUpdate
    (Ar An : Z) (m : Binary32.float) (t : Binary32.TDOA.t) (ref other : Binary32.vec3d_t.t) :
  Binary32.TDOA.getAncPosition Ar t = Ok ref ->
  Binary32.TDOA.getAncPosition An t = Ok other ->
  Binary32.TDOA.scalarTDOADistUpdate Ar An m t =
  let p := Binary32.TDOA.getLocation t in
  Ok (Binary32.TDOA.stateEstimatorScalarUpdate
        (computed_jacobian p other ref)
        (Binary32.sub m (Binary32.sub (computed_distance p other) (computed_distance p ref)))
        (Binary32.TDOA.stdDev t) t).
Proof.
  unfold Binary32.TDOA.getAncPosition. intros Hr Ho.
  unfold Binary32.TDOA.scalarTDOADistUpdate. rewrite Ho, Hr. reflexivity.
Qed.

(** * Main theorems *)

(** C1: for every 1x6 observation row [H], residual [r] and noise standard
    deviation [sigma] with [H P H^T + sigma^2] not zero, the generic scalar
    update returns, replaces the state by [S + K r] and the covariance by
    [(I - K H) P], where [K = P H^T / (H P H^T + sigma^2)], and changes no
    other field of the estimator. *)
Theorem C1_scalar_update (H : list R) (r sigma : R) (t : TDOA.t) :
  Eigen.is_vector STATE_DIM H ->
  Eigen.is_matrix STATE_DIM STATE_DIM (TDOA.P t) ->
  innovation_variance H (TDOA.P t) sigma <> 0 ->
  let K := kalman_gain H (TDOA.P t) sigma in
  exists t', TDOA.stateEstimatorScalarUpdate H r sigma t = Ok t' /\
    TDOA.S t' = Eigen.vec_add (TDOA.S t) (Eigen.vec_scale K r) /\
    TDOA.P t' = Eigen.mat_mul
                  (Eigen.mat_sub (Eigen.Identity STATE_DIM) (Eigen.outer K H)) (TDOA.P t) /\
    TDOA.A t' = TDOA.A t /\
    TDOA.anchorPosition t' = TDOA.anchorPosition t /\
    TDOA.stdDev t' = TDOA.stdDev t /\
    TDOA.tdoaCount t' = TDOA.tdoaCount t /\
    TDOA.nr_states t' = TDOA.nr_states t.
Proof.
  intros HH HP Hs K.
  rewrite stateEstimatorScalarUpdate_nonzero by assumption.
  eexists; split; [reflexivity|]. repeat split.
Qed.

(** On the constructed estimator, an observation of the x position. *)
Lemma C1_scalar_update_witness :
  Eigen.is_vector STATE_DIM [1; 0; 0; 0; 0; 0] /\
  Eigen.is_matrix STATE_DIM STATE_DIM (TDOA.P (constructed 8)) /\
  innovation_variance [1; 0; 0; 0; 0; 0] (TDOA.P (constructed 8)) 0.15 <> 0 /\
  exists t', TDOA.stateEstimatorScalarUpdate [1; 0; 0; 0; 0; 0] 1 0.15 (constructed 8) = Ok t' /\
    TDOA.A t' = TDOA.A (constructed 8).
Proof.
  assert (HH : Eigen.is_vector STATE_DIM [1; 0; 0; 0; 0; 0]) by reflexivity.
  assert (HP : Eigen.is_matrix STATE_DIM STATE_DIM (TDOA.P (constructed 8)))
    by apply constructed_well_formed.
  assert (Hs : innovation_variance [1; 0; 0; 0; 0; 0] (TDOA.P (constructed 8)) 0.15 <> 0)
    by (unfold innovation_variance; cbn; lra).
  split; [exact HH|]. split; [exact HP|]. split; [exact Hs|].
  destruct (C1_scalar_update [1; 0; 0; 0; 0; 0] 1 0.15 (constructed 8) HH HP Hs)
    as (t' & Hok & _ & _ & HA & _).
  exists t'. split; assumption.
Defined.

(** C2: for every pair of anchor indices whose stored positions both differ
    from the current position estimate, [scalarTDOADistUpdate] is exactly
    one generic scalar update, with the residual measured - predicted, the
    predicted range difference being [d(An) - d(Ar)] for the Euclidean
    distance [d], with the 1x6 Jacobian whose position columns are
    [(x - x_other)/d_other - (x - x_ref)/d_ref] (likewise for y and z) and
    whose other columns are zero, and with the configured noise standard
    deviation. *)
Theorem C2_range_difference_update
    (Ar An : Z) (measured : R) (t : TDOA.t) (ref other : vec3d_t.t) :
  TDOA.getAncPosition Ar t = Ok ref ->
  TDOA.getAncPosition An t = Ok other ->
  TDOA.getLocation t <> other ->
  TDOA.getLocation t <> ref ->
  let p := TDOA.getLocation t in
  let predicted := distance p other - distance p ref in
  let H := range_difference_jacobian p other ref in
  TDOA.scalarTDOADistUpdate Ar An measured t
  = TDOA.stateEstimatorScalarUpdate H (measured - predicted) (TDOA.stdDev t) t /\
  Eigen.is_vector STATE_DIM H /\
  Eigen.coeff H STATE_X
  = (vec3d_t.x p - vec3d_t.x other) / distance p other
    - (vec3d_t.x p - vec3d_t.x ref) / distance p ref /\
  Eigen.coeff H STATE_Y
  = (vec3d_t.y p - vec3d_t.y other) / distance p other
    - (vec3d_t.y p - vec3d_t.y ref) / distance p ref /\
  Eigen.coeff H STATE_Z
  = (vec3d_t.z p - vec3d_t.z other) / distance p other
    - (vec3d_t.z p - vec3d_t.z ref) / distance p ref /\
  Eigen.coeff H STATE_VX = 0 /\ Eigen.coeff H STATE_VY = 0 /\ Eigen.coeff H STATE_VZ = 0.
Proof.
  intros Hr Ho Hpo Hpr p predicted H. split.
  - apply scalarTDOADistUpdate_off_anchors; assumption.
  - repeat split.
Qed.

Lemma constructed_off_anchors :
  TDOA.getLocation (constructed 8) <> vec3d_t.mk 4.628 3.810 1.297 /\
  TDOA.getLocation (constructed 8) <> vec3d_t.mk 4.628 0.600 1.312.
Proof.
  split; intros E; injection E as Ex Ey Ez; cbn in Ex; lra.
Qed.

(** On the constructed estimator, the anchors 0 (reference) and 1. *)
Lemma C2_range_difference_update_witness :
  TDOA.getAncPosition 0 (constructed 8) = Ok (vec3d_t.mk 4.628 0.600 1.312) /\
  TDOA.getAncPosition 1 (constructed 8) = Ok (vec3d_t.mk 4.628 3.810 1.297) /\
  TDOA.getLocation (constructed 8) <> vec3d_t.mk 4.628 3.810 1.297 /\
  TDOA.getLocation (constructed 8) <> vec3d_t.mk 4.628 0.600 1.312 /\
  Eigen.coeff
    (range_difference_jacobian (TDOA.getLocation (constructed 8))
       (vec3d_t.mk 4.628 3.810 1.297) (vec3d_t.mk 4.628 0.600 1.312)) STATE_VX = 0.
Proof.
  assert (Hr : TDOA.getAncPosition 0 (constructed 8) = Ok (vec3d_t.mk 4.628 0.600 1.312))
    by reflexivity.
  assert (Ho : TDOA.getAncPosition 1 (constructed 8) = Ok (vec3d_t.mk 4.628 3.810 1.297))
    by reflexivity.
  destruct constructed_off_anchors as [Hpo Hpr].
  split; [exact Hr|]. split; [exact Ho|]. split; [exact Hpo|]. split; [exact Hpr|].
  apply (C2_range_difference_update 0 1 0.5 (constructed 8) _ _ Hr Ho Hpo Hpr).
Defined.

(** C3: for every horizon step t = 1..N-1 the equality constraints handed
    to the solver hold exactly when the bicycle-model relations hold between
    step t-1 and step t: x, y, heading, cross-track error and heading error,
    with the degree-3 reference polynomial [poly] and its slope. *)
Theorem C3_dynamics_constraints (state coeffs fg vars : list R) (t : nat) :
  length vars = n_vars ->
  length fg = (1 + n_constraints)%nat ->
  (1 <= t < MPC.N)%nat ->
  let p := MPC.Solve_problem state coeffs in
  let v := v_at vars (t - 1) in
  (constraint_holds p fg vars (MPC.x_start + t) <->
   x_at vars t = x_at vars (t - 1) + v * cos (heading_at vars (t - 1)) * MPC.dt) /\
  (constraint_holds p fg vars (MPC.y_start + t) <->
   y_at vars t = y_at vars (t - 1) + v * sin (heading_at vars (t - 1)) * MPC.dt) /\
  (constraint_holds p fg vars (MPC.psi_start + t) <->
   heading_at vars t
   = heading_at vars (t - 1) + v * tan (steering_at vars (t - 1)) * MPC.dt / MPC.lr) /\
  (constraint_holds p fg vars (MPC.cte_start + t) <->
   cte_at vars t
   = (poly coeffs (x_at vars (t - 1)) - y_at vars (t - 1))
     + v * sin (heading_error_at vars (t - 1)) * MPC.dt) /\
  (constraint_holds p fg vars (MPC.epsi_start + t) <->
   heading_error_at vars t
   = (heading_at vars (t - 1) - atan (poly_slope coeffs (x_at vars (t - 1))))
     + v * steering_at vars (t - 1) * MPC.dt / MPC.lr).
Proof.
  intros Hvars Hfg Ht p v.
  destruct (Solve_problem_bounds state coeffs t Ht)
    as ((Lx & Ux) & (Ly & Uy) & (Lp & Up) & (Lc & Uc) & (Le & Ue)).
  destruct (FG_eval_constraints coeffs fg vars t Hfg Ht) as (Gx & Gy & Gp & Gc & Ge).
  assert (Hslope : MPC.get coeffs 1 + 2 * MPC.get coeffs 2 * x_at vars (t - 1)
                   + 3 * MPC.get coeffs 3 * (x_at vars (t - 1) * x_at vars (t - 1))
                   = poly_slope coeffs (x_at vars (t - 1)))
    by (unfold poly_slope; ring).
  rewrite Hslope in Ge.
  unfold constraint_holds. fold p in Lx, Ux, Ly, Uy, Lp, Up, Lc, Uc, Le, Ue.
  rewrite Lx, Ux, Ly, Uy, Lp, Up, Lc, Uc, Le, Ue.
  unfold p. rewrite Solve_problem_fg_eval.
  rewrite !Nat.add_assoc, Gx, Gy, Gp, Gc, Ge.
  unfold poly, v, MPC.dt, MPC.lr.
  repeat split; intros; lra.
Qed.

(** The first horizon step, at the origin. *)
Lemma C3_dynamics_constraints_witness :
  length (repeat 0 n_vars) = n_vars /\
  length (repeat 0 (1 + n_constraints)) = (1 + n_constraints)%nat /\
  (1 <= 1 < MPC.N)%nat /\
  (constraint_holds (MPC.Solve_problem [0; 0; 0; 0; 0] [0; 0; 0; 0])
     (repeat 0 (1 + n_constraints)) (repeat 0 n_vars) (MPC.x_start + 1) <->
   x_at (repeat 0 n_vars) 1
   = x_at (repeat 0 n_vars) (1 - 1)
     + v_at (repeat 0 n_vars) (1 - 1) * cos (heading_at (repeat 0 n_vars) (1 - 1)) * MPC.dt).
Proof.
  assert (Hvars : length (repeat 0 n_vars) = n_vars) by apply repeat_length.
  assert (Hfg : length (repeat 0 (1 + n_constraints)) = (1 + n_constraints)%nat)
    by apply repeat_length.
  assert (Ht : (1 <= 1 < MPC.N)%nat) by (unfold MPC.N; lia).
  split; [exact Hvars|]. split; [exact Hfg|]. split; [exact Ht|].
  apply (C3_dynamics_constraints [0; 0; 0; 0; 0] [0; 0; 0; 0] _ _ 1%nat Hvars Hfg Ht).
Defined.

(** C4 (fails on the code): when the solver reports a status other than
    [success], [Solve] still returns the pair read from the solver's
    solution vector; the flag [ok] that records the status is never read.
    Here the solver gives up with [maxiter_exceeded] and a vector of 42s,
    and [Solve] returns steering 42 and speed 42. *)
Theorem C4_failure_returns_actuation :
  MPC.status (failed_solver (MPC.Solve_problem [0; 0; 0; 0; 0] [0; 0; 0; 0])) <> MPC.success /\
  fst (MPC.Solve failed_solver [0; 0; 0; 0; 0] [0; 0; 0; 0] (MPC.mk [] [])) = [42; 42].
Proof.
  split.
  - discriminate.
  - rewrite Solve_result. reflexivity.
Qed.

(** C5: [predict()] replaces the covariance by [A P A^T] and leaves the
    state vector, the transition matrix, the anchor positions, the noise
    standard deviation and the remaining fields as they are. *)
Theorem C5_predict_frame (t : TDOA.t) :
  let t' := TDOA.stateEstimatorPredict t in
  TDOA.P t' = Eigen.mat_mul (Eigen.mat_mul (TDOA.A t) (TDOA.P t)) (Eigen.transpose (TDOA.A t)) /\
  TDOA.S t' = TDOA.S t /\
  TDOA.A t' = TDOA.A t /\
  TDOA.anchorPosition t' = TDOA.anchorPosition t /\
  TDOA.stdDev t' = TDOA.stdDev t /\
  TDOA.tdoaCount t' = TDOA.tdoaCount t /\
  TDOA.nr_states t' = TDOA.nr_states t /\
  TDOA.getLocation t' = TDOA.getLocation t.
Proof. repeat split. Qed.

(** C6 (fails on the code): the guard of [setAncPosition] rejects an index
    only when it is below 0 or above [MAX_NR_ANCHORS], so the index
    [MAX_NR_ANCHORS] itself is not ignored.  With 8 anchors, the request at
    index 8 is a store past the end of the array. *)
Theorem C6_index_MAX_NR_ANCHORS_not_ignored :
  TDOA.setAncPosition 8 8 (vec3d_t.mk 1 2 3) (constructed 8) = Fault OutOfBounds /\
  TDOA.setAncPosition 8 8 (vec3d_t.mk 1 2 3) (constructed 8) <> Ok (constructed 8).
Proof.
  assert (E : TDOA.setAncPosition 8 8 (vec3d_t.mk 1 2 3) (constructed 8) = Fault OutOfBounds).
  { apply setAncPosition_at_MAX_NR_ANCHORS; [lia | reflexivity]. }
  split; [exact E | rewrite E; discriminate].
Qed.

(** C7, as stated, fails: the constructor gives the z position the
    variance 1^2, not 100^2. *)
Lemma C7_counterexample :
  ~ (forall t : TDOA.t, TDOA.TDOA 8 = Ok t ->
       Eigen.coeffM (TDOA.P t) STATE_X STATE_X = 100 ^ 2 /\
       Eigen.coeffM (TDOA.P t) STATE_Y STATE_Y = 100 ^ 2 /\
       Eigen.coeffM (TDOA.P t) STATE_Z STATE_Z = 100 ^ 2).
Proof.
  intros Hall.
  destruct (Hall (constructed 8) (TDOA_constructed 8 ltac:(lia))) as (_ & _ & Hz).
  cbn in Hz. lra.
Qed.

(** C7, amended: the constructor sets the state to x = 2, y = 2.6 and 0
    elsewhere; the covariance to the diagonal matrix with variance 100^2 for
    the x and y positions, 1^2 for the z position and 0.01^2 for every
    velocity; [A] to the identity with the three position-to-velocity
    entries equal to 0.016; and the noise standard deviation to 0.15. *)
Theorem C7_constructor (MAX_NR_ANCHORS : Z) :
  (4 <= MAX_NR_ANCHORS)%Z ->
  exists t, TDOA.TDOA MAX_NR_ANCHORS = Ok t /\
    TDOA.S t = [2; 2.6; 0; 0; 0; 0] /\
    TDOA.P t = [[100 ^ 2; 0; 0; 0; 0; 0];
                [0; 100 ^ 2; 0; 0; 0; 0];
                [0; 0; 1 ^ 2; 0; 0; 0];
                [0; 0; 0; 0.01 ^ 2; 0; 0];
                [0; 0; 0; 0; 0.01 ^ 2; 0];
                [0; 0; 0; 0; 0; 0.01 ^ 2]] /\
    TDOA.A t = [[1; 0; 0; 0.016; 0; 0];
                [0; 1; 0; 0; 0.016; 0];
                [0; 0; 1; 0; 0; 0.016];
                [0; 0; 0; 1; 0; 0];
                [0; 0; 0; 0; 1; 0];
                [0; 0; 0; 0; 0; 1]] /\
    TDOA.stdDev t = 0.15.
Proof.
  intros Hmax. exists (constructed MAX_NR_ANCHORS).
  split; [apply TDOA_constructed, Hmax | repeat split].
Qed.

(** The constructor with 8 anchors. *)
Lemma C7_constructor_witness :
  (4 <= 8)%Z /\ exists t, TDOA.TDOA 8 = Ok t /\ TDOA.stdDev t = 0.15.
Proof.
  assert (Hmax : (4 <= 8)%Z) by lia.
  split; [exact Hmax|].
  destruct (C7_constructor 8 Hmax) as (t & Hok & _ & _ & _ & Hstd).
  exists t. split; assumption.
Defined.

(** C8, as stated, fails in the arithmetic of the program.  In binary32,
    with the symmetric positive-definite covariance [correlated_P], the
    observation row (-0.1075f, -1.5501f, 0, 0, 0, 0), the noise standard
    deviation 0.15f (a positive innovation variance) and the residual 0,
    the generic scalar update raises the variance P(x, x) from 316.125 =
    10358784 * 2^-15 to 10358785 * 2^-15.  Each sum of this update has at
    most two terms that are not zero, so the order in which they are added
    does not matter. *)
Lemma C8_counterexample :
  exists t : Binary32.TDOA.t,
    correlated_estimator = Ok t /\
    let sigma := Binary32.literal_f 15 2 in
    let t' := Binary32.TDOA.stateEstimatorScalarUpdate correlated_H Binary32.zero sigma t in
    is_covariance (real_matrix (Binary32.TDOA.P t)) /\
    0 < innovation_variance (real_vector correlated_H) (real_matrix (Binary32.TDOA.P t))
          (Binary32.to_R sigma) /\
    SpecFloat.SFltb Binary32.zero
      (computed_innovation_variance correlated_H (Binary32.TDOA.P t) sigma) = true /\
    Binary32.TDOA.S t' = Binary32.TDOA.S t /\
    Binary32.Eigen.coeffM (Binary32.TDOA.P t) STATE_X STATE_X
      = SpecFloat.S754_finite false 10358784 (-15) /\
    Binary32.Eigen.coeffM (Binary32.TDOA.P t') STATE_X STATE_X
      = SpecFloat.S754_finite false 10358785 (-15) /\
    Binary32.to_R (Binary32.Eigen.coeffM (Binary32.TDOA.P t) STATE_X STATE_X)
      < Binary32.to_R (Binary32.Eigen.coeffM (Binary32.TDOA.P t') STATE_X STATE_X).
Proof.
  destruct (Binary32.TDOA.TDOA 8) as [t0 | f] eqn:E0; [| vm_compute in E0; discriminate E0].
  exists (Binary32.TDOA.setPredictionMat correlated_P t0).
  split; [unfold correlated_estimator; rewrite E0; reflexivity|].
  assert (EP : Binary32.TDOA.P (Binary32.TDOA.setPredictionMat correlated_P t0) = correlated_P).
  { vm_compute in E0. injection E0 as <-. reflexivity. }
  intros sigma t'.
  assert (E : Binary32.Eigen.coeffM
                (Binary32.TDOA.P (Binary32.TDOA.setPredictionMat correlated_P t0)) STATE_X STATE_X
              = SpecFloat.S754_finite false 10358784 (-15))
    by (rewrite EP; vm_compute; reflexivity).
  assert (E' : Binary32.Eigen.coeffM (Binary32.TDOA.P t') STATE_X STATE_X
               = SpecFloat.S754_finite false 10358785 (-15)).
  { unfold t'. rewrite binary32_stateEstimatorScalarUpdate. cbv zeta.
    cbn [Binary32.TDOA.P Binary32.TDOA.with_P]. rewrite EP. vm_compute. reflexivity. }
  rewrite EP.
  split; [exact correlated_P_covariance|]. split.
  { apply innovation_variance_pos.
    - reflexivity.
    - apply correlated_P_covariance.
    - apply correlated_P_covariance.
    - assert (Hs : sigma = SpecFloat.S754_finite false 10066330 (-26))
        by (vm_compute; reflexivity).
      rewrite Hs. pose proof (to_R_positive 10066330 (-26)). lra. }
  split; [vm_compute; reflexivity|].
  split.
  { unfold t'. vm_compute in E0. injection E0 as <-. vm_compute. reflexivity. }
  split; [rewrite <- EP; exact E|]. split; [exact E'|].
  rewrite E'. replace (Binary32.Eigen.coeffM correlated_P STATE_X STATE_X)
    with (SpecFloat.S754_finite false 10358784 (-15)) by (vm_compute; reflexivity).
  cbn [Binary32.to_R].
  apply Rmult_lt_compat_r; [apply powerRZ_lt; lra | apply IZR_lt; reflexivity].
Qed.

(** C8, amended: in exact arithmetic, on a symmetric positive-semidefinite
    covariance and a 1x6 observation row with positive innovation variance,
    one generic scalar update with residual 0 leaves the state vector
    unchanged and increases no diagonal entry of the covariance. *)
Theorem C8_zero_residual (H : list R) (sigma : R) (t : TDOA.t) :
  Eigen.is_vector STATE_DIM H ->
  Eigen.is_vector STATE_DIM (TDOA.S t) ->
  is_covariance (TDOA.P t) ->
  0 < innovation_variance H (TDOA.P t) sigma ->
  exists t', TDOA.stateEstimatorScalarUpdate H 0 sigma t = Ok t' /\
    TDOA.S t' = TDOA.S t /\
    forall i : nat, Eigen.coeffM (TDOA.P t') i i <= Eigen.coeffM (TDOA.P t) i i.
Proof.
  intros HH HS HP Hpos. pose proof HP as (Hshape & Hsym & Hpsd).
  rewrite stateEstimatorScalarUpdate_nonzero by (try assumption; lra).
  eexists; split; [reflexivity|]. cbn [TDOA.S TDOA.P]. split.
  - apply vec_add_scale_0; [assumption | apply kalman_gain_shape; assumption].
  - intros i. rewrite covariance_update_diag by assumption.
    assert (0 <= Eigen.coeff (Eigen.mat_vec (TDOA.P t) H) i ^ 2
                 / innovation_variance H (TDOA.P t) sigma).
    { apply Rmult_le_pos; [apply pow2_ge_0 | left; apply Rinv_0_lt_compat, Hpos]. }
    lra.
Qed.

Lemma constructed_innovation_variance :
  innovation_variance [1; 0; 0; 0; 0; 0] (TDOA.P (constructed 8)) 0.15 = 100 ^ 2 + 0.15 ^ 2.
Proof. unfold innovation_variance. cbn. lra. Qed.

(** On the constructed estimator, an observation of the x position with
    residual 0. *)
Lemma C8_zero_residual_witness :
  Eigen.is_vector STATE_DIM [1; 0; 0; 0; 0; 0] /\
  Eigen.is_vector STATE_DIM (TDOA.S (constructed 8)) /\
  is_covariance (TDOA.P (constructed 8)) /\
  0 < innovation_variance [1; 0; 0; 0; 0; 0] (TDOA.P (constructed 8)) 0.15 /\
  exists t', TDOA.stateEstimatorScalarUpdate [1; 0; 0; 0; 0; 0] 0 0.15 (constructed 8) = Ok t' /\
    TDOA.S t' = TDOA.S (constructed 8).
Proof.
  assert (HH : Eigen.is_vector STATE_DIM [1; 0; 0; 0; 0; 0]) by reflexivity.
  assert (HS : Eigen.is_vector STATE_DIM (TDOA.S (constructed 8))) by reflexivity.
  assert (HP : is_covariance (TDOA.P (constructed 8))) by apply constructed_covariance.
  assert (Hpos : 0 < innovation_variance [1; 0; 0; 0; 0; 0] (TDOA.P (constructed 8)) 0.15)
    by (rewrite constructed_innovation_variance; lra).
  split; [exact HH|]. split; [exact HS|]. split; [exact HP|]. split; [exact Hpos|].
  destruct (C8_zero_residual [1; 0; 0; 0; 0; 0] 0.15 (constructed 8) HH HS HP Hpos)
    as (t' & Hok & HS' & _).
  exists t'. split; assumption.
Defined.

(** C9: in exact arithmetic both operations that assign the covariance,
    [predict()] and the generic scalar update with [sigma > 0], map a
    symmetric positive-semidefinite covariance to a symmetric matrix with a
    non-negative diagonal (and to a positive-semidefinite one, so that this
    holds again after the next operation). *)
Theorem C9_covariance_invariants (t : TDOA.t) :
  Eigen.is_matrix STATE_DIM STATE_DIM (TDOA.A t) ->
  is_covariance (TDOA.P t) ->
  (is_symmetric (TDOA.P (TDOA.stateEstimatorPredict t)) /\
   diag_nonneg (TDOA.P (TDOA.stateEstimatorPredict t)) /\
   is_covariance (TDOA.P (TDOA.stateEstimatorPredict t))) /\
  (forall (H : list R) (r sigma : R),
     Eigen.is_vector STATE_DIM H -> 0 < sigma ->
     exists t', TDOA.stateEstimatorScalarUpdate H r sigma t = Ok t' /\
       is_symmetric (TDOA.P t') /\ diag_nonneg (TDOA.P t') /\ is_covariance (TDOA.P t')).
Proof.
  intros HA HP. split.
  - assert (Hc : is_covariance (TDOA.P (TDOA.stateEstimatorPredict t)))
      by (apply covariance_predict_covariance; assumption).
    split; [apply Hc|]. split; [apply psd_diag_nonneg, Hc | exact Hc].
  - intros H r sigma HH Hsigma. pose proof HP as (Hshape & Hsym & Hpsd).
    assert (Hpos : 0 < innovation_variance H (TDOA.P t) sigma)
      by (apply innovation_variance_pos; try assumption; lra).
    rewrite stateEstimatorScalarUpdate_nonzero by (try assumption; lra).
    eexists; split; [reflexivity|]. cbn [TDOA.P].
    assert (Hc : is_covariance (updated_covariance H (TDOA.P t) sigma))
      by (apply covariance_update_covariance; assumption).
    split; [apply Hc|]. split; [apply psd_diag_nonneg, Hc | exact Hc].
Qed.

(** The prediction on the constructed estimator. *)
Lemma C9_covariance_invariants_witness :
  Eigen.is_matrix STATE_DIM STATE_DIM (TDOA.A (constructed 8)) /\
  is_covariance (TDOA.P (constructed 8)) /\
  is_symmetric (TDOA.P (TDOA.stateEstimatorPredict (constructed 8))) /\
  diag_nonneg (TDOA.P (TDOA.stateEstimatorPredict (constructed 8))).
Proof.
  assert (HA : Eigen.is_matrix STATE_DIM STATE_DIM (TDOA.A (constructed 8)))
    by apply constructed_well_formed.
  assert (HP : is_covariance (TDOA.P (constructed 8))) by apply constructed_covariance.
  split; [exact HA|]. split; [exact HP|].
  destruct (C9_covariance_invariants (constructed 8) HA HP) as ((Hsym & Hdiag & _) & _).
  split; assumption.
Defined.

Lemma position_eq_dec (p a : vec3d_t.t) : p = a \/ p <> a.
Proof.
  destruct (Req_dec (distance p a) 0) as [E | E].
  - left. apply distance_zero_iff, E.
  - right. intros Hpa. apply E, distance_zero_iff, Hpa.
Qed.

(** C10, as stated, fails in the arithmetic of the program.  In binary32,
    after construction and [setAncPosition(1, 2, 2.6f, 1e-30f)], the
    position estimate (2, 2.6f, 0) differs from both anchors 0 and 1, the
    covariance is positive semidefinite and the noise standard deviation is
    not zero; yet the squared difference to anchor 1 underflows, its
    distance [d1] is computed as 0, the three quotients by [d1] are 0/0, 0/0
    and -1e-30f/0, the row [h] is (NaN, NaN, -infinity, 0, 0, 0) and the
    update leaves a state vector of NaNs. *)
Lemma C10_counterexample :
  exists (t : Binary32.TDOA.t) (ref other : Binary32.vec3d_t.t),
    estimator_near_anchor = Ok t /\
    Binary32.TDOA.getAncPosition 0 t = Ok ref /\
    Binary32.TDOA.getAncPosition 1 t = Ok other /\
    let p := Binary32.TDOA.getLocation t in
    Binary32.to_R (Binary32.vec3d_t.z p) <> Binary32.to_R (Binary32.vec3d_t.z other) /\
    Binary32.to_R (Binary32.vec3d_t.z p) <> Binary32.to_R (Binary32.vec3d_t.z ref) /\
    is_covariance (real_matrix (Binary32.TDOA.P t)) /\
    Binary32.to_R (Binary32.TDOA.stdDev t) <> 0 /\
    computed_distance p other = Binary32.zero /\
    computed_jacobian p other ref =
      [SpecFloat.S754_nan; SpecFloat.S754_nan; SpecFloat.S754_infinity true;
       Binary32.zero; Binary32.zero; Binary32.zero] /\
    exists t' : Binary32.TDOA.t,
      Binary32.TDOA.scalarTDOADistUpdate 0 1 (Binary32.literal_f 5 1) t = Ok t' /\
      Binary32.TDOA.S t' = repeat SpecFloat.S754_nan STATE_DIM.
Proof.
  eexists. eexists. eexists.
  split; [vm_compute; reflexivity|].
  split; [vm_compute; reflexivity|].
  split; [vm_compute; reflexivity|].
  cbv zeta. cbn [Binary32.TDOA.getLocation Binary32.TDOA.S Binary32.TDOA.P Binary32.TDOA.stdDev
                 Binary32.Eigen.coeff nth STATE_X STATE_Y STATE_Z
                 Binary32.vec3d_t.x Binary32.vec3d_t.y Binary32.vec3d_t.z].
  split.
  { pose proof (to_R_positive 10633824 (-123)) as Hpos. cbn [Binary32.to_R] in *. lra. }
  split.
  { pose proof (to_R_positive 11005854 (-23)) as Hpos. cbn [Binary32.to_R] in *. lra. }
  split.
  { cbv [real_matrix map]. cbn [Binary32.to_R].
    apply diagonal_covariance; left;
      match goal with |- 0 < IZR (Z.pos ?m) * powerRZ 2 ?e => exact (to_R_positive m e) end. }
  split.
  { pose proof (to_R_positive 10066330 (-26)) as Hpos. lra. }
  split; [vm_compute; reflexivity|].
  split; [vm_compute; reflexivity|].
  eexists. split; vm_compute; reflexivity.
Qed.

(** C10, amended: in exact arithmetic.  [scalarTDOADistUpdate] guards no
    denominator.  With both anchors stored, the call runs into a division
    by zero exactly when the position estimate lies on one of the two
    anchors or the innovation variance is zero, and returns exactly when
    neither is the case; the innovation variance is not zero when the
    covariance is positive semidefinite and the noise standard deviation is
    not zero. *)
Theorem C10_division_by_zero
    (Ar An : Z) (measured : R) (t : TDOA.t) (ref other : vec3d_t.t) :
  TDOA.getAncPosition Ar t = Ok ref ->
  TDOA.getAncPosition An t = Ok other ->
  Eigen.is_matrix STATE_DIM STATE_DIM (TDOA.P t) ->
  let p := TDOA.getLocation t in
  let s := innovation_variance (range_difference_jacobian p other ref)
                               (TDOA.P t) (TDOA.stdDev t) in
  (TDOA.scalarTDOADistUpdate Ar An measured t = Fault DivisionByZero <->
   p = other \/ p = ref \/ s = 0) /\
  ((exists t', TDOA.scalarTDOADistUpdate Ar An measured t = Ok t') <->
   p <> other /\ p <> ref /\ s <> 0) /\
  (is_psd (TDOA.P t) -> TDOA.stdDev t <> 0 -> s <> 0).
Proof.
  intros Hr Ho HP p s.
  pose proof (range_difference_jacobian_shape p other ref) as HH.
  assert (Hguaranteed : is_psd (TDOA.P t) -> TDOA.stdDev t <> 0 -> s <> 0).
  { intros Hpsd Hsigma.
    pose proof (innovation_variance_pos _ _ _ HH HP Hpsd Hsigma) as Hpos.
    unfold s. lra. }
  split; [|split; [|exact Hguaranteed]].
  - (* a division by zero, exactly when ... *)
    destruct (position_eq_dec p other) as [Epo | Npo].
    { rewrite (scalarTDOADistUpdate_on_other Ar An measured t ref other Hr Ho Epo).
      split; [intros _; left; exact Epo | reflexivity]. }
    destruct (position_eq_dec p ref) as [Epr | Npr].
    { rewrite (scalarTDOADistUpdate_on_ref Ar An measured t ref other Hr Ho Npo Epr).
      split; [intros _; right; left; exact Epr | reflexivity]. }
    rewrite (scalarTDOADistUpdate_off_anchors Ar An measured t ref other Hr Ho Npo Npr).
    fold p. destruct (Req_dec s 0) as [Es | Ns].
    + rewrite stateEstimatorScalarUpdate_zero by assumption.
      split; [intros _; right; right; exact Es | reflexivity].
    + rewrite stateEstimatorScalarUpdate_nonzero by assumption.
      split; [intros Habs; discriminate Habs|].
      intros [Habs | [Habs | Habs]]; contradiction.
  - (* a result, exactly when ... *)
    split.
    + intros (t' & Hok). repeat split.
      * intros Epo.
        rewrite (scalarTDOADistUpdate_on_other Ar An measured t ref other Hr Ho Epo) in Hok.
        discriminate Hok.
      * intros Epr. destruct (position_eq_dec p other) as [Epo | Npo].
        -- rewrite (scalarTDOADistUpdate_on_other Ar An measured t ref other Hr Ho Epo) in Hok.
           discriminate Hok.
        -- rewrite (scalarTDOADistUpdate_on_ref Ar An measured t ref other Hr Ho Npo Epr) in Hok.
           discriminate Hok.
      * intros Es. destruct (position_eq_dec p other) as [Epo | Npo].
        { rewrite (scalarTDOADistUpdate_on_other Ar An measured t ref other Hr Ho Epo) in Hok.
          discriminate Hok. }
        destruct (position_eq_dec p ref) as [Epr | Npr].
        { rewrite (scalarTDOADistUpdate_on_ref Ar An measured t ref other Hr Ho Npo Epr) in Hok.
          discriminate Hok. }
        rewrite (scalarTDOADistUpdate_off_anchors Ar An measured t ref other Hr Ho Npo Npr)
          in Hok.
        fold p in Hok. rewrite stateEstimatorScalarUpdate_zero in Hok by assumption.
        discriminate Hok.
    + intros (Npo & Npr & Ns).
      rewrite (scalarTDOADistUpdate_off_anchors Ar An measured t ref other Hr Ho Npo Npr).
      fold p. rewrite stateEstimatorScalarUpdate_nonzero by assumption.
      eexists. reflexivity.
Qed.

(** On the constructed estimator, the update with the anchors 0 and 1
    returns. *)
Lemma C10_division_by_zero_witness :
  TDOA.getAncPosition 0 (constructed 8) = Ok (vec3d_t.mk 4.628 0.600 1.312) /\
  TDOA.getAncPosition 1 (constructed 8) = Ok (vec3d_t.mk 4.628 3.810 1.297) /\
  Eigen.is_matrix STATE_DIM STATE_DIM (TDOA.P (constructed 8)) /\
  is_psd (TDOA.P (constructed 8)) /\
  TDOA.stdDev (constructed 8) <> 0 /\
  exists t', TDOA.scalarTDOADistUpdate 0 1 0.5 (constructed 8) = Ok t'.
Proof.
  assert (Hr : TDOA.getAncPosition 0 (constructed 8) = Ok (vec3d_t.mk 4.628 0.600 1.312))
    by reflexivity.
  assert (Ho : TDOA.getAncPosition 1 (constructed 8) = Ok (vec3d_t.mk 4.628 3.810 1.297))
    by reflexivity.
  assert (HP : Eigen.is_matrix STATE_DIM STATE_DIM (TDOA.P (constructed 8)))
    by apply constructed_well_formed.
  assert (Hpsd : is_psd (TDOA.P (constructed 8))) by apply constructed_covariance.
  assert (Hsigma : TDOA.stdDev (constructed 8) <> 0) by (cbn; lra).
  split; [exact Hr|]. split; [exact Ho|]. split; [exact HP|].
  split; [exact Hpsd|]. split; [exact Hsigma|].
  destruct (C10_division_by_zero 0 1 0.5 (constructed 8) _ _ Hr Ho HP)
    as (_ & Hreturns & Hnonzero).
  apply Hreturns.
  destruct constructed_off_anchors as [Hpo Hpr].
  split; [exact Hpo|]. split; [exact Hpr|]. apply Hnonzero; assumption.
Defined.

(** * Further properties of the estimator *)

(** ** Observations that carry no information *)

Lemma kalman_gain_zero_row (P : Eigen.MatrixXf) (sigma : R) :
  Eigen.is_matrix STATE_DIM STATE_DIM P ->
  kalman_gain [0; 0; 0; 0; 0; 0] P sigma = [0; 0; 0; 0; 0; 0].
Proof.
  intros HP. unfold kalman_gain.
  set (s := innovation_variance _ _ _). clearbody s.
  explode_matrix HP. cbn. unfold Rdiv. list_eq.
Qed.

Lemma stateEstimatorScalarUpdate_zero_row (r sigma : R) (t : TDOA.t) :
  well_formed t -> sigma <> 0 ->
  TDOA.stateEstimatorScalarUpdate [0; 0; 0; 0; 0; 0] r sigma t = Ok t.
Proof.
  destruct t as [c n S P A anchors sd]. unfold well_formed.
  cbn [TDOA.S TDOA.P TDOA.A]. intros (HS & HP & _) Hsigma.
  assert (HH : Eigen.is_vector STATE_DIM [0; 0; 0; 0; 0; 0]) by reflexivity.
  assert (Hs : innovation_variance [0; 0; 0; 0; 0; 0] P sigma <> 0).
  { rewrite <- innovation_variance_code by assumption.
    pose proof HP as HP'. explode_matrix HP'. cbn.
    match goal with
    | |- ?e <> 0 => replace e with (sigma * sigma) by ring
    end.
    apply Rmult_integral_contrapositive_currified; assumption. }
  rewrite stateEstimatorScalarUpdate_nonzero by assumption.
  cbn [TDOA.S TDOA.P TDOA.A TDOA.tdoaCount TDOA.nr_states TDOA.anchorPosition TDOA.stdDev].
  unfold updated_covariance. rewrite kalman_gain_zero_row by assumption.
  f_equal. f_equal.
  - explode_vector HS. cbn. list_eq.
  - explode_matrix HP. cbn. list_eq.
Qed.

Lemma range_difference_jacobian_same (p a : vec3d_t.t) :
  range_difference_jacobian p a a = [0; 0; 0; 0; 0; 0].
Proof. unfold range_difference_jacobian. list_eq. Qed.

(** ** The orientation of an observation *)

Lemma mat_vec_opp (M : Eigen.MatrixXf) (v : list R) :
  Eigen.is_matrix STATE_DIM STATE_DIM M -> Eigen.is_vector STATE_DIM v ->
  Eigen.mat_vec M (map Ropp v) = map Ropp (Eigen.mat_vec M v).
Proof. intros HM Hv. explode_matrix HM. explode_vector Hv. cbn. list_eq. Qed.

Lemma dot_opp_opp (u v : list R) :
  Eigen.is_vector STATE_DIM u -> Eigen.is_vector STATE_DIM v ->
  Eigen.dot (map Ropp u) (map Ropp v) = Eigen.dot u v.
Proof. intros Hu Hv. explode_vector Hu. explode_vector Hv. cbn. ring. Qed.

Lemma vec_add_scale_opp (S w : list R) (a r : R) :
  Eigen.is_vector STATE_DIM S -> Eigen.is_vector STATE_DIM w ->
  Eigen.vec_add S (Eigen.vec_scale (map (fun b => b / a) (map Ropp w)) (- r))
  = Eigen.vec_add S (Eigen.vec_scale (map (fun b => b / a) w) r).
Proof.
  intros HS Hw. explode_vector HS. explode_vector Hw. cbn. unfold Rdiv. list_eq.
Qed.

Lemma outer_opp_opp (w H : list R) (a : R) :
  Eigen.is_vector STATE_DIM w -> Eigen.is_vector STATE_DIM H ->
  Eigen.outer (map (fun b => b / a) (map Ropp w)) (map Ropp H)
  = Eigen.outer (map (fun b => b / a) w) H.
Proof.
  intros Hw HH. explode_vector Hw. explode_vector HH. cbn. unfold Rdiv. list_eq.
Qed.

(** Negating the observation row and the residual gives the same update. *)
Lemma stateEstimatorScalarUpdate_opp (H : list R) (r sigma : R) (t : TDOA.t) :
  Eigen.is_vector STATE_DIM H -> well_formed t ->
  TDOA.stateEstimatorScalarUpdate (map Ropp H) (- r) sigma t
  = TDOA.stateEstimatorScalarUpdate H r sigma t.
Proof.
  intros HH (HS & HP & _). unfold TDOA.stateEstimatorScalarUpdate.
  assert (Hw : Eigen.is_vector STATE_DIM (Eigen.mat_vec (TDOA.P t) H))
    by (apply mat_vec_shape; assumption).
  rewrite mat_vec_opp, dot_opp_opp by assumption.
  unfold Eigen.vec_div.
  destruct (Req_dec_T (Eigen.dot H (Eigen.mat_vec (TDOA.P t) H) + sigma * sigma) 0)
    as [E | E]; [reflexivity|].
  cbn [bind]. rewrite vec_add_scale_opp, outer_opp_opp by assumption.
  reflexivity.
Qed.

Lemma range_difference_jacobian_swap (p a b : vec3d_t.t) :
  range_difference_jacobian p a b = map Ropp (range_difference_jacobian p b a).
Proof. unfold range_difference_jacobian. cbn. list_eq. Qed.

(** ** Replacing the matrices *)

Lemma cols_of_matrix (M : Eigen.MatrixXf) (r c : nat) :
  Eigen.is_matrix r c M -> (0 < r)%nat -> Eigen.cols M = c.
Proof.
  intros [Hlen Hrows] Hr. destruct M as [|row M]; [cbn in Hlen; lia|].
  apply Forall_inv in Hrows. exact Hrows.
Qed.

Lemma size_guard (M : Eigen.MatrixXf) (r c : nat) (n : Z) :
  Eigen.is_matrix r c M -> n = 6%Z ->
  (negb (Z.of_nat (Eigen.rows M) =? n)%Z || negb (Z.of_nat (Eigen.cols M) =? n)%Z)%bool
  = negb ((r =? 6)%nat && (c =? 6)%nat).
Proof.
  intros HM ->. pose proof HM as [Hlen _]. unfold Eigen.rows. rewrite Hlen.
  destruct (Nat.eqb_spec r 6) as [-> | Hr].
  - rewrite (cols_of_matrix M 6 c HM) by lia. cbn [Z.of_nat negb orb andb].
    replace (Z.of_nat 6 =? 6)%Z with true by reflexivity. cbn [negb orb].
    destruct (Nat.eqb_spec c 6) as [-> | Hc]; [reflexivity|].
    replace (Z.of_nat c =? 6)%Z with false; [reflexivity|].
    symmetry. apply Z.eqb_neq. lia.
  - replace (Z.of_nat r =? 6)%Z with false; [reflexivity|].
    symmetry. apply Z.eqb_neq. lia.
Qed.

(** X1: on an estimator of state dimension 6, [setTransitionMat] called
    with an r x c matrix replaces [A] by it when r = c = 6 and changes no
    other member; for every other size the call changes nothing. *)
Theorem X1_setTransitionMat (M : Eigen.MatrixXf) (r c : nat) (t : TDOA.t) :
  TDOA.nr_states t = 6%Z ->
  Eigen.is_matrix r c M ->
  let t' := TDOA.setTransitionMat M t in
  (r = 6%nat /\ c = 6%nat ->
   TDOA.A t' = M /\ TDOA.S t' = TDOA.S t /\ TDOA.P t' = TDOA.P t /\
   TDOA.anchorPosition t' = TDOA.anchorPosition t /\ TDOA.stdDev t' = TDOA.stdDev t /\
   TDOA.nr_states t' = TDOA.nr_states t) /\
  (r <> 6%nat \/ c <> 6%nat -> t' = t).
Proof.
  intros Hn HM t'. unfold t', TDOA.setTransitionMat.
  rewrite (size_guard M r c _ HM Hn). split.
  - intros [-> ->]. cbn. repeat split.
  - intros Hrc. destruct (Nat.eqb_spec r 6), (Nat.eqb_spec c 6); cbn; try reflexivity.
    lia.
Qed.

(** A 6x6 matrix on the constructed estimator. *)
Lemma X1_setTransitionMat_witness :
  TDOA.nr_states (constructed 8) = 6%Z /\
  Eigen.is_matrix 6 6 (Eigen.Identity 6) /\
  TDOA.A (TDOA.setTransitionMat (Eigen.Identity 6) (constructed 8)) = Eigen.Identity 6.
Proof.
  assert (Hn : TDOA.nr_states (constructed 8) = 6%Z) by reflexivity.
  assert (HM : Eigen.is_matrix 6 6 (Eigen.Identity 6)) by apply Identity_shape.
  split; [exact Hn|]. split; [exact HM|].
  apply (X1_setTransitionMat (Eigen.Identity 6) 6 6 (constructed 8) Hn HM).
  split; reflexivity.
Defined.

(** X2: on an estimator of state dimension 6, [setPredictionMat] called
    with an r x c matrix replaces [P] by it when r = c = 6 and changes no
    other member; for every other size the call changes nothing. *)
Theorem X2_setPredictionMat (M : Eigen.MatrixXf) (r c : nat) (t : TDOA.t) :
  TDOA.nr_states t = 6%Z ->
  Eigen.is_matrix r c M ->
  let t' := TDOA.setPredictionMat M t in
  (r = 6%nat /\ c = 6%nat ->
   TDOA.P t' = M /\ TDOA.S t' = TDOA.S t /\ TDOA.A t' = TDOA.A t /\
   TDOA.anchorPosition t' = TDOA.anchorPosition t /\ TDOA.stdDev t' = TDOA.stdDev t /\
   TDOA.nr_states t' = TDOA.nr_states t) /\
  (r <> 6%nat \/ c <> 6%nat -> t' = t).
Proof.
  intros Hn HM t'. unfold t', TDOA.setPredictionMat.
  rewrite (size_guard M r c _ HM Hn). split.
  - intros [-> ->]. cbn. repeat split.
  - intros Hrc. destruct (Nat.eqb_spec r 6), (Nat.eqb_spec c 6); cbn; try reflexivity.
    lia.
Qed.

(** A 5x6 matrix on the constructed estimator is ignored. *)
Lemma X2_setPredictionMat_witness :
  TDOA.nr_states (constructed 8) = 6%Z /\
  Eigen.is_matrix 5 6 (repeat (repeat 0 6) 5) /\
  TDOA.setPredictionMat (repeat (repeat 0 6) 5) (constructed 8) = constructed 8.
Proof.
  assert (Hn : TDOA.nr_states (constructed 8) = 6%Z) by reflexivity.
  assert (HM : Eigen.is_matrix 5 6 (repeat (repeat 0 6) 5))
    by (split; [reflexivity | repeat constructor]).
  split; [exact Hn|]. split; [exact HM|].
  apply (X2_setPredictionMat (repeat (repeat 0 6) 5) 5 6 (constructed 8) Hn HM).
  left. discriminate.
Defined.

(** ** The anchor table *)

(** X3: a position stored with [setAncPosition(anc_num, x, y, z)] at an
    index of [0, MAX_NR_ANCHORS) is what [getAncPosition(anc_num)] returns
    afterwards; the other anchors, the state, the matrices and the noise
    standard deviation are as before. *)
Theorem X3_anchor_round_trip
    (MAX_NR_ANCHORS anc_num : Z) (x y z : R) (t : TDOA.t) :
  length (TDOA.anchorPosition t) = Z.to_nat MAX_NR_ANCHORS ->
  (0 <= anc_num < MAX_NR_ANCHORS)%Z ->
  exists t', TDOA.setAncPosition_xyz MAX_NR_ANCHORS anc_num x y z t = Ok t' /\
    TDOA.getAncPosition anc_num t' = Ok (vec3d_t.mk x y z) /\
    (forall i : Z, i <> anc_num -> TDOA.getAncPosition i t' = TDOA.getAncPosition i t) /\
    TDOA.S t' = TDOA.S t /\ TDOA.P t' = TDOA.P t /\ TDOA.A t' = TDOA.A t /\
    TDOA.stdDev t' = TDOA.stdDev t.
Proof.
  intros Hlen Hin. unfold TDOA.setAncPosition_xyz.
  apply setAncPosition_inside; assumption.
Qed.

(** Anchor 5 of 8 on the constructed estimator. *)
Lemma X3_anchor_round_trip_witness :
  length (TDOA.anchorPosition (constructed 8)) = Z.to_nat 8 /\
  (0 <= 5 < 8)%Z /\
  exists t', TDOA.setAncPosition_xyz 8 5 1 2 3 (constructed 8) = Ok t' /\
    TDOA.getAncPosition 5 t' = Ok (vec3d_t.mk 1 2 3).
Proof.
  assert (Hlen : length (TDOA.anchorPosition (constructed 8)) = Z.to_nat 8) by reflexivity.
  assert (Hin : (0 <= 5 < 8)%Z) by lia.
  split; [exact Hlen|]. split; [exact Hin|].
  destruct (X3_anchor_round_trip 8 5 1 2 3 (constructed 8) Hlen Hin) as (t' & Hok & Hget & _).
  exists t'. split; assumption.
Defined.

(** ** Range-difference updates *)

(** X4: a range difference measured between an anchor and itself carries
    no information: whatever the measured value, the update returns the
    estimator unchanged (the position being off the anchor and the noise
    standard deviation not zero). *)
Theorem X4_same_anchor_no_op (a : Z) (measured : R) (t : TDOA.t) (pos : vec3d_t.t) :
  TDOA.getAncPosition a t = Ok pos ->
  TDOA.getLocation t <> pos ->
  well_formed t ->
  TDOA.stdDev t <> 0 ->
  TDOA.scalarTDOADistUpdate a a measured t = Ok t.
Proof.
  intros Ha Hp Hwf Hsigma.
  rewrite (scalarTDOADistUpdate_off_anchors a a measured t pos pos Ha Ha Hp Hp).
  rewrite range_difference_jacobian_same.
  apply stateEstimatorScalarUpdate_zero_row; assumption.
Qed.

(** Anchor 1 against itself on the constructed estimator. *)
Lemma X4_same_anchor_no_op_witness :
  TDOA.getAncPosition 1 (constructed 8) = Ok (vec3d_t.mk 4.628 3.810 1.297) /\
  TDOA.getLocation (constructed 8) <> vec3d_t.mk 4.628 3.810 1.297 /\
  well_formed (constructed 8) /\
  TDOA.stdDev (constructed 8) <> 0 /\
  TDOA.scalarTDOADistUpdate 1 1 0.5 (constructed 8) = Ok (constructed 8).
Proof.
  assert (Ha : TDOA.getAncPosition 1 (constructed 8) = Ok (vec3d_t.mk 4.628 3.810 1.297))
    by reflexivity.
  destruct constructed_off_anchors as [Hp _].
  assert (Hwf : well_formed (constructed 8)) by apply constructed_well_formed.
  assert (Hsigma : TDOA.stdDev (constructed 8) <> 0) by (cbn; lra).
  split; [exact Ha|]. split; [exact Hp|]. split; [exact Hwf|]. split; [exact Hsigma|].
  apply (X4_same_anchor_no_op 1 0.5 (constructed 8) _ Ha Hp Hwf Hsigma).
Defined.

(** X5: the orientation of the anchor pair does not matter: exchanging
    the reference anchor and the other anchor and negating the measured
    range difference gives the same update, result or fault. *)
Theorem X5_anchor_pair_orientation
    (Ar An : Z) (measured : R) (t : TDOA.t) (ref other : vec3d_t.t) :
  TDOA.getAncPosition Ar t = Ok ref ->
  TDOA.getAncPosition An t = Ok other ->
  well_formed t ->
  TDOA.scalarTDOADistUpdate An Ar (- measured) t
  = TDOA.scalarTDOADistUpdate Ar An measured t.
Proof.
  intros Hr Ho Hwf.
  destruct (position_eq_dec (TDOA.getLocation t) other) as [Epo | Npo].
  { rewrite (scalarTDOADistUpdate_on_other Ar An measured t ref other Hr Ho Epo).
    destruct (position_eq_dec (TDOA.getLocation t) ref) as [Epr | Npr].
    - apply (scalarTDOADistUpdate_on_other An Ar _ t other ref Ho Hr Epr).
    - apply (scalarTDOADistUpdate_on_ref An Ar _ t other ref Ho Hr Npr Epo). }
  destruct (position_eq_dec (TDOA.getLocation t) ref) as [Epr | Npr].
  { rewrite (scalarTDOADistUpdate_on_ref Ar An measured t ref other Hr Ho Npo Epr).
    apply (scalarTDOADistUpdate_on_other An Ar _ t other ref Ho Hr Epr). }
  rewrite (scalarTDOADistUpdate_off_anchors Ar An measured t ref other Hr Ho Npo Npr).
  rewrite (scalarTDOADistUpdate_off_anchors An Ar (- measured) t other ref Ho Hr Npr Npo).
  rewrite (range_difference_jacobian_swap _ ref other).
  replace (- measured - (distance (TDOA.getLocation t) ref
                         - distance (TDOA.getLocation t) other))
    with (- (measured - (distance (TDOA.getLocation t) other
                         - distance (TDOA.getLocation t) ref))) by ring.
  apply stateEstimatorScalarUpdate_opp;
    [apply range_difference_jacobian_shape | exact Hwf].
Qed.

(** The anchors 0 and 1 on the constructed estimator. *)
Lemma X5_anchor_pair_orientation_witness :
  TDOA.getAncPosition 0 (constructed 8) = Ok (vec3d_t.mk 4.628 0.600 1.312) /\
  TDOA.getAncPosition 1 (constructed 8) = Ok (vec3d_t.mk 4.628 3.810 1.297) /\
  well_formed (constructed 8) /\
  TDOA.scalarTDOADistUpdate 1 0 (- (0.5)) (constructed 8)
  = TDOA.scalarTDOADistUpdate 0 1 0.5 (constructed 8).
Proof.
  assert (Hr : TDOA.getAncPosition 0 (constructed 8) = Ok (vec3d_t.mk 4.628 0.600 1.312))
    by reflexivity.
  assert (Ho : TDOA.getAncPosition 1 (constructed 8) = Ok (vec3d_t.mk 4.628 3.810 1.297))
    by reflexivity.
  assert (Hwf : well_formed (constructed 8)) by apply constructed_well_formed.
  split; [exact Hr|]. split; [exact Ho|]. split; [exact Hwf|].
  apply (X5_anchor_pair_orientation 0 1 0.5 (constructed 8) _ _ Hr Ho Hwf).
Defined.

(** X6: in exact arithmetic, a measured range difference equal to the one
    predicted from the current position estimate leaves the state vector,
    hence the location, unchanged. *)
Theorem X6_consistent_measurement
    (Ar An : Z) (t : TDOA.t) (ref other : vec3d_t.t) :
  TDOA.getAncPosition Ar t = Ok ref ->
  TDOA.getAncPosition An t = Ok other ->
  TDOA.getLocation t <> other ->
  TDOA.getLocation t <> ref ->
  well_formed t ->
  is_psd (TDOA.P t) ->
  TDOA.stdDev t <> 0 ->
  let p := TDOA.getLocation t in
  exists t', TDOA.scalarTDOADistUpdate Ar An (distance p other - distance p ref) t = Ok t' /\
    TDOA.S t' = TDOA.S t /\ TDOA.getLocation t' = TDOA.getLocation t.
Proof.
  intros Hr Ho Hpo Hpr (HS & HP & HA) Hpsd Hsigma p.
  rewrite (scalarTDOADistUpdate_off_anchors Ar An _ t ref other Hr Ho Hpo Hpr).
  fold p. pose proof (range_difference_jacobian_shape p other ref) as HH.
  assert (Hpos : 0 < innovation_variance (range_difference_jacobian p other ref)
                       (TDOA.P t) (TDOA.stdDev t))
    by (apply innovation_variance_pos; assumption).
  rewrite stateEstimatorScalarUpdate_nonzero by (try assumption; lra).
  eexists; split; [reflexivity|].
  assert (E : Eigen.vec_add (TDOA.S t)
                (Eigen.vec_scale
                   (kalman_gain (range_difference_jacobian p other ref) (TDOA.P t)
                                (TDOA.stdDev t))
                   (distance p other - distance p ref - (distance p other - distance p ref)))
              = TDOA.S t).
  { replace (distance p other - distance p ref - (distance p other - distance p ref))
      with 0 by ring.
    apply vec_add_scale_0; [assumption | apply kalman_gain_shape; assumption]. }
  split; [exact E|]. unfold TDOA.getLocation. cbn [TDOA.S]. rewrite E. reflexivity.
Qed.

(** The anchors 0 and 1 on the constructed estimator. *)
Lemma X6_consistent_measurement_witness :
  TDOA.getAncPosition 0 (constructed 8) = Ok (vec3d_t.mk 4.628 0.600 1.312) /\
  TDOA.getAncPosition 1 (constructed 8) = Ok (vec3d_t.mk 4.628 3.810 1.297) /\
  TDOA.getLocation (constructed 8) <> vec3d_t.mk 4.628 3.810 1.297 /\
  TDOA.getLocation (constructed 8) <> vec3d_t.mk 4.628 0.600 1.312 /\
  well_formed (constructed 8) /\
  is_psd (TDOA.P (constructed 8)) /\
  TDOA.stdDev (constructed 8) <> 0 /\
  exists t',
    TDOA.scalarTDOADistUpdate 0 1
      (distance (TDOA.getLocation (constructed 8)) (vec3d_t.mk 4.628 3.810 1.297)
       - distance (TDOA.getLocation (constructed 8)) (vec3d_t.mk 4.628 0.600 1.312))
      (constructed 8) = Ok t' /\
    TDOA.getLocation t' = TDOA.getLocation (constructed 8).
Proof.
  assert (Hr : TDOA.getAncPosition 0 (constructed 8) = Ok (vec3d_t.mk 4.628 0.600 1.312))
    by reflexivity.
  assert (Ho : TDOA.getAncPosition 1 (constructed 8) = Ok (vec3d_t.mk 4.628 3.810 1.297))
    by reflexivity.
  destruct constructed_off_anchors as [Hpo Hpr].
  assert (Hwf : well_formed (constructed 8)) by apply constructed_well_formed.
  assert (Hpsd : is_psd (TDOA.P (constructed 8))) by apply constructed_covariance.
  assert (Hsigma : TDOA.stdDev (constructed 8) <> 0) by (cbn; lra).
  split; [exact Hr|]. split; [exact Ho|]. split; [exact Hpo|]. split; [exact Hpr|].
  split; [exact Hwf|]. split; [exact Hpsd|]. split; [exact Hsigma|].
  destruct (X6_consistent_measurement 0 1 (constructed 8) _ _ Hr Ho Hpo Hpr Hwf Hpsd Hsigma)
    as (t' & Hok & _ & Hloc).
  exists t'. split; assumption.
Defined.

(** ** What an update does to the uncertainty *)

(** X7: in exact arithmetic, the scalar update with a noise standard
    deviation that is not zero returns, and the variance [H P H^T] of the
    observed quantity becomes [h sigma^2 / (h + sigma^2)], where [h] is its
    value before: it does not grow and stays non-negative. *)
Theorem X7_observed_variance_shrinks (H : list R) (r sigma : R) (t : TDOA.t) :
  Eigen.is_vector STATE_DIM H ->
  is_covariance (TDOA.P t) ->
  sigma <> 0 ->
  let h := observed_variance H (TDOA.P t) in
  exists t', TDOA.stateEstimatorScalarUpdate H r sigma t = Ok t' /\
    observed_variance H (TDOA.P t') = h * sigma ^ 2 / (h + sigma ^ 2) /\
    0 <= observed_variance H (TDOA.P t') <= h.
Proof.
  intros HH HP Hsigma h. pose proof HP as (Hshape & Hsym & Hpsd).
  assert (Hpos : 0 < innovation_variance H (TDOA.P t) sigma)
    by (apply innovation_variance_pos; assumption).
  rewrite stateEstimatorScalarUpdate_nonzero by (try assumption; lra).
  eexists; split; [reflexivity|]. cbn [TDOA.P].
  assert (Hw : Eigen.is_vector STATE_DIM (Eigen.mat_vec (TDOA.P t) H))
    by (apply mat_vec_shape; assumption).
  assert (Hh : 0 <= h) by (apply Hpsd, HH).
  assert (Hs : innovation_variance H (TDOA.P t) sigma = h + sigma ^ 2).
  { rewrite <- innovation_variance_code by assumption. unfold h, observed_variance. ring. }
  assert (Hsq : 0 < sigma ^ 2).
  { pose proof (pow2_ge_0 sigma). destruct (Req_dec (sigma ^ 2) 0) as [E | E]; [|lra].
    exfalso. apply (pow_nonzero sigma 2 Hsigma E). }
  assert (E : observed_variance H (updated_covariance H (TDOA.P t) sigma)
              = h * sigma ^ 2 / (h + sigma ^ 2)).
  { unfold observed_variance at 1.
    rewrite covariance_update_symmetric_form by assumption.
    rewrite quadratic_form_rank_one
      by (try assumption; apply vec_scale_shape; assumption).
    rewrite dot_vec_scale by assumption.
    rewrite (dot_comm (Eigen.mat_vec (TDOA.P t) H) H) by assumption.
    rewrite Hs. fold (observed_variance H (TDOA.P t)). fold h.
    field. lra. }
  split; [exact E|]. rewrite E.
  assert (Hden : 0 < / (h + sigma ^ 2)) by (apply Rinv_0_lt_compat; lra).
  split.
  - unfold Rdiv. apply Rmult_le_pos; [apply Rmult_le_pos|]; lra.
  - replace (h * sigma ^ 2 / (h + sigma ^ 2)) with (h - h * h / (h + sigma ^ 2))
      by (field; lra).
    assert (0 <= h * h / (h + sigma ^ 2))
      by (unfold Rdiv; apply Rmult_le_pos; [apply Rmult_le_pos|]; lra).
    lra.
Qed.

(** An observation of the x position on the constructed estimator. *)
Lemma X7_observed_variance_shrinks_witness :
  Eigen.is_vector STATE_DIM [1; 0; 0; 0; 0; 0] /\
  is_covariance (TDOA.P (constructed 8)) /\
  0.15 <> 0 /\
  exists t', TDOA.stateEstimatorScalarUpdate [1; 0; 0; 0; 0; 0] 1 0.15 (constructed 8) = Ok t' /\
    observed_variance [1; 0; 0; 0; 0; 0] (TDOA.P t')
    <= observed_variance [1; 0; 0; 0; 0; 0] (TDOA.P (constructed 8)).
Proof.
  assert (HH : Eigen.is_vector STATE_DIM [1; 0; 0; 0; 0; 0]) by reflexivity.
  assert (HP : is_covariance (TDOA.P (constructed 8))) by apply constructed_covariance.
  assert (Hsigma : 0.15 <> 0) by lra.
  split; [exact HH|]. split; [exact HP|]. split; [exact Hsigma|].
  destruct (X7_observed_variance_shrinks [1; 0; 0; 0; 0; 0] 1 0.15 (constructed 8)
              HH HP Hsigma) as (t' & Hok & _ & _ & Hle).
  exists t'. split; assumption.
Defined.

(** ** Prediction with the constructor's transition matrix *)

Lemma predict_default_transition_entries (P : Eigen.MatrixXf) (k : nat) :
  Eigen.is_matrix STATE_DIM STATE_DIM P -> (k < 3)%nat ->
  let P' := predicted_covariance default_transition P in
  Eigen.coeffM P' k k
  = Eigen.coeffM P k k + 0.016 * (Eigen.coeffM P k (k + 3) + Eigen.coeffM P (k + 3) k)
    + 0.016 ^ 2 * Eigen.coeffM P (k + 3) (k + 3) /\
  Eigen.coeffM P' k (k + 3)
  = Eigen.coeffM P k (k + 3) + 0.016 * Eigen.coeffM P (k + 3) (k + 3) /\
  Eigen.coeffM P' (k + 3) k
  = Eigen.coeffM P (k + 3) k + 0.016 * Eigen.coeffM P (k + 3) (k + 3) /\
  Eigen.coeffM P' (k + 3) (k + 3) = Eigen.coeffM P (k + 3) (k + 3).
Proof.
  intros HP Hk. explode_matrix HP.
  destruct k as [|[|[|k]]]; try lia; cbn; repeat split; ring.
Qed.

(** X8: in exact arithmetic, with the transition matrix the constructor
    sets, [predict()] adds to the variance of each position component 0.016
    times the two covariances between it and its velocity plus 0.016^2
    times the variance of the velocity, adds 0.016 times the velocity
    variance to these covariances, and leaves the velocity variance as it
    is. *)
Theorem X8_predict_default_transition (t : TDOA.t) (k : nat) :
  TDOA.A t = default_transition ->
  Eigen.is_matrix STATE_DIM STATE_DIM (TDOA.P t) ->
  (k < 3)%nat ->
  let P := TDOA.P t in
  let P' := TDOA.P (TDOA.stateEstimatorPredict t) in
  Eigen.coeffM P' k k
  = Eigen.coeffM P k k + 0.016 * (Eigen.coeffM P k (k + 3) + Eigen.coeffM P (k + 3) k)
    + 0.016 ^ 2 * Eigen.coeffM P (k + 3) (k + 3) /\
  Eigen.coeffM P' k (k + 3)
  = Eigen.coeffM P k (k + 3) + 0.016 * Eigen.coeffM P (k + 3) (k + 3) /\
  Eigen.coeffM P' (k + 3) k
  = Eigen.coeffM P (k + 3) k + 0.016 * Eigen.coeffM P (k + 3) (k + 3) /\
  Eigen.coeffM P' (k + 3) (k + 3) = Eigen.coeffM P (k + 3) (k + 3).
Proof.
  intros HA HP Hk P P'. unfold P', TDOA.stateEstimatorPredict. cbn [TDOA.P TDOA.with_P].
  rewrite HA. apply (predict_default_transition_entries P k HP Hk).
Qed.

(** The y component on the constructed estimator. *)
Lemma X8_predict_default_transition_witness :
  TDOA.A (constructed 8) = default_transition /\
  Eigen.is_matrix STATE_DIM STATE_DIM (TDOA.P (constructed 8)) /\
  (1 < 3)%nat /\
  Eigen.coeffM (TDOA.P (TDOA.stateEstimatorPredict (constructed 8))) (1 + 3) (1 + 3)
  = Eigen.coeffM (TDOA.P (constructed 8)) (1 + 3) (1 + 3).
Proof.
  assert (HA : TDOA.A (constructed 8) = default_transition) by reflexivity.
  assert (HP : Eigen.is_matrix STATE_DIM STATE_DIM (TDOA.P (constructed 8)))
    by apply constructed_well_formed.
  assert (Hk : (1 < 3)%nat) by lia.
  split; [exact HA|]. split; [exact HP|]. split; [exact Hk|].
  apply (X8_predict_default_transition (constructed 8) 1 HA HP Hk).
Defined.

(** The conditions under which a position variance grows, and which
    [predict()] keeps. *)
Lemma predict_growth_conditions (t : TDOA.t) (k : nat) :
  TDOA.A t = default_transition ->
  Eigen.is_matrix STATE_DIM STATE_DIM (TDOA.P t) ->
  (k < 3)%nat ->
  0 <= Eigen.coeffM (TDOA.P t) k (k + 3) ->
  0 <= Eigen.coeffM (TDOA.P t) (k + 3) k ->
  0 < Eigen.coeffM (TDOA.P t) (k + 3) (k + 3) ->
  let t' := TDOA.stateEstimatorPredict t in
  Eigen.coeffM (TDOA.P t) k k < Eigen.coeffM (TDOA.P t') k k /\
  TDOA.A t' = default_transition /\
  Eigen.is_matrix STATE_DIM STATE_DIM (TDOA.P t') /\
  0 <= Eigen.coeffM (TDOA.P t') k (k + 3) /\
  0 <= Eigen.coeffM (TDOA.P t') (k + 3) k /\
  0 < Eigen.coeffM (TDOA.P t') (k + 3) (k + 3).
Proof.
  intros HA HP Hk Hc1 Hc2 Hv t'.
  assert (HP' : Eigen.is_matrix STATE_DIM STATE_DIM (TDOA.P t')).
  { unfold t', TDOA.stateEstimatorPredict. cbn [TDOA.P TDOA.with_P].
    apply mat_mul_shape; [apply mat_mul_shape|apply transpose_shape]; try assumption;
      rewrite HA; apply is_matrix_rows; reflexivity. }
  unfold t', TDOA.stateEstimatorPredict in *. cbn [TDOA.P TDOA.A TDOA.with_P] in *.
  rewrite HA in *.
  destruct (predict_default_transition_entries (TDOA.P t) k HP Hk) as (E1 & E2 & E3 & E4).
  unfold predicted_covariance in E1, E2, E3, E4. rewrite E1, E2, E3, E4.
  split; [nra|]. split; [reflexivity|]. split; [exact HP'|].
  split; [lra|]. split; lra.
Qed.

(** X9: in exact arithmetic, repeated [predict()] with the constructor's
    transition matrix and no update in between makes the variance of a
    position component strictly larger at every call, as long as the
    covariances between the component and its velocity are not negative and
    the velocity variance is positive at the start. *)
Theorem X9_repeated_predict_grows (t : TDOA.t) (k n : nat) :
  TDOA.A t = default_transition ->
  Eigen.is_matrix STATE_DIM STATE_DIM (TDOA.P t) ->
  (k < 3)%nat ->
  0 <= Eigen.coeffM (TDOA.P t) k (k + 3) ->
  0 <= Eigen.coeffM (TDOA.P t) (k + 3) k ->
  0 < Eigen.coeffM (TDOA.P t) (k + 3) (k + 3) ->
  Eigen.coeffM (TDOA.P (Nat.iter n TDOA.stateEstimatorPredict t)) k k
  < Eigen.coeffM (TDOA.P (Nat.iter (S n) TDOA.stateEstimatorPredict t)) k k.
Proof.
  intros HA HP Hk Hc1 Hc2 Hv.
  assert (Hinv : forall m,
             let u := Nat.iter m TDOA.stateEstimatorPredict t in
             TDOA.A u = default_transition /\
             Eigen.is_matrix STATE_DIM STATE_DIM (TDOA.P u) /\
             0 <= Eigen.coeffM (TDOA.P u) k (k + 3) /\
             0 <= Eigen.coeffM (TDOA.P u) (k + 3) k /\
             0 < Eigen.coeffM (TDOA.P u) (k + 3) (k + 3)).
  { induction m as [|m IH].
    - exact (conj HA (conj HP (conj Hc1 (conj Hc2 Hv)))).
    - destruct IH as (IA & IP & I1 & I2 & I3).
      destruct (predict_growth_conditions _ k IA IP Hk I1 I2 I3) as (_ & Hrest).
      exact Hrest. }
  destruct (Hinv n) as (IA & IP & I1 & I2 & I3).
  destruct (predict_growth_conditions _ k IA IP Hk I1 I2 I3) as (Hlt & _).
  exact Hlt.
Qed.

(** The x component on the constructed estimator, third call. *)
Lemma X9_repeated_predict_grows_witness :
  TDOA.A (constructed 8) = default_transition /\
  Eigen.is_matrix STATE_DIM STATE_DIM (TDOA.P (constructed 8)) /\
  (0 < 3)%nat /\
  0 <= Eigen.coeffM (TDOA.P (constructed 8)) 0 (0 + 3) /\
  0 <= Eigen.coeffM (TDOA.P (constructed 8)) (0 + 3) 0 /\
  0 < Eigen.coeffM (TDOA.P (constructed 8)) (0 + 3) (0 + 3) /\
  Eigen.coeffM (TDOA.P (Nat.iter 2 TDOA.stateEstimatorPredict (constructed 8))) 0 0
  < Eigen.coeffM (TDOA.P (Nat.iter 3 TDOA.stateEstimatorPredict (constructed 8))) 0 0.
Proof.
  assert (HA : TDOA.A (constructed 8) = default_transition) by reflexivity.
  assert (HP : Eigen.is_matrix STATE_DIM STATE_DIM (TDOA.P (constructed 8)))
    by apply constructed_well_formed.
  assert (Hk : (0 < 3)%nat) by lia.
  assert (Hc1 : 0 <= Eigen.coeffM (TDOA.P (constructed 8)) 0 (0 + 3)) by (cbn; lra).
  assert (Hc2 : 0 <= Eigen.coeffM (TDOA.P (constructed 8)) (0 + 3) 0) by (cbn; lra).
  assert (Hv : 0 < Eigen.coeffM (TDOA.P (constructed 8)) (0 + 3) (0 + 3)) by (cbn; lra).
  split; [exact HA|]. split; [exact HP|]. split; [exact Hk|]. split; [exact Hc1|].
  split; [exact Hc2|]. split; [exact Hv|].
  apply (X9_repeated_predict_grows (constructed 8) 0 2 HA HP Hk Hc1 Hc2 Hv).
Defined.

(** ** The data model along sequences of calls *)

Lemma setAncPosition_frame (MAX_NR_ANCHORS anc_num : Z) (pos : vec3d_t.t) (t t' : TDOA.t) :
  TDOA.setAncPosition MAX_NR_ANCHORS anc_num pos t = Ok t' ->
  TDOA.S t' = TDOA.S t /\ TDOA.P t' = TDOA.P t /\ TDOA.A t' = TDOA.A t /\
  TDOA.stdDev t' = TDOA.stdDev t /\ TDOA.nr_states t' = TDOA.nr_states t.
Proof.
  unfold TDOA.setAncPosition.
  destruct ((anc_num <? 0)%Z || (anc_num >? MAX_NR_ANCHORS)%Z)%bool.
  - intros E. injection E as <-. repeat split.
  - destruct (TDOA.anchor_store (TDOA.anchorPosition t) anc_num pos) as [arr | f];
      cbn [bind]; intros E; [|discriminate E].
    injection E as <-. repeat split.
Qed.

Lemma stateEstimatorScalarUpdate_ok (H : list R) (r sigma : R) (t : TDOA.t) :
  Eigen.is_vector STATE_DIM H -> sigma <> 0 -> estimator_ok t ->
  exists t', TDOA.stateEstimatorScalarUpdate H r sigma t = Ok t' /\ estimator_ok t'.
Proof.
  intros HH Hsigma ((HS & HP & HA) & Hn & Hcov & Hstd).
  pose proof Hcov as (_ & Hsym & Hpsd).
  assert (Hpos : 0 < innovation_variance H (TDOA.P t) sigma)
    by (apply innovation_variance_pos; assumption).
  rewrite stateEstimatorScalarUpdate_nonzero by (try assumption; lra).
  eexists; split; [reflexivity|].
  assert (Hc : is_covariance (updated_covariance H (TDOA.P t) sigma))
    by (apply covariance_update_covariance; assumption).
  split; [|split; [exact Hn | split; [exact Hc | exact Hstd]]].
  split; [|split; [apply Hc | exact HA]].
  cbn [TDOA.S]. apply vec_add_shape; [assumption|].
  apply vec_scale_shape, kalman_gain_shape, HP.
Qed.

Lemma scalarTDOADistUpdate_ok (Ar An : Z) (d : R) (t t' : TDOA.t) :
  estimator_ok t -> TDOA.scalarTDOADistUpdate Ar An d t = Ok t' -> estimator_ok t'.
Proof.
  intros Hok Hcall. pose proof Hok as (_ & _ & _ & Hstd).
  destruct (TDOA.getAncPosition An t) as [other | f] eqn:Ho.
  2:{ unfold TDOA.scalarTDOADistUpdate in Hcall. unfold TDOA.getAncPosition in Ho.
      rewrite Ho in Hcall. discriminate Hcall. }
  destruct (TDOA.getAncPosition Ar t) as [ref | f] eqn:Hr.
  2:{ unfold TDOA.scalarTDOADistUpdate in Hcall. unfold TDOA.getAncPosition in Ho, Hr.
      rewrite Ho, Hr in Hcall. discriminate Hcall. }
  destruct (position_eq_dec (TDOA.getLocation t) other) as [Epo | Npo].
  { rewrite (scalarTDOADistUpdate_on_other Ar An d t ref other Hr Ho Epo) in Hcall.
    discriminate Hcall. }
  destruct (position_eq_dec (TDOA.getLocation t) ref) as [Epr | Npr].
  { rewrite (scalarTDOADistUpdate_on_ref Ar An d t ref other Hr Ho Npo Epr) in Hcall.
    discriminate Hcall. }
  rewrite (scalarTDOADistUpdate_off_anchors Ar An d t ref other Hr Ho Npo Npr) in Hcall.
  destruct (stateEstimatorScalarUpdate_ok
              (range_difference_jacobian (TDOA.getLocation t) other ref)
              (d - (distance (TDOA.getLocation t) other - distance (TDOA.getLocation t) ref))
              (TDOA.stdDev t) t (range_difference_jacobian_shape _ _ _) Hstd Hok)
    as (u & Hu & Huok).
  rewrite Hu in Hcall. injection Hcall as <-. exact Huok.
Qed.

Lemma setTransitionMat_ok (M : Eigen.MatrixXf) (t : TDOA.t) :
  is_rectangular M -> estimator_ok t -> estimator_ok (TDOA.setTransitionMat M t).
Proof.
  intros (r & c & HM) Hok. pose proof Hok as ((HS & HP & HA) & Hn & Hcov & Hstd).
  unfold TDOA.setTransitionMat. rewrite (size_guard M r c _ HM Hn).
  destruct (Nat.eqb_spec r 6) as [-> | Hr]; [|exact Hok].
  destruct (Nat.eqb_spec c 6) as [-> | Hc]; [|exact Hok].
  cbn [andb negb]. split; [|split; [exact Hn | split; [exact Hcov | exact Hstd]]].
  split; [exact HS | split; [exact HP | exact HM]].
Qed.

Lemma setPredictionMat_ok (M : Eigen.MatrixXf) (t : TDOA.t) :
  is_rectangular M -> (Eigen.is_matrix STATE_DIM STATE_DIM M -> is_covariance M) ->
  estimator_ok t -> estimator_ok (TDOA.setPredictionMat M t).
Proof.
  intros (r & c & HM) HMcov Hok. pose proof Hok as ((HS & HP & HA) & Hn & Hcov & Hstd).
  unfold TDOA.setPredictionMat. rewrite (size_guard M r c _ HM Hn).
  destruct (Nat.eqb_spec r 6) as [-> | Hr]; [|exact Hok].
  destruct (Nat.eqb_spec c 6) as [-> | Hc]; [|exact Hok].
  cbn [andb negb]. split; [|split; [exact Hn | split; [exact (HMcov HM) | exact Hstd]]].
  split; [exact HS | split; [exact HM | exact HA]].
Qed.

Lemma stateEstimatorPredict_ok (t : TDOA.t) :
  estimator_ok t -> estimator_ok (TDOA.stateEstimatorPredict t).
Proof.
  intros ((HS & HP & HA) & Hn & Hcov & Hstd).
  assert (Hc : is_covariance (predicted_covariance (TDOA.A t) (TDOA.P t)))
    by (apply covariance_predict_covariance; assumption).
  split; [|split; [exact Hn | split; [exact Hc | exact Hstd]]].
  split; [exact HS | split; [apply Hc | exact HA]].
Qed.

Lemma do_call_ok (MAX_NR_ANCHORS : Z) (c : call) (t t' : TDOA.t) :
  sensible c -> estimator_ok t -> do_call MAX_NR_ANCHORS c t = Ok t' -> estimator_ok t'.
Proof.
  intros Hc Hok Hcall. destruct c as [M | M | i pos | Ar An d | H e s |]; cbn in Hc, Hcall.
  - injection Hcall as <-. apply setTransitionMat_ok; assumption.
  - injection Hcall as <-. destruct Hc as [Hrect Hcov].
    apply setPredictionMat_ok; assumption.
  - destruct (setAncPosition_frame _ _ _ _ _ Hcall) as (ES & EP & EA & Estd & En).
    destruct Hok as ((HS & HP & HA) & Hn & Hcov & Hstd).
    unfold estimator_ok, well_formed. rewrite ES, EP, EA, Estd, En.
    exact (conj (conj HS (conj HP HA)) (conj Hn (conj Hcov Hstd))).
  - eapply scalarTDOADistUpdate_ok; eassumption.
  - destruct Hc as [HH Hs].
    destruct (stateEstimatorScalarUpdate_ok H e s t HH Hs Hok) as (u & Hu & Huok).
    rewrite Hu in Hcall. injection Hcall as <-. exact Huok.
  - injection Hcall as <-. apply stateEstimatorPredict_ok, Hok.
Qed.

Lemma constructed_ok (MAX_NR_ANCHORS : Z) : estimator_ok (constructed MAX_NR_ANCHORS).
Proof.
  split; [apply constructed_well_formed|]. split; [reflexivity|].
  split; [apply constructed_covariance | cbn; lra].
Qed.

(** X10: in exact arithmetic, the estimator keeps its data model.  From
    construction on, after every sequence of calls of its member functions
    that runs without a fault -- the matrices passed being rectangular, a
    6x6 covariance passed being symmetric positive semidefinite,
    observation rows having six entries and a noise standard deviation that
    is not zero -- the state has six components, [P] and [A] are 6x6, [P]
    is symmetric positive semidefinite with a non-negative diagonal, and
    the noise standard deviation is not zero. *)
Theorem X10_data_model_kept (MAX_NR_ANCHORS : Z) (cs : list call) (t0 t : TDOA.t) :
  TDOA.TDOA MAX_NR_ANCHORS = Ok t0 ->
  Forall sensible cs ->
  do_calls MAX_NR_ANCHORS cs t0 = Ok t ->
  well_formed t /\ is_covariance (TDOA.P t) /\ diag_nonneg (TDOA.P t) /\
  TDOA.stdDev t <> 0 /\ TDOA.nr_states t = 6%Z.
Proof.
  intros Hnew Hcs Hrun.
  assert (H0 : estimator_ok t0).
  { destruct (Z_lt_le_dec MAX_NR_ANCHORS 4) as [Hlt | Hge].
    - exfalso. unfold TDOA.TDOA, TDOA.initAnchorPos, TDOA.anchorPosition_decl in Hnew.
      destruct (Z.to_nat MAX_NR_ANCHORS) as [|[|[|[|n]]]] eqn:E; try lia;
        cbn in Hnew; discriminate Hnew.
    - rewrite TDOA_constructed in Hnew by assumption. injection Hnew as <-.
      apply constructed_ok. }
  clear Hnew. revert t0 H0 Hrun.
  induction Hcs as [|c cs Hc _ IH]; intros t0 H0 Hrun; cbn [do_calls] in Hrun.
  - injection Hrun as <-. destruct H0 as (Hwf & Hn & Hcov & Hstd).
    split; [exact Hwf|]. split; [exact Hcov|].
    split; [apply psd_diag_nonneg, Hcov|]. split; assumption.
  - destruct (do_call MAX_NR_ANCHORS c t0) as [t1 | f] eqn:E; cbn [bind] in Hrun;
      [|discriminate Hrun].
    apply (IH t1); [|exact Hrun]. eapply do_call_ok; eassumption.
Qed.

(** A prediction, then a new position for anchor 5 of 8. *)
Lemma X10_data_model_kept_witness :
  TDOA.TDOA 8 = Ok (constructed 8) /\
  Forall sensible [Call_stateEstimatorPredict; Call_setAncPosition 5 (vec3d_t.mk 1 2 3)] /\
  do_calls 8 [Call_stateEstimatorPredict; Call_setAncPosition 5 (vec3d_t.mk 1 2 3)]
    (constructed 8)
  = Ok (TDOA.with_anchorPosition (TDOA.stateEstimatorPredict (constructed 8))
          (store (TDOA.anchorPosition (constructed 8)) 5 (Some (vec3d_t.mk 1 2 3)))) /\
  diag_nonneg
    (TDOA.P (TDOA.with_anchorPosition (TDOA.stateEstimatorPredict (constructed 8))
               (store (TDOA.anchorPosition (constructed 8)) 5 (Some (vec3d_t.mk 1 2 3))))).
Proof.
  assert (Hnew : TDOA.TDOA 8 = Ok (constructed 8)) by (apply TDOA_constructed; lia).
  assert (Hcs : Forall sensible
                  [Call_stateEstimatorPredict; Call_setAncPosition 5 (vec3d_t.mk 1 2 3)])
    by (repeat constructor).
  assert (Hrun : do_calls 8
                   [Call_stateEstimatorPredict; Call_setAncPosition 5 (vec3d_t.mk 1 2 3)]
                   (constructed 8)
                 = Ok (TDOA.with_anchorPosition (TDOA.stateEstimatorPredict (constructed 8))
                         (store (TDOA.anchorPosition (constructed 8)) 5
                                (Some (vec3d_t.mk 1 2 3)))))
    by reflexivity.
  split; [exact Hnew|]. split; [exact Hcs|]. split; [exact Hrun|].
  apply (X10_data_model_kept 8 _ _ _ Hnew Hcs Hrun).
Defined.

(** * Further properties of the controller *)

(** ** What [FG_eval] writes *)

Lemma FG_eval_overwrites (coeffs fg fg' vars : list R) :
  length fg = (1 + n_constraints)%nat -> length fg' = (1 + n_constraints)%nat ->
  MPC.FG_eval coeffs fg vars = MPC.FG_eval coeffs fg' vars.
Proof.
  intros Hfg Hfg'. unfold n_constraints, MPC.N in *. cbn [Nat.mul Nat.add] in Hfg, Hfg'.
  explode_list fg. explode_list fg'.
  cbv [MPC.FG_eval MPC.for_loop MPC.set MPC.add_to MPC.get store fold_left seq nth
       MPC.N MPC.x_start MPC.y_start MPC.psi_start MPC.cte_start MPC.epsi_start
       MPC.v_start MPC.delta_start Nat.add Nat.sub].
  reflexivity.
Qed.

Lemma FG_eval_length (coeffs fg vars : list R) :
  length fg = (1 + n_constraints)%nat ->
  length (MPC.FG_eval coeffs fg vars) = (1 + n_constraints)%nat.
Proof.
  intros Hfg. unfold n_constraints, MPC.N in *. cbn [Nat.mul Nat.add] in Hfg.
  explode_list fg.
  cbv [MPC.FG_eval MPC.for_loop MPC.set MPC.add_to MPC.get store fold_left seq nth
       MPC.N MPC.x_start MPC.y_start MPC.psi_start MPC.cte_start MPC.epsi_start
       MPC.v_start MPC.delta_start Nat.add Nat.sub Nat.mul length].
  reflexivity.
Qed.

Lemma FG_eval_cost (coeffs fg vars : list R) :
  length fg = (1 + n_constraints)%nat ->
  MPC.get (MPC.FG_eval coeffs fg vars) 0 = cost vars.
Proof.
  intros Hfg. unfold n_constraints, MPC.N in *. cbn [Nat.mul Nat.add] in Hfg.
  explode_list fg.
  cbv [MPC.FG_eval MPC.for_loop MPC.set MPC.add_to MPC.get store fold_left seq nth
       MPC.N MPC.x_start MPC.y_start MPC.psi_start MPC.cte_start MPC.epsi_start
       MPC.v_start MPC.delta_start Nat.add Nat.sub
       cost tracking_cost effort_cost smoothness_cost sum_over fold_right
       cte_at heading_error_at steering_at v_at].
  ring.
Qed.

(** ** The cost *)

Lemma sum_list_nonneg (f : nat -> R) (l : list nat) :
  (forall t, In t l -> 0 <= f t) -> 0 <= fold_right (fun t acc => f t + acc) 0 l.
Proof.
  induction l as [|t l IH]; intros Hf; cbn [fold_right]; [lra|].
  assert (0 <= f t) by (apply Hf; left; reflexivity).
  assert (0 <= fold_right (fun t acc => f t + acc) 0 l)
    by (apply IH; intros u Hu; apply Hf; right; exact Hu).
  lra.
Qed.



Lemma sum_over_nonneg (lo hi : nat) (f : nat -> R) :
  (forall t, (lo <= t < hi)%nat -> 0 <= f t) -> 0 <= sum_over lo hi f.
Proof.
  intros Hf. apply sum_list_nonneg. intros t Ht. apply in_seq in Ht. apply Hf. lia.
Qed.



Lemma two_squares_nonneg (a b c d : R) : 0 <= a -> 0 <= b -> 0 <= a * c ^ 2 + b * d ^ 2.
Proof.
  intros Ha Hb. pose proof (pow2_ge_0 c). pose proof (pow2_ge_0 d).
  assert (0 <= a * c ^ 2) by (apply Rmult_le_pos; assumption).
  assert (0 <= b * d ^ 2) by (apply Rmult_le_pos; assumption).
  lra.
Qed.


Lemma tracking_cost_nonneg (vars : list R) : 0 <= tracking_cost vars.
Proof.
  apply sum_over_nonneg. intros t _.
  pose proof (two_squares_nonneg 1 1 (cte_at vars t) (heading_error_at vars t)). lra.
Qed.

Lemma effort_cost_nonneg (vars : list R) : 0 <= effort_cost vars.
Proof.
  apply sum_over_nonneg. intros t _. apply two_squares_nonneg; lra.
Qed.

Lemma smoothness_cost_nonneg (vars : list R) : 0 <= smoothness_cost vars.
Proof.
  apply sum_over_nonneg. intros t _. apply two_squares_nonneg; lra.
Qed.

(** X11: the cost [FG_eval] leaves in [fg[0]] is the sum of the squared
    cross-track and heading errors over the N steps, of 200 steering^2 +
    50 speed^2 over the N-1 actuation steps and of 250 (change of
    steering)^2 + 200 (change of speed)^2 over the N-2 consecutive pairs; it
    does not depend on what [fg] held before and is never negative. *)
Theorem X11_cost (coeffs fg vars : list R) :
  length fg = (1 + n_constraints)%nat ->
  MPC.get (MPC.FG_eval coeffs fg vars) 0
  = tracking_cost vars + effort_cost vars + smoothness_cost vars /\
  0 <= MPC.get (MPC.FG_eval coeffs fg vars) 0.
Proof.
  intros Hfg. rewrite FG_eval_cost by assumption. split; [reflexivity|].
  pose proof (tracking_cost_nonneg vars). pose proof (effort_cost_nonneg vars).
  pose proof (smoothness_cost_nonneg vars). unfold cost. lra.
Qed.

(** All variables zero. *)
Lemma X11_cost_witness :
  length (repeat 0 (1 + n_constraints)) = (1 + n_constraints)%nat /\
  0 <= MPC.get (MPC.FG_eval [0; 0; 0; 0] (repeat 0 (1 + n_constraints)) (repeat 0 n_vars)) 0.
Proof.
  assert (Hfg : length (repeat 0 (1 + n_constraints)) = (1 + n_constraints)%nat)
    by apply repeat_length.
  split; [exact Hfg|].
  apply (X11_cost [0; 0; 0; 0] (repeat 0 (1 + n_constraints)) (repeat 0 n_vars) Hfg).
Defined.




(** X13: [FG_eval] assigns every entry of [fg]: its result has the length
    of [fg] and does not depend on what [fg] held before. *)
Theorem X13_fg_overwritten (coeffs fg fg' vars : list R) :
  length fg = (1 + n_constraints)%nat ->
  length fg' = (1 + n_constraints)%nat ->
  MPC.FG_eval coeffs fg vars = MPC.FG_eval coeffs fg' vars /\
  length (MPC.FG_eval coeffs fg vars) = length fg.
Proof.
  intros Hfg Hfg'. split.
  - apply FG_eval_overwrites; assumption.
  - rewrite FG_eval_length by assumption. symmetry. exact Hfg.
Qed.

(** A vector of zeros and a vector of ones. *)
Lemma X13_fg_overwritten_witness :
  length (repeat 0 (1 + n_constraints)) = (1 + n_constraints)%nat /\
  length (repeat 1 (1 + n_constraints)) = (1 + n_constraints)%nat /\
  MPC.FG_eval [0; 0; 0; 0] (repeat 0 (1 + n_constraints)) (repeat 0 n_vars)
  = MPC.FG_eval [0; 0; 0; 0] (repeat 1 (1 + n_constraints)) (repeat 0 n_vars).
Proof.
  assert (Hfg : length (repeat 0 (1 + n_constraints)) = (1 + n_constraints)%nat)
    by apply repeat_length.
  assert (Hfg' : length (repeat 1 (1 + n_constraints)) = (1 + n_constraints)%nat)
    by apply repeat_length.
  split; [exact Hfg|]. split; [exact Hfg'|].
  apply (X13_fg_overwritten [0; 0; 0; 0] _ _ (repeat 0 n_vars) Hfg Hfg').
Defined.

(** ** The constraints of the first step and the bounds *)

Lemma FG_eval_initial (coeffs fg vars : list R) :
  length fg = (1 + n_constraints)%nat ->
  let g := MPC.FG_eval coeffs fg vars in
  MPC.get g (1 + MPC.x_start) = x_at vars 0 /\
  MPC.get g (1 + MPC.y_start) = y_at vars 0 /\
  MPC.get g (1 + MPC.psi_start) = heading_at vars 0 /\
  MPC.get g (1 + MPC.cte_start) = cte_at vars 0 /\
  MPC.get g (1 + MPC.epsi_start) = heading_error_at vars 0.
Proof.
  intros Hfg. unfold n_constraints, MPC.N in *. cbn [Nat.mul Nat.add] in Hfg.
  explode_list fg.
  cbv [MPC.FG_eval MPC.for_loop MPC.set MPC.add_to MPC.get store fold_left seq nth
       MPC.N MPC.x_start MPC.y_start MPC.psi_start MPC.cte_start MPC.epsi_start
       MPC.v_start MPC.delta_start Nat.add Nat.sub
       x_at y_at heading_at cte_at heading_error_at].
  repeat split; reflexivity.
Qed.

Lemma Solve_problem_initial_bounds (state coeffs : list R) :
  let p := MPC.Solve_problem state coeffs in
  (MPC.get (MPC.gl p) MPC.x_start = MPC.get state 0 /\
   MPC.get (MPC.gu p) MPC.x_start = MPC.get state 0) /\
  (MPC.get (MPC.gl p) MPC.y_start = MPC.get state 1 /\
   MPC.get (MPC.gu p) MPC.y_start = MPC.get state 1) /\
  (MPC.get (MPC.gl p) MPC.psi_start = MPC.get state 2 /\
   MPC.get (MPC.gu p) MPC.psi_start = MPC.get state 2) /\
  (MPC.get (MPC.gl p) MPC.cte_start = MPC.get state 3 /\
   MPC.get (MPC.gu p) MPC.cte_start = MPC.get state 3) /\
  (MPC.get (MPC.gl p) MPC.epsi_start = MPC.get state 4 /\
   MPC.get (MPC.gu p) MPC.epsi_start = MPC.get state 4).
Proof.
  cbv [MPC.Solve_problem MPC.gl MPC.gu MPC.for_loop MPC.set MPC.get store fold_left seq
       nth repeat MPC.N MPC.x_start MPC.y_start MPC.psi_start MPC.cte_start
       MPC.epsi_start MPC.v_start MPC.delta_start Nat.add Nat.sub Nat.mul].
  repeat split; reflexivity.
Qed.

(** X14: the five constraints of step 0 hold exactly when the first point
    of the horizon is the measured state: x, y, heading, cross-track error
    and heading error equal the five entries of [state]. *)
Theorem X14_initial_state_pinned (state coeffs fg vars : list R) :
  length fg = (1 + n_constraints)%nat ->
  let p := MPC.Solve_problem state coeffs in
  (constraint_holds p fg vars MPC.x_start <-> x_at vars 0 = MPC.get state 0) /\
  (constraint_holds p fg vars MPC.y_start <-> y_at vars 0 = MPC.get state 1) /\
  (constraint_holds p fg vars MPC.psi_start <-> heading_at vars 0 = MPC.get state 2) /\
  (constraint_holds p fg vars MPC.cte_start <-> cte_at vars 0 = MPC.get state 3) /\
  (constraint_holds p fg vars MPC.epsi_start <-> heading_error_at vars 0 = MPC.get state 4).
Proof.
  intros Hfg p.
  destruct (Solve_problem_initial_bounds state coeffs)
    as ((Lx & Ux) & (Ly & Uy) & (Lp & Up) & (Lc & Uc) & (Le & Ue)).
  destruct (FG_eval_initial coeffs fg vars Hfg) as (Gx & Gy & Gp & Gc & Ge).
  unfold constraint_holds. fold p in Lx, Ux, Ly, Uy, Lp, Up, Lc, Uc, Le, Ue.
  rewrite Lx, Ux, Ly, Uy, Lp, Up, Lc, Uc, Le, Ue.
  unfold p. rewrite Solve_problem_fg_eval. rewrite Gx, Gy, Gp, Gc, Ge.
  repeat split; intros; lra.
Qed.

(** The origin. *)
Lemma X14_initial_state_pinned_witness :
  length (repeat 0 (1 + n_constraints)) = (1 + n_constraints)%nat /\
  (constraint_holds (MPC.Solve_problem [0; 0; 0; 0; 0] [0; 0; 0; 0])
     (repeat 0 (1 + n_constraints)) (repeat 0 n_vars) MPC.x_start <->
   x_at (repeat 0 n_vars) 0 = MPC.get [0; 0; 0; 0; 0] 0).
Proof.
  assert (Hfg : length (repeat 0 (1 + n_constraints)) = (1 + n_constraints)%nat)
    by apply repeat_length.
  split; [exact Hfg|].
  apply (X14_initial_state_pinned [0; 0; 0; 0; 0] [0; 0; 0; 0] _ (repeat 0 n_vars) Hfg).
Defined.

Lemma Solve_problem_xl_xu (state coeffs : list R) :
  let p := MPC.Solve_problem state coeffs in
  MPC.xl p = repeat (- 1.0e19) 50 ++ repeat (- MPC.vel_bound) 9 ++ repeat (- MPC.dir_bound) 9 /\
  MPC.xu p = repeat 1.0e19 50 ++ repeat MPC.vel_bound 9 ++ repeat MPC.dir_bound 9.
Proof.
  cbv [MPC.Solve_problem MPC.xl MPC.xu MPC.for_loop MPC.set MPC.get store fold_left seq
       nth repeat app MPC.N MPC.x_start MPC.y_start MPC.psi_start MPC.cte_start
       MPC.epsi_start MPC.v_start MPC.delta_start Nat.add Nat.sub Nat.mul].
  split; reflexivity.
Qed.

Lemma nth_three_blocks (a b c : R) (n m k i : nat) :
  (i < n + m + k)%nat ->
  nth i (repeat a n ++ repeat b m ++ repeat c k) 0
  = if (i <? n)%nat then a else if (i <? n + m)%nat then b else c.
Proof.
  intros Hi. destruct (Nat.ltb_spec i n) as [H1 | H1].
  - rewrite app_nth1 by (rewrite repeat_length; exact H1). apply nth_repeat_lt, H1.
  - rewrite app_nth2 by (rewrite repeat_length; exact H1). rewrite repeat_length.
    destruct (Nat.ltb_spec i (n + m)) as [H2 | H2].
    + rewrite app_nth1 by (rewrite repeat_length; lia). apply nth_repeat_lt. lia.
    + rewrite app_nth2 by (rewrite repeat_length; lia). rewrite repeat_length.
      apply nth_repeat_lt. lia.
Qed.

Lemma Solve_problem_variable_bounds (state coeffs : list R) (i : nat) :
  (i < n_vars)%nat ->
  let p := MPC.Solve_problem state coeffs in
  ((i < MPC.v_start)%nat ->
   MPC.get (MPC.xl p) i = - 1.0e19 /\ MPC.get (MPC.xu p) i = 1.0e19) /\
  ((MPC.v_start <= i < MPC.delta_start)%nat ->
   MPC.get (MPC.xl p) i = - 3 /\ MPC.get (MPC.xu p) i = 3) /\
  ((MPC.delta_start <= i)%nat ->
   MPC.get (MPC.xl p) i = - 0.35 /\ MPC.get (MPC.xu p) i = 0.35).
Proof.
  intros Hi p. destruct (Solve_problem_xl_xu state coeffs) as [El Eu].
  fold p in El, Eu. rewrite El, Eu. unfold MPC.get.
  change n_vars with (50 + 9 + 9)%nat in Hi.
  rewrite !nth_three_blocks by exact Hi.
  change MPC.v_start with 50%nat. change MPC.delta_start with 59%nat.
  unfold MPC.vel_bound, MPC.dir_bound.
  split; [|split]; intros Hr; split;
    destruct (Nat.ltb_spec i 50); destruct (Nat.ltb_spec i (50 + 9)); try lia; lra.
Qed.

(** X15: the bounds [Solve] gives the variables: the five state fields at
    every step are left free (-1e19 .. 1e19), every speed is kept within
    [-3, 3] and every steering angle within [-0.35, 0.35]. *)
Theorem X15_variable_bounds (state coeffs : list R) (i : nat) :
  (i < n_vars)%nat ->
  let p := MPC.Solve_problem state coeffs in
  ((i < MPC.v_start)%nat ->
   MPC.get (MPC.xl p) i = - 1.0e19 /\ MPC.get (MPC.xu p) i = 1.0e19) /\
  ((MPC.v_start <= i < MPC.delta_start)%nat ->
   MPC.get (MPC.xl p) i = - 3 /\ MPC.get (MPC.xu p) i = 3) /\
  ((MPC.delta_start <= i)%nat ->
   MPC.get (MPC.xl p) i = - 0.35 /\ MPC.get (MPC.xu p) i = 0.35).
Proof.
  intros Hi p. split; [|split]; intros Hr;
    apply (Solve_problem_variable_bounds state coeffs i Hi); exact Hr.
Qed.

(** The first speed. *)
Lemma X15_variable_bounds_witness :
  (50 < n_vars)%nat /\
  MPC.get (MPC.xl (MPC.Solve_problem [0; 0; 0; 0; 0] [0; 0; 0; 0])) 50 = - 3.
Proof.
  assert (Hi : (50 < n_vars)%nat) by (unfold n_vars, MPC.N; lia).
  split; [exact Hi|].
  destruct (X15_variable_bounds [0; 0; 0; 0; 0] [0; 0; 0; 0] 50 Hi) as (_ & Hv & _).
  apply Hv.
  cbv [MPC.v_start MPC.delta_start MPC.epsi_start MPC.cte_start MPC.psi_start
       MPC.y_start MPC.x_start MPC.N]. lia.
Defined.

(** ** What [Solve] returns *)

(** X16: when the solution vector the solver hands back respects the
    bounds of the variables, the pair [Solve] returns is a steering angle
    within [-0.35, 0.35] and a speed within [-3, 3], whatever the measured
    state, the reference polynomial and the solver's status. *)
Theorem X16_actuation_within_limits
    (ipopt_solve : MPC.problem -> MPC.solve_result) (state coeffs : list R) (this : MPC.t) :
  within_bounds (MPC.Solve_problem state coeffs)
                (MPC.x (ipopt_solve (MPC.Solve_problem state coeffs))) ->
  exists steering speed : R,
    fst (MPC.Solve ipopt_solve state coeffs this) = [steering; speed] /\
    - 0.35 <= steering <= 0.35 /\ - 3 <= speed <= 3.
Proof.
  intros Hb. rewrite Solve_result. do 2 eexists. split; [reflexivity|].
  assert (Hd : (MPC.delta_start < n_vars)%nat)
    by (cbv [MPC.v_start MPC.delta_start MPC.epsi_start MPC.cte_start MPC.psi_start
             MPC.y_start MPC.x_start MPC.N n_vars]; lia).
  assert (Hv : (MPC.v_start < n_vars)%nat)
    by (cbv [MPC.v_start MPC.delta_start MPC.epsi_start MPC.cte_start MPC.psi_start
             MPC.y_start MPC.x_start MPC.N n_vars]; lia).
  pose proof (Hb _ Hd) as Bd. pose proof (Hb _ Hv) as Bv.
  destruct (Solve_problem_variable_bounds state coeffs _ Hd) as (_ & _ & Ed).
  destruct (Solve_problem_variable_bounds state coeffs _ Hv) as (_ & Ev & _).
  destruct Ed as [Edl Edu]; [lia|].
  destruct Ev as [Evl Evu];
    [cbv [MPC.v_start MPC.delta_start MPC.epsi_start MPC.cte_start MPC.psi_start
          MPC.y_start MPC.x_start MPC.N]; lia|].
  rewrite Edl, Edu in Bd. rewrite Evl, Evu in Bv. split; assumption.
Qed.

Lemma zeros_within_bounds (state coeffs : list R) :
  within_bounds (MPC.Solve_problem state coeffs) (repeat 0 n_vars).
Proof.
  intros i Hi.
  replace (MPC.get (repeat 0 n_vars) i) with 0
    by (symmetry; apply nth_repeat_lt, Hi).
  destruct (Solve_problem_variable_bounds state coeffs i Hi) as (Hs & Hv & Hd).
  destruct (Nat.lt_ge_cases i MPC.v_start) as [H1 | H1].
  - destruct (Hs H1) as [-> ->]. lra.
  - destruct (Nat.lt_ge_cases i MPC.delta_start) as [H2 | H2].
    + destruct (Hv (conj H1 H2)) as [-> ->]. lra.
    + destruct (Hd H2) as [-> ->]. lra.
Qed.

(** A solver that returns the zero vector. *)
Lemma X16_actuation_within_limits_witness :
  within_bounds (MPC.Solve_problem [0; 0; 0; 0; 0] [0; 0; 0; 0])
    (MPC.x ((fun _ => MPC.mk_solve_result MPC.success (repeat 0 n_vars))
              (MPC.Solve_problem [0; 0; 0; 0; 0] [0; 0; 0; 0]))) /\
  exists steering speed : R,
    fst (MPC.Solve (fun _ => MPC.mk_solve_result MPC.success (repeat 0 n_vars))
                   [0; 0; 0; 0; 0] [0; 0; 0; 0] (MPC.mk [] [])) = [steering; speed] /\
    - 0.35 <= steering <= 0.35 /\ - 3 <= speed <= 3.
Proof.
  assert (Hb : within_bounds (MPC.Solve_problem [0; 0; 0; 0; 0] [0; 0; 0; 0])
                 (MPC.x ((fun _ => MPC.mk_solve_result MPC.success (repeat 0 n_vars))
                           (MPC.Solve_problem [0; 0; 0; 0; 0] [0; 0; 0; 0]))))
    by apply zeros_within_bounds.
  split; [exact Hb|].
  apply (X16_actuation_within_limits
           (fun _ => MPC.mk_solve_result MPC.success (repeat 0 n_vars))
           [0; 0; 0; 0; 0] [0; 0; 0; 0] (MPC.mk [] []) Hb).
Defined.

(** The trajectory [Solve] leaves in the controller is the solver's x
    and y at the steps 1 .. N-1 (the first point of the horizon is left
    out), N-1 points each; what the controller held before is discarded, so
    neither the pair returned nor the trajectory depends on earlier calls. *)
Lemma Solve_trajectory
    (ipopt_solve : MPC.problem -> MPC.solve_result) (state coeffs : list R)
    (this this' : MPC.t) :
  let solution := ipopt_solve (MPC.Solve_problem state coeffs) in
  let out := snd (MPC.Solve ipopt_solve state coeffs this) in
  MPC.x_vals out
  = map (fun i => MPC.get (MPC.x solution) (MPC.x_start + i)) (seq 1 (MPC.N - 1)) /\
  MPC.y_vals out
  = map (fun i => MPC.get (MPC.x solution) (MPC.y_start + i)) (seq 1 (MPC.N - 1)) /\
  length (MPC.x_vals out) = (MPC.N - 1)%nat /\
  length (MPC.y_vals out) = (MPC.N - 1)%nat /\
  MPC.Solve ipopt_solve state coeffs this = MPC.Solve ipopt_solve state coeffs this'.
Proof. repeat split. Qed.

(** ** Standing still *)











(** * Properties of the waypoint follower *)

(** ** The angle error *)

Lemma atan_nonpos (u : R) : u <= 0 -> atan u <= 0.
Proof.
  intros [Hu | ->]; [|rewrite atan_0; lra].
  pose proof (atan_increasing u 0 Hu) as H. rewrite atan_0 in H. lra.
Qed.

Lemma atan_pos (u : R) : 0 < u -> 0 < atan u.
Proof.
  intros Hu. pose proof (atan_increasing 0 u Hu) as H. rewrite atan_0 in H. exact H.
Qed.

Lemma atan2_range (y x : R) : - PI < Waypoint.atan2 y x <= PI.
Proof.
  pose proof PI_RGT_0 as Hpi. unfold Waypoint.atan2.
  destruct (Rlt_dec 0 x) as [Hx | Hx].
  { pose proof (atan_bound (y / x)). lra. }
  destruct (Rlt_dec x 0) as [Hx' | Hx'].
  - pose proof (atan_bound (y / x)) as [Hl Hu].
    assert (Hinv : / x < 0) by (apply Rinv_lt_0_compat, Hx').
    destruct (Rle_dec 0 y) as [Hy | Hy].
    + assert (y / x <= 0) by (unfold Rdiv; nra).
      pose proof (atan_nonpos (y / x) H). lra.
    + assert (0 < y / x) by (unfold Rdiv; nra).
      pose proof (atan_pos (y / x) H). lra.
  - destruct (Rlt_dec 0 y); [lra|]. destruct (Rlt_dec y 0); lra.
Qed.

(** X19: the angle error [drive] steers by lies within [-pi, pi]: the
    difference of the two directions, each in (-pi, pi], is brought back by
    one turn when it is beyond pi on either side. *)
Theorem X19_angle_error_range (g : Waypoint.globals) :
  - PI <= Waypoint.angle_error g <= PI.
Proof.
  unfold Waypoint.angle_error, Waypoint.get_angle_between_3_pts, Waypoint.M_PI.
  cbv zeta.
  match goal with
  | |- context [Waypoint.atan2 ?a ?b - Waypoint.atan2 ?c ?d] =>
      pose proof (atan2_range a b); pose proof (atan2_range c d);
      set (u := Waypoint.atan2 a b) in *; set (v := Waypoint.atan2 c d) in *
  end.
  destruct (Rlt_dec PI (u - v)); destruct (Rlt_dec _ (- PI)); lra.
Qed.

(** ** The commands *)

Lemma clamp_speed (s : R) :
  0 <= s -> 0 <= Waypoint.fmax (Waypoint.fmin (s + Waypoint.DELTA_SPEED) 2) (- 2) <= 2.
Proof.
  intros Hs. unfold Waypoint.fmax, Waypoint.fmin, Waypoint.DELTA_SPEED, Rmax, Rmin.
  destruct (Rle_dec (s + 0.25) 2); destruct (Rle_dec _ (- 2)); lra.
Qed.

Lemma clamp_direction (d : R) :
  - 0.35 <= Waypoint.fmax (Waypoint.fmin d 0.35) (- 0.35) <= 0.35.
Proof.
  unfold Waypoint.fmax, Waypoint.fmin, Rmax, Rmin.
  destruct (Rle_dec d 0.35); destruct (Rle_dec _ (- 0.35)); lra.
Qed.

(** A pass publishes its command last, the speed and the direction it
    leaves in the globals, and keeps them within the limits. *)
Lemma drive_pass_command (g : Waypoint.globals) :
  command_within_limits (Waypoint.speed g) (Waypoint.direction g) ->
  let g' := fst (Waypoint.drive_pass g) in
  command_within_limits (Waypoint.speed g') (Waypoint.direction g') /\
  (snd (Waypoint.drive_pass g)
   = [Waypoint.ackermann_cmd (Waypoint.speed g') (Waypoint.direction g')] \/
   snd (Waypoint.drive_pass g)
   = [Waypoint.Reached Waypoint.Text.TRUE;
      Waypoint.ackermann_cmd (Waypoint.speed g') (Waypoint.direction g')]).
Proof.
  intros [Hs Hd]. unfold Waypoint.drive_pass.
  destruct (Waypoint.starl_flag g).
  - destruct (Rlt_dec _ 0.3).
    + cbn. split; [|right; reflexivity]. unfold command_within_limits. lra.
    + cbn [Waypoint.gotWP Waypoint.speed Waypoint.direction].
      destruct (Waypoint.gotWP g); cbn; (split; [|left; reflexivity]).
      * split; [apply clamp_speed; lra | apply clamp_direction].
      * split; assumption.
  - cbn [Waypoint.gotWP Waypoint.speed Waypoint.direction].
    destruct (Waypoint.gotWP g); cbn; (split; [|left; reflexivity]).
    + split; [apply clamp_speed; lra | apply clamp_direction].
    + split; assumption.
Qed.

Lemma step_command (e : Waypoint.event) (g : Waypoint.globals) :
  command_within_limits (Waypoint.speed g) (Waypoint.direction g) ->
  command_within_limits (Waypoint.speed (fst (Waypoint.step e g)))
                        (Waypoint.direction (fst (Waypoint.step e g))) /\
  forall s d, In (Waypoint.ackermann_cmd s d) (snd (Waypoint.step e g)) ->
              command_within_limits s d.
Proof.
  intros Hg. destruct e as [p | p | p |]; cbn [Waypoint.step fst snd];
    try (split; [exact Hg | intros s d []]).
  destruct (drive_pass_command g Hg) as [Hg' [Hout | Hout]]; (split; [exact Hg'|]);
    rewrite Hout; intros s d Hin; cbn [In] in Hin.
  - destruct Hin as [E | []]. injection E as <- <-. exact Hg'.
  - destruct Hin as [E | [E | []]]; [discriminate E|]. injection E as <- <-. exact Hg'.
Qed.

Lemma run_cons (e : Waypoint.event) (es : list Waypoint.event) (g : Waypoint.globals) :
  Waypoint.run (e :: es) g
  = (fst (Waypoint.run es (fst (Waypoint.step e g))),
     snd (Waypoint.step e g) ++ snd (Waypoint.run es (fst (Waypoint.step e g)))).
Proof.
  cbn [Waypoint.run]. destruct (Waypoint.step e g) as [g1 out1].
  cbn [fst snd]. destruct (Waypoint.run es g1) as [g2 out2]. reflexivity.
Qed.

Lemma run_command (es : list Waypoint.event) (g : Waypoint.globals) :
  command_within_limits (Waypoint.speed g) (Waypoint.direction g) ->
  forall s d, In (Waypoint.ackermann_cmd s d) (snd (Waypoint.run es g)) ->
              command_within_limits s d.
Proof.
  revert g. induction es as [|e es IH]; intros g Hg s d Hin.
  - destruct Hin.
  - rewrite run_cons in Hin. cbn [snd] in Hin. apply in_app_or in Hin.
    destruct (step_command e g Hg) as [Hg' Hout].
    destruct Hin as [Hin | Hin]; [apply Hout, Hin | apply (IH _ Hg' s d Hin)].
Qed.

(** X20: whatever positions and waypoints arrive and however the callbacks
    and the passes of [drive] follow each other, every command the node
    publishes has a speed within [0, 2] and a steering angle within
    [-0.35, 0.35]: the vehicle is never sent backwards. *)
Theorem X20_commands_within_limits (es : list Waypoint.event) (s d : R) :
  In (Waypoint.ackermann_cmd s d) (snd (Waypoint.run es Waypoint.initial)) ->
  0 <= s <= 2 /\ - 0.35 <= d <= 0.35.
Proof.
  apply run_command. unfold command_within_limits. cbn. lra.
Qed.

(** One pass before any waypoint. *)
Lemma X20_commands_within_limits_witness :
  In (Waypoint.ackermann_cmd 0 0) (snd (Waypoint.run [Waypoint.pass] Waypoint.initial)) /\
  0 <= 0 <= 2.
Proof.
  assert (Hin : In (Waypoint.ackermann_cmd 0 0)
                   (snd (Waypoint.run [Waypoint.pass] Waypoint.initial)))
    by (left; reflexivity).
  split; [exact Hin|].
  apply (X20_commands_within_limits [Waypoint.pass] 0 0 Hin).
Defined.

(** ** Reaching the waypoint *)

(** X21: a pass of [drive] during which no callback runs (the pass is one
    step, as [drive_pass] takes it; the source runs [drive] in a thread of
    its own beside the callbacks, without a lock) and that finds the
    vehicle less than 0.3 from a waypoint not yet acknowledged (distance in
    the x-y plane to the latest position received) publishes "TRUE" on
    /Reached and then the command (0, 0), and leaves no waypoint
    pending. *)
Theorem X21_waypoint_reached (g : Waypoint.globals) :
  Waypoint.starl_flag g = true ->
  sqrt ((Waypoint.Point.x (Waypoint.vicon_position g)
         - Waypoint.Point.x (Waypoint.current_waypoint g)) ^ 2
        + (Waypoint.Point.y (Waypoint.vicon_position g)
           - Waypoint.Point.y (Waypoint.current_waypoint g)) ^ 2) < 0.3 ->
  let g' := fst (Waypoint.drive_pass g) in
  snd (Waypoint.drive_pass g)
  = [Waypoint.Reached Waypoint.Text.TRUE; Waypoint.ackermann_cmd 0 0] /\
  Waypoint.starl_flag g' = false /\ Waypoint.gotWP g' = false /\
  Waypoint.speed g' = 0 /\ Waypoint.direction g' = 0 /\
  Waypoint.current_waypoint g' = Waypoint.current_waypoint g.
Proof.
  intros Hflag Hnear. unfold Waypoint.drive_pass. rewrite Hflag.
  destruct (Rlt_dec _ 0.3) as [_ | Hfar]; [|contradiction].
  cbn. repeat split.
Qed.

(** A waypoint at the vehicle's position. *)
Lemma X21_waypoint_reached_witness :
  Waypoint.starl_flag (Waypoint.getWP (Waypoint.Point.mk 0 0 0) Waypoint.initial) = true /\
  sqrt ((Waypoint.Point.x (Waypoint.vicon_position
           (Waypoint.getWP (Waypoint.Point.mk 0 0 0) Waypoint.initial))
         - Waypoint.Point.x (Waypoint.current_waypoint
             (Waypoint.getWP (Waypoint.Point.mk 0 0 0) Waypoint.initial))) ^ 2
        + (Waypoint.Point.y (Waypoint.vicon_position
             (Waypoint.getWP (Waypoint.Point.mk 0 0 0) Waypoint.initial))
           - Waypoint.Point.y (Waypoint.current_waypoint
               (Waypoint.getWP (Waypoint.Point.mk 0 0 0) Waypoint.initial))) ^ 2) < 0.3 /\
  snd (Waypoint.drive_pass (Waypoint.getWP (Waypoint.Point.mk 0 0 0) Waypoint.initial))
  = [Waypoint.Reached Waypoint.Text.TRUE; Waypoint.ackermann_cmd 0 0].
Proof.
  assert (Hflag : Waypoint.starl_flag
                    (Waypoint.getWP (Waypoint.Point.mk 0 0 0) Waypoint.initial) = true)
    by reflexivity.
  assert (Hnear :
    sqrt ((Waypoint.Point.x (Waypoint.vicon_position
             (Waypoint.getWP (Waypoint.Point.mk 0 0 0) Waypoint.initial))
           - Waypoint.Point.x (Waypoint.current_waypoint
               (Waypoint.getWP (Waypoint.Point.mk 0 0 0) Waypoint.initial))) ^ 2
          + (Waypoint.Point.y (Waypoint.vicon_position
               (Waypoint.getWP (Waypoint.Point.mk 0 0 0) Waypoint.initial))
             - Waypoint.Point.y (Waypoint.current_waypoint
                 (Waypoint.getWP (Waypoint.Point.mk 0 0 0) Waypoint.initial))) ^ 2) < 0.3).
  { cbn [Waypoint.getWP Waypoint.initial Waypoint.vicon_position Waypoint.current_waypoint
         Waypoint.Point.x Waypoint.Point.y].
    replace ((0 - 0) ^ 2 + (0 - 0) ^ 2) with 0 by ring. rewrite sqrt_0. lra. }
  split; [exact Hflag|]. split; [exact Hnear|].
  apply (X21_waypoint_reached _ Hflag Hnear).
Defined.

Lemma drive_pass_idle (g : Waypoint.globals) :
  Waypoint.starl_flag g = false -> Waypoint.gotWP g = false ->
  let g' := fst (Waypoint.drive_pass g) in
  snd (Waypoint.drive_pass g)
  = [Waypoint.ackermann_cmd (Waypoint.speed g) (Waypoint.direction g)] /\
  Waypoint.starl_flag g' = false /\ Waypoint.gotWP g' = false /\
  Waypoint.speed g' = Waypoint.speed g /\ Waypoint.direction g' = Waypoint.direction g.
Proof.
  intros Hflag Hwp. unfold Waypoint.drive_pass. rewrite Hflag.
  cbn [Waypoint.gotWP]. rewrite Hwp. cbn. repeat split.
Qed.

(** X22: while no waypoint is pending, and until the next one arrives,
    nothing is published on /Reached and every pass of [drive] repeats the
    command it holds; after a waypoint was reached this is the command
    (0, 0), so the vehicle is kept stopped. *)
Theorem X22_idle_until_next_waypoint (es : list Waypoint.event) (g : Waypoint.globals) :
  Waypoint.starl_flag g = false ->
  Waypoint.gotWP g = false ->
  count_Waypoint es = 0%nat ->
  (forall m, In m (snd (Waypoint.run es g)) ->
     m = Waypoint.ackermann_cmd (Waypoint.speed g) (Waypoint.direction g)) /\
  Waypoint.speed (fst (Waypoint.run es g)) = Waypoint.speed g /\
  Waypoint.direction (fst (Waypoint.run es g)) = Waypoint.direction g.
Proof.
  revert g. induction es as [|e es IH]; intros g Hflag Hwp Hcount.
  - cbn. split; [intros m []|split; reflexivity].
  - rewrite run_cons. cbn [fst snd].
    destruct e as [p | p | p |]; cbn [count_Waypoint filter length] in Hcount;
      try discriminate Hcount.
    + destruct (IH (Waypoint.getDecaPosition p g) Hflag Hwp Hcount) as (Hout & Hs & Hd).
      cbn [Waypoint.step fst snd app]. split; [exact Hout | split; assumption].
    + destruct (IH (Waypoint.getViconPosition p g) Hflag Hwp Hcount) as (Hout & Hs & Hd).
      cbn [Waypoint.step fst snd app]. split; [exact Hout | split; assumption].
    + cbn [Waypoint.step].
      destruct (drive_pass_idle g Hflag Hwp) as (Hmsg & Hflag' & Hwp' & Hs' & Hd').
      destruct (IH (fst (Waypoint.drive_pass g)) Hflag' Hwp' Hcount) as (Hout & Hs & Hd).
      rewrite Hs' in Hout, Hs. rewrite Hd' in Hout, Hd.
      split; [|split; assumption].
      intros m Hin. apply in_app_or in Hin. destruct Hin as [Hin | Hin].
      * rewrite Hmsg in Hin. destruct Hin as [<- | []]. reflexivity.
      * apply Hout, Hin.
Qed.

(** Two passes and a position before any waypoint. *)
Lemma X22_idle_until_next_waypoint_witness :
  Waypoint.starl_flag Waypoint.initial = false /\
  Waypoint.gotWP Waypoint.initial = false /\
  count_Waypoint [Waypoint.pass; Waypoint.on_pose (Waypoint.Point.mk 1 1 0); Waypoint.pass]
  = 0%nat /\
  Waypoint.speed
    (fst (Waypoint.run [Waypoint.pass; Waypoint.on_pose (Waypoint.Point.mk 1 1 0);
                        Waypoint.pass] Waypoint.initial))
  = Waypoint.speed Waypoint.initial.
Proof.
  assert (Hflag : Waypoint.starl_flag Waypoint.initial = false) by reflexivity.
  assert (Hwp : Waypoint.gotWP Waypoint.initial = false) by reflexivity.
  assert (Hcount : count_Waypoint
                     [Waypoint.pass; Waypoint.on_pose (Waypoint.Point.mk 1 1 0);
                      Waypoint.pass] = 0%nat) by reflexivity.
  split; [exact Hflag|]. split; [exact Hwp|]. split; [exact Hcount|].
  apply (X22_idle_until_next_waypoint _ _ Hflag Hwp Hcount).
Defined.

Lemma count_Reached_app (a b : list Waypoint.message) :
  count_Reached (a ++ b) = (count_Reached a + count_Reached b)%nat.
Proof. unfold count_Reached. rewrite filter_app, length_app. reflexivity. Qed.

Lemma step_acknowledgements (e : Waypoint.event) (g : Waypoint.globals) :
  (count_Reached (snd (Waypoint.step e g))
   + (if Waypoint.starl_flag (fst (Waypoint.step e g)) then 1 else 0)
   <= count_Waypoint [e] + (if Waypoint.starl_flag g then 1 else 0))%nat.
Proof.
  destruct e as [p | p | p |]; cbn [Waypoint.step fst snd count_Waypoint filter length].
  - cbn. lia.
  - cbn. lia.
  - cbn. destruct (Waypoint.starl_flag g); lia.
  - unfold Waypoint.drive_pass. destruct (Waypoint.starl_flag g) eqn:Hflag.
    + destruct (Rlt_dec _ 0.3).
      * cbn. lia.
      * cbn [Waypoint.gotWP]. destruct (Waypoint.gotWP g); cbn; try rewrite Hflag; cbn; lia.
    + cbn [Waypoint.gotWP]. destruct (Waypoint.gotWP g); cbn; try rewrite Hflag; cbn; lia.
Qed.

Lemma run_acknowledgements (es : list Waypoint.event) (g : Waypoint.globals) :
  (count_Reached (snd (Waypoint.run es g))
   + (if Waypoint.starl_flag (fst (Waypoint.run es g)) then 1 else 0)
   <= count_Waypoint es + (if Waypoint.starl_flag g then 1 else 0))%nat.
Proof.
  revert g. induction es as [|e es IH]; intros g.
  - cbn. lia.
  - rewrite run_cons. cbn [fst snd]. rewrite count_Reached_app.
    pose proof (step_acknowledgements e g) as Hstep.
    pose proof (IH (fst (Waypoint.step e g))) as Hrest.
    assert (Hc : count_Waypoint (e :: es) = (count_Waypoint [e] + count_Waypoint es)%nat).
    { unfold count_Waypoint. cbn [filter]. destruct e; cbn [length]; lia. }
    rewrite Hc. lia.
Qed.

(** X23: a waypoint is acknowledged at most once: however the callbacks
    and the passes of [drive] follow each other, the messages published on
    /Reached are never more than the waypoints received. *)
Theorem X23_one_acknowledgement_per_waypoint (es : list Waypoint.event) :
  (count_Reached (snd (Waypoint.run es Waypoint.initial)) <= count_Waypoint es)%nat.
Proof.
  pose proof (run_acknowledgements es Waypoint.initial) as H.
  cbn [Waypoint.initial Waypoint.starl_flag] in H. lia.
Qed.
